(** * socket.io-mongo-adapter: the replication protocol of [lib/index.ts]

    A shallow embedding of the MongoDB adapter of Socket.IO.  The adapter
    state is a record threaded explicitly through every operation; the shared
    MongoDB collection is a list of documents in natural (insertion) order;
    calls into the base [Adapter] class, the namespace and user callbacks are
    recorded in a trace.  Asynchronous operations are sequentialised: a
    promise is embedded by its settlement, the clock ([Date.now()]), the
    random identifiers ([randomId()]) and the outcome of each driver call are
    arguments supplied by the environment. *)

From stdpp Require Import gmap strings list fin_maps pretty.

From Stdlib Require Import ZArith Ascii.

Open Scope Z_scope.

#[local] Set Warnings "-clear-no-such-hyp".

(** ** JavaScript values *)

Definition Room := string.

(** Functions are first-class in the source; the embedding names the ones that
    flow through the adapter. *)
Inductive Callback :=
| UserFunction (name : string)          (* a function supplied by the caller *)
| PromiseResolve (requestId : string)   (* [resolve] of the promise of fetchSockets *)
| PromiseReject (requestId : string)    (* [reject] of the promise of fetchSockets *)
| PublishClientCount (requestId : string) (* closure of onEvent, BROADCAST with ack *)
| PublishAck (requestId : string)         (* closure of onEvent, BROADCAST with ack *)
| EmitResponse (requestId : string).      (* closure of onEvent, SERVER_SIDE_EMIT with ack *)

#[local] Unset Elimination Schemes.

Inductive JsValue :=
| JsUndefined
| JsNull
| JsBool (b : bool)
| JsNumber (n : Z)
| JsString (s : string)
| JsError (message : string)            (* [new Error(message)], driver errors *)
| JsFunction (f : Callback)
| JsObjectId (id : N)                    (* a BSON ObjectId *)
| JsArray (items : list JsValue)
| JsObject (fields : list (string * JsValue)).

#[local] Set Elimination Schemes.

(** The settlement of a promise. *)
Inductive Promise (A : Type) :=
| Resolved (value : A)
| Rejected (reason : JsValue).

Arguments Resolved {A} value.

Arguments Rejected {A} reason.

(** ** Event types, for messages between nodes *)

Inductive EventType :=
| INITIAL_HEARTBEAT
| HEARTBEAT
| BROADCAST
| SOCKETS_JOIN
| SOCKETS_LEAVE
| DISCONNECT_SOCKETS
| FETCH_SOCKETS
| FETCH_SOCKETS_RESPONSE
| SERVER_SIDE_EMIT
| SERVER_SIDE_EMIT_RESPONSE
| BROADCAST_CLIENT_COUNT
| BROADCAST_ACK
| SESSION.

Definition EventType_value (t : EventType) : Z :=
  match t with
  | INITIAL_HEARTBEAT => 1
  | HEARTBEAT => 2
  | BROADCAST => 3
  | SOCKETS_JOIN => 4
  | SOCKETS_LEAVE => 5
  | DISCONNECT_SOCKETS => 6
  | FETCH_SOCKETS => 7
  | FETCH_SOCKETS_RESPONSE => 8
  | SERVER_SIDE_EMIT => 9
  | SERVER_SIDE_EMIT_RESPONSE => 10
  | BROADCAST_CLIENT_COUNT => 11
  | BROADCAST_ACK => 12
  | SESSION => 13
  end.

Global Instance EventType_eq_dec : EqDecision EventType.
Proof. solve_decision. Defined.

(** ** Packets, options, sessions *)

(** A Socket.IO packet.  [packet_data] is [None] when the [data] attribute is
    missing (or falsy); an array, even empty, is truthy. *)
Record Packet := {
  packet_type : Z;
  packet_id : option Z;
  packet_data : option (list JsValue);
}.

Record BroadcastFlags := {
  local : bool;
  volatile : option bool;
  timeout : option Z;
}.

(** [BroadcastOptions] of socket.io-adapter: [rooms] and [except] are ES6
    sets, kept here in iteration order. *)
Record BroadcastOptions := {
  rooms : list Room;
  except : option (list Room);
  flags : option BroadcastFlags;
}.

(** What [serializeOptions] stores in a document. *)
Record SerializedOptions := {
  ser_rooms : list Room;
  ser_except : list Room;
  ser_flags : option BroadcastFlags;
}.

Definition serializeOptions (opts : BroadcastOptions) : SerializedOptions :=
  {| ser_rooms := rooms opts;
     ser_except := match except opts with Some e => e | None => [] end;
     ser_flags := flags opts |}.

Definition deserializeOptions (opts : SerializedOptions) : BroadcastOptions :=
  {| rooms := ser_rooms opts;
     except := Some (ser_except opts);
     flags := ser_flags opts |}.

(** [opts?.flags?.local] *)
Definition onlyLocal (opts : BroadcastOptions) : bool :=
  match flags opts with Some f => local f | None => false end.

(** The session object handed to [persistSession]; [missedPackets] is only set
    by [restoreSession]. *)
Record Session := {
  sid : string;
  pid : string;
  session_rooms : list Room;
  session_data : JsValue;
  missedPackets : option (list (list JsValue));
}.

Definition set_missedPackets (m : list (list JsValue)) (s : Session) : Session :=
  {| sid := sid s; pid := pid s; session_rooms := session_rooms s;
     session_data := session_data s; missedPackets := Some m |}.

(** ** The documents of the MongoDB collection *)

(** An [ObjectId] is a 12-byte value; they are ordered as big-endian numbers. *)
Definition ObjectId := N.

(** The [type] and [data] attributes of an [AdapterEvent], as one tagged
    payload: each event type with the shape of the data it is published with. *)
Inductive EventData :=
| InitialHeartbeatData
| HeartbeatData
| BroadcastData (packet : Packet) (requestId : option string) (opts : SerializedOptions)
| SocketsJoinData (opts : SerializedOptions) (join_rooms : list Room)
| SocketsLeaveData (opts : SerializedOptions) (leave_rooms : list Room)
| DisconnectSocketsData (opts : SerializedOptions) (close_flag : bool)
| FetchSocketsData (opts : SerializedOptions) (requestId : string)
| FetchSocketsResponseData (requestId : string) (sockets : list JsValue)
| ServerSideEmitData (requestId : option string) (packet : list JsValue)
| ServerSideEmitResponseData (requestId : string) (packet : JsValue)
| BroadcastClientCountData (requestId : string) (clientCount : Z)
| BroadcastAckData (requestId : string) (packet : JsValue)
| SessionData (session : Session).

Definition type_of (d : EventData) : EventType :=
  match d with
  | InitialHeartbeatData => INITIAL_HEARTBEAT
  | HeartbeatData => HEARTBEAT
  | BroadcastData _ _ _ => BROADCAST
  | SocketsJoinData _ _ => SOCKETS_JOIN
  | SocketsLeaveData _ _ => SOCKETS_LEAVE
  | DisconnectSocketsData _ _ => DISCONNECT_SOCKETS
  | FetchSocketsData _ _ => FETCH_SOCKETS
  | FetchSocketsResponseData _ _ => FETCH_SOCKETS_RESPONSE
  | ServerSideEmitData _ _ => SERVER_SIDE_EMIT
  | ServerSideEmitResponseData _ _ => SERVER_SIDE_EMIT_RESPONSE
  | BroadcastClientCountData _ _ => BROADCAST_CLIENT_COUNT
  | BroadcastAckData _ _ => BROADCAST_ACK
  | SessionData _ => SESSION
  end.

Record AdapterEvent := {
  _id : ObjectId;
  ev_uid : option string;
  ev_nsp : option string;
  createdAt : option Z;
  data : EventData;
}.

Definition ev_type (document : AdapterEvent) : EventType := type_of (data document).

(** The collection, in natural order. *)
Abbreviation Collection := (list AdapterEvent).

(** UID of an emitter using the [@socket.io/mongo-emitter] package *)
Definition EMITTER_UID : string := "emitter".

(** ** Requests, timers and the adapter state *)

(** A pending fan-out request.  [timeout] is the handle of its deadline timer
    (timers are keyed by the request they belong to). *)
Record Request := {
  req_type : EventType;
  resolve : Callback;
  req_timeout : string;
  expected : nat;
  current : nat;
  responses : list JsValue;
}.

Record AckRequest := {
  ack_type : EventType;
  clientCountCallback : Callback;
  ack : Callback;
}.

(** The closures handed to [setTimeout]. *)
Inductive TimeoutCallback :=
| FetchSocketsTimeout                      (* of fetchSockets *)
| ServerSideEmitTimeout (ack : Callback)   (* of serverSideEmitWithAck *)
| AckRequestCleanup.                       (* of broadcastWithAck *)

Record Timer := {
  deadline : Z;
  callback : TimeoutCallback;
}.

Record MongoAdapter := {
  uid : string;
  nsp_name : string;                 (* this.nsp.name *)
  connectionStateRecovery : bool;    (* this.nsp.server.opts.connectionStateRecovery *)
  requestsTimeout : Z;
  heartbeatInterval : Z;
  heartbeatTimeout : Z;
  addCreatedAtField : bool;
  nodesMap : gmap string Z;          (* uid => timestamp of last message *)
  heartbeatTimer : option Z;         (* when the pending heartbeat is due *)
  requests : gmap string Request;
  ackRequests : gmap string AckRequest;
  isClosed : bool;
  timers : gmap string Timer;        (* the pending setTimeout handles *)
}.

(** Calls that leave the class: the base adapter ([super]), the namespace and
    the callbacks. *)
Inductive Effect :=
| SuperBroadcast (packet : Packet) (opts : BroadcastOptions)
| SuperBroadcastWithAck (packet : Packet) (opts : BroadcastOptions)
    (clientCountCallback ack : Callback)
| SuperAddSockets (opts : BroadcastOptions) (rooms : list Room)
| SuperDelSockets (opts : BroadcastOptions) (rooms : list Room)
| SuperDisconnectSockets (opts : BroadcastOptions) (close : bool)
| SuperFetchSockets (opts : BroadcastOptions)
| NspOnServerSideEmit (packet : list JsValue)
| Call (f : Callback) (args : list JsValue).

(** What an operation runs in: the adapter, the collection it writes to, and
    the trace of its outside calls (oldest first). *)
Record World := {
  self : MongoAdapter;
  mongoCollection : Collection;
  trace : list Effect;
}.

Definition with_self (f : MongoAdapter -> MongoAdapter) (w : World) : World :=
  {| self := f (self w); mongoCollection := mongoCollection w; trace := trace w |}.

Definition with_collection (f : Collection -> Collection) (w : World) : World :=
  {| self := self w; mongoCollection := f (mongoCollection w); trace := trace w |}.

Definition emit_effect (e : Effect) (w : World) : World :=
  {| self := self w; mongoCollection := mongoCollection w; trace := trace w ++ [e] |}.

Definition set_nodesMap (m : gmap string Z) (a : MongoAdapter) : MongoAdapter :=
  {| uid := uid a; nsp_name := nsp_name a;
     connectionStateRecovery := connectionStateRecovery a;
     requestsTimeout := requestsTimeout a; heartbeatInterval := heartbeatInterval a;
     heartbeatTimeout := heartbeatTimeout a; addCreatedAtField := addCreatedAtField a;
     nodesMap := m; heartbeatTimer := heartbeatTimer a; requests := requests a;
     ackRequests := ackRequests a; isClosed := isClosed a; timers := timers a |}.

Definition set_heartbeatTimer (t : option Z) (a : MongoAdapter) : MongoAdapter :=
  {| uid := uid a; nsp_name := nsp_name a;
     connectionStateRecovery := connectionStateRecovery a;
     requestsTimeout := requestsTimeout a; heartbeatInterval := heartbeatInterval a;
     heartbeatTimeout := heartbeatTimeout a; addCreatedAtField := addCreatedAtField a;
     nodesMap := nodesMap a; heartbeatTimer := t; requests := requests a;
     ackRequests := ackRequests a; isClosed := isClosed a; timers := timers a |}.

Definition set_requests (r : gmap string Request) (a : MongoAdapter) : MongoAdapter :=
  {| uid := uid a; nsp_name := nsp_name a;
     connectionStateRecovery := connectionStateRecovery a;
     requestsTimeout := requestsTimeout a; heartbeatInterval := heartbeatInterval a;
     heartbeatTimeout := heartbeatTimeout a; addCreatedAtField := addCreatedAtField a;
     nodesMap := nodesMap a; heartbeatTimer := heartbeatTimer a; requests := r;
     ackRequests := ackRequests a; isClosed := isClosed a; timers := timers a |}.

Definition set_ackRequests (r : gmap string AckRequest) (a : MongoAdapter) : MongoAdapter :=
  {| uid := uid a; nsp_name := nsp_name a;
     connectionStateRecovery := connectionStateRecovery a;
     requestsTimeout := requestsTimeout a; heartbeatInterval := heartbeatInterval a;
     heartbeatTimeout := heartbeatTimeout a; addCreatedAtField := addCreatedAtField a;
     nodesMap := nodesMap a; heartbeatTimer := heartbeatTimer a; requests := requests a;
     ackRequests := r; isClosed := isClosed a; timers := timers a |}.

Definition set_isClosed (b : bool) (a : MongoAdapter) : MongoAdapter :=
  {| uid := uid a; nsp_name := nsp_name a;
     connectionStateRecovery := connectionStateRecovery a;
     requestsTimeout := requestsTimeout a; heartbeatInterval := heartbeatInterval a;
     heartbeatTimeout := heartbeatTimeout a; addCreatedAtField := addCreatedAtField a;
     nodesMap := nodesMap a; heartbeatTimer := heartbeatTimer a; requests := requests a;
     ackRequests := ackRequests a; isClosed := b; timers := timers a |}.

Definition set_timers (t : gmap string Timer) (a : MongoAdapter) : MongoAdapter :=
  {| uid := uid a; nsp_name := nsp_name a;
     connectionStateRecovery := connectionStateRecovery a;
     requestsTimeout := requestsTimeout a; heartbeatInterval := heartbeatInterval a;
     heartbeatTimeout := heartbeatTimeout a; addCreatedAtField := addCreatedAtField a;
     nodesMap := nodesMap a; heartbeatTimer := heartbeatTimer a; requests := requests a;
     ackRequests := ackRequests a; isClosed := isClosed a; timers := t |}.

(** [setTimeout] and [clearTimeout] on the handle [h]. *)
Definition setTimeout (h : string) (t : Timer) (a : MongoAdapter) : MongoAdapter :=
  set_timers (<[h := t]> (timers a)) a.

Definition clearTimeout (h : string) (a : MongoAdapter) : MongoAdapter :=
  set_timers (delete h (timers a)) a.

(** ** The driver and the clock, as seen by one call *)

(** What [insertOne] does: the driver picks the [_id] of the new document, or
    the command fails. *)
Inductive InsertOutcome :=
| Inserted (insertedId : ObjectId)
| InsertFailed (message : string).

Definition insertOne (document : AdapterEvent) (c : Collection) : Collection :=
  c ++ [document].

(** [find], [findOne] and [findOneAndDelete] with the query as a predicate. *)
Definition find (query : AdapterEvent -> bool) (c : Collection) : list AdapterEvent :=
  filter (λ d, query d) c.

Definition findOne (query : AdapterEvent -> bool) (c : Collection) : option AdapterEvent :=
  head (find query c).

Fixpoint findOneAndDelete (query : AdapterEvent -> bool) (c : Collection)
  : option AdapterEvent * Collection :=
  match c with
  | [] => (None, [])
  | d :: c' =>
      if query d then (Some d, c')
      else let '(r, c'') := findOneAndDelete query c' in (r, d :: c'')
  end.

(** Query operators on an array field that may be missing. *)
Definition field_size0 (field : option (list Room)) : bool :=
  match field with Some [] => true | _ => false end.

Definition field_in (field : option (list Room)) (values : list Room) : bool :=
  match field with
  | Some l => existsb (λ r, bool_decide (r ∈ values)) l
  | None => false
  end.

Definition field_nin (field : option (list Room)) (values : list Room) : bool :=
  negb (field_in field values).

(** The paths [data.opts], [data.pid] and [data.packet.data] of a document. *)
Definition data_opts (d : EventData) : option SerializedOptions :=
  match d with
  | BroadcastData _ _ o | SocketsJoinData o _ | SocketsLeaveData o _
  | DisconnectSocketsData o _ | FetchSocketsData o _ => Some o
  | _ => None
  end.

Definition data_pid (d : EventData) : option string :=
  match d with SessionData s => Some (pid s) | _ => None end.

Definition data_packet_data (d : EventData) : option (list JsValue) :=
  match d with BroadcastData p _ _ => packet_data p | _ => None end.

(** Which driver calls of [restoreSession] succeed. *)
Record RestoreIo := {
  io_findOneAndDelete : bool;
  io_findOne : bool;
  io_find : bool;
}.

(** How a synchronous method ends. *)
Inductive Completion :=
| Returns
| Throws (error : JsValue).

Inductive FetchSocketsResult :=
| FetchReturned (sockets : list JsValue)
| FetchPending (requestId : string).   (* settled later through the promise callbacks *)

(** The property [k] of an object. *)
Definition js_get (k : string) (v : JsValue) : JsValue :=
  match v with
  | JsObject fields =>
      match list_find (λ kv, kv.1 = k) fields with
      | Some (_, kv) => kv.2
      | None => JsUndefined
      end
  | _ => JsUndefined
  end.

(** ** Documents as the driver returns them

    What [replaceBinaryObjectsByBuffers] walks: a value that is falsy or not
    an object, a Node.js [Buffer], an array, or an object with the properties
    a lookup finds on it.  A BSON [Binary] is an object whose [_bsontype] is
    "Binary" and whose [buffer] holds the bytes.  The function updates its
    argument in place and returns it; its callers use the returned value. *)

Inductive Primitive :=
| PUndefined
| PNull
| PBool (b : bool)
| PNumber (n : Z)
| PString (s : string).

#[local] Unset Elimination Schemes.
Inductive BsonValue :=
| BsonPrimitive (v : Primitive)
| BsonBuffer (bytes : list Z)
| BsonArray (items : list BsonValue)
| BsonObject (fields : list (string * BsonValue)).
#[local] Set Elimination Schemes.

(** Induction over a value and the values it holds. *)
Fixpoint BsonValue_nested_ind (P : BsonValue -> Prop)
    (Hprimitive : ∀ v, P (BsonPrimitive v))
    (Hbuffer : ∀ bytes, P (BsonBuffer bytes))
    (Harray : ∀ items, Forall P items → P (BsonArray items))
    (Hobject : ∀ fields, Forall (λ kv, P kv.2) fields → P (BsonObject fields))
    (obj : BsonValue) {struct obj} : P obj :=
  match obj with
  | BsonPrimitive v => Hprimitive v
  | BsonBuffer bytes => Hbuffer bytes
  | BsonArray items =>
      Harray items
        ((fix go (l : list BsonValue) : Forall P l :=
            match l with
            | [] => @List.Forall_nil _ P
            | v :: l' =>
                @List.Forall_cons _ P v l'
                  (BsonValue_nested_ind P Hprimitive Hbuffer Harray Hobject v) (go l')
            end) items)
  | BsonObject fields =>
      Hobject fields
        ((fix go (l : list (string * BsonValue)) : Forall (λ kv, P kv.2) l :=
            match l with
            | [] => @List.Forall_nil _ (λ kv, P kv.2)
            | kv :: l' =>
                @List.Forall_cons _ (λ kv, P kv.2) kv l'
                  (BsonValue_nested_ind P Hprimitive Hbuffer Harray Hobject kv.2) (go l')
            end) fields)
  end.

(** The property [k] of an object ([undefined] is [None]). *)
Fixpoint bson_get (k : string) (fields : list (string * BsonValue)) : option BsonValue :=
  match fields with
  | [] => None
  | (k', v) :: rest => if bool_decide (k' = k) then Some v else bson_get k rest
  end.

(** [obj._bsontype === "Binary" && Buffer.isBuffer(obj.buffer)], with the
    buffer when it holds. *)
Definition binary_buffer (fields : list (string * BsonValue)) : option (list Z) :=
  match bson_get "_bsontype" fields, bson_get "buffer" fields with
  | Some (BsonPrimitive (PString t)), Some (BsonBuffer bytes) =>
      if bool_decide (t = "Binary") then Some bytes else None
  | _, _ => None
  end.

Fixpoint replaceBinaryObjectsByBuffers (obj : BsonValue) : BsonValue :=
  match obj with
  | BsonPrimitive _ => obj
  | BsonBuffer _ => obj
  | BsonArray items => BsonArray (map replaceBinaryObjectsByBuffers items)
  | BsonObject fields =>
      match binary_buffer fields with
      | Some bytes => BsonBuffer bytes
      | None => BsonObject (map (λ kv, (kv.1, replaceBinaryObjectsByBuffers kv.2)) fields)
      end
  end.

(** No [Binary] with a [Buffer] anywhere in the value. *)
Fixpoint binary_free (obj : BsonValue) : Prop :=
  match obj with
  | BsonPrimitive _ => True
  | BsonBuffer _ => True
  | BsonArray items => fold_right (λ v P, binary_free v ∧ P) True items
  | BsonObject fields =>
      binary_buffer fields = None
      ∧ fold_right (λ kv P, binary_free kv.2 ∧ P) True fields
  end.

(** Every object that says it is a [Binary] holds its bytes in a [Buffer],
    as the objects the BSON library builds in Node.js do. *)
Fixpoint binaries_hold_buffers (obj : BsonValue) : Prop :=
  match obj with
  | BsonPrimitive _ => True
  | BsonBuffer _ => True
  | BsonArray items => fold_right (λ v P, binaries_hold_buffers v ∧ P) True items
  | BsonObject fields =>
      match binary_buffer fields with
      | Some _ => True
      | None =>
          bson_get "_bsontype" fields ≠ Some (BsonPrimitive (PString "Binary"))
          ∧ fold_right (λ kv P, binaries_hold_buffers kv.2 ∧ P) True fields
      end
  end.

(** ** The BSON library

    The [ObjectId] functions the adapter calls: [id.toString("hex")],
    [ObjectId.isValid(s)] and [new ObjectId(s)]. *)

Class Bson := {
  ObjectId_toHex : ObjectId -> string;
  ObjectId_isValid : string -> bool;
  ObjectId_fromString : string -> ObjectId;
}.

(** An implementation: 24 hexadecimal digits. *)

Definition hex_digit_value (c : ascii) : option N :=
  let n := N_of_ascii c in
  if ((48 <=? n) && (n <=? 57))%N then Some (n - 48)%N
  else if ((97 <=? n) && (n <=? 102))%N then Some (n - 87)%N
  else if ((65 <=? n) && (n <=? 70))%N then Some (n - 55)%N
  else None.

Fixpoint hex_value (s : string) (acc : N) : option N :=
  match s with
  | EmptyString => Some acc
  | String c s' =>
      match hex_digit_value c with
      | Some d => hex_value s' (16 * acc + d)%N
      | None => None
      end
  end.

Definition hex_digit (d : N) : ascii :=
  ascii_of_N (if (d <? 10)%N then d + 48 else d + 87)%N.

Fixpoint hex_digits (n : nat) (x : N) : string :=
  match n with
  | O => ""
  | S n' => hex_digits n' (x / 16)%N +:+ String (hex_digit (x mod 16)%N) ""
  end.

Definition hex24_toHex (id : ObjectId) : string := hex_digits 24 id.

Definition hex24_isValid (s : string) : bool :=
  bool_decide (String.length s = 24%nat) && bool_decide (is_Some (hex_value s 0)).

Definition hex24_fromString (s : string) : ObjectId := default 0%N (hex_value s 0).

Definition hex24 : Bson :=
  {| ObjectId_toHex := hex24_toHex;
     ObjectId_isValid := hex24_isValid;
     ObjectId_fromString := hex24_fromString |}.

(** ** The adapter *)

Section Adapter.

Context {bson : Bson}.

Definition scheduleHeartbeat (now : Z) (a : MongoAdapter) : MongoAdapter :=
  set_heartbeatTimer (Some (now + heartbeatInterval a)) a.

Definition stamp (now : Z) (id : ObjectId) (a : MongoAdapter) (document : EventData)
  : AdapterEvent :=
  {| _id := id;
     ev_uid := Some (uid a);
     ev_nsp := Some (nsp_name a);
     createdAt := if addCreatedAtField a then Some now else None;
     data := document |}.

Definition publish (now : Z) (io : InsertOutcome) (document : EventData) (w : World)
  : Promise string * World :=
  if isClosed (self w) then (Rejected (JsString "adapter is closed"), w)
  else
    let w1 := with_self (scheduleHeartbeat now) w in
    match io with
    | Inserted id =>
        (Resolved (ObjectId_toHex id),
         with_collection (insertOne (stamp now id (self w) document)) w1)
    | InsertFailed m => (Rejected (JsError m), w1)
    end.

Definition close (w : World) : World :=
  with_self (λ a, set_heartbeatTimer None (set_isClosed true a)) w.

(** The heartbeat timer fires. *)
Definition onHeartbeatTimer (now : Z) (io : InsertOutcome) (w : World) : World :=
  match heartbeatTimer (self w) with
  | Some due =>
      if bool_decide (due ≤ now) then
        with_self (scheduleHeartbeat now) (publish now io HeartbeatData w).2
      else w
  | None => w
  end.

(** [None] stands for the [TypeError] of [packet.data.push] on a packet
    without data. *)
Definition addOffsetIfNecessary (a : MongoAdapter) (packet : Packet)
    (opts : BroadcastOptions) (offset : JsValue) : option Packet :=
  if negb (connectionStateRecovery a) then Some packet
  else
    let isEventPacket := packet_type packet =? 2 in
    let withoutAcknowledgement := bool_decide (packet_id packet = None) in
    let notVolatile :=
      match flags opts with
      | Some f => bool_decide (volatile f = None)
      | None => true
      end in
    if isEventPacket && withoutAcknowledgement && notVolatile then
      match packet_data packet with
      | Some d =>
          Some {| packet_type := packet_type packet; packet_id := packet_id packet;
                  packet_data := Some (d ++ [offset]) |}
      | None => None
      end
    else Some packet.

Definition broadcast (now : Z) (io : InsertOutcome) (packet : Packet)
    (opts : BroadcastOptions) (w : World) : Promise unit * World :=
  if onlyLocal opts then (Resolved tt, emit_effect (SuperBroadcast packet opts) w)
  else
    match publish now io (BroadcastData packet None (serializeOptions opts)) w with
    | (Rejected err, w1) => (Resolved tt, w1)
    | (Resolved offset, w1) =>
        match addOffsetIfNecessary (self w1) packet opts (JsString offset) with
        | None => (Resolved tt, w1)
        | Some packet' => (Resolved tt, emit_effect (SuperBroadcast packet' opts) w1)
        end
    end.

Definition broadcastWithAck (now : Z) (requestId : string) (io : InsertOutcome)
    (packet : Packet) (opts : BroadcastOptions) (clientCountCallback ack : Callback)
    (w : World) : Completion * World :=
  if onlyLocal opts then
    (Returns, emit_effect (SuperBroadcastWithAck packet opts clientCountCallback ack) w)
  else
    let w1 :=
      (publish now io (BroadcastData packet (Some requestId) (serializeOptions opts)) w).2 in
    let w2 :=
      with_self (λ a, set_ackRequests
        (<[requestId := {| ack_type := BROADCAST;
                           clientCountCallback := clientCountCallback;
                           ack := ack |}]> (ackRequests a)) a) w1 in
    match flags opts with
    | None => (Throws (JsError "TypeError"), w2)
    | Some f =>
        let t := {| deadline := now + default 0 (timeout f);
                    callback := AckRequestCleanup |} in
        (Returns,
         emit_effect (SuperBroadcastWithAck packet opts clientCountCallback ack)
           (with_self (setTimeout requestId t) w2))
    end.

Definition serverCount (a : MongoAdapter) : Promise nat :=
  Resolved (1 + size (nodesMap a))%nat.

Definition addSockets (now : Z) (io : InsertOutcome) (opts : BroadcastOptions)
    (rooms : list Room) (w : World) : World :=
  let w1 := emit_effect (SuperAddSockets opts rooms) w in
  if onlyLocal opts then w1
  else (publish now io (SocketsJoinData (serializeOptions opts) rooms) w1).2.

Definition delSockets (now : Z) (io : InsertOutcome) (opts : BroadcastOptions)
    (rooms : list Room) (w : World) : World :=
  let w1 := emit_effect (SuperDelSockets opts rooms) w in
  if onlyLocal opts then w1
  else (publish now io (SocketsLeaveData (serializeOptions opts) rooms) w1).2.

Definition disconnectSockets (now : Z) (io : InsertOutcome) (opts : BroadcastOptions)
    (close : bool) (w : World) : World :=
  let w1 := emit_effect (SuperDisconnectSockets opts close) w in
  if onlyLocal opts then w1
  else (publish now io (DisconnectSocketsData (serializeOptions opts) close) w1).2.

Definition nodeSeemsDown (a : MongoAdapter) (now lastSeen : Z) : Prop :=
  now - lastSeen > heartbeatTimeout a.

#[global] Instance nodeSeemsDown_dec a now lastSeen : Decision (nodeSeemsDown a now lastSeen).
Proof. unfold nodeSeemsDown. apply Z_gt_dec. Defined.

Definition getExpectedResponseCount (now : Z) (a : MongoAdapter) : nat * MongoAdapter :=
  let alive := filter (λ node, ¬ nodeSeemsDown a now node.2) (nodesMap a) in
  (size alive, set_nodesMap alive a).

Definition timeout_message (storedRequest : Request) : string :=
  "timeout reached: only " +:+ pretty (current storedRequest)
    +:+ " responses received out of " +:+ pretty (expected storedRequest).

Definition fetchSockets (now : Z) (requestId : string) (io : InsertOutcome)
    (localSockets : list JsValue) (opts : BroadcastOptions) (w : World)
  : FetchSocketsResult * World :=
  let w0 := emit_effect (SuperFetchSockets opts) w in
  let '(expectedResponseCount, a1) := getExpectedResponseCount now (self w0) in
  let w1 := with_self (λ _, a1) w0 in
  if onlyLocal opts || (expectedResponseCount =? 0)%nat then (FetchReturned localSockets, w1)
  else
    let t := {| deadline := now + requestsTimeout a1; callback := FetchSocketsTimeout |} in
    let storedRequest :=
      {| req_type := FETCH_SOCKETS;
         resolve := PromiseResolve requestId;
         req_timeout := requestId;
         current := 0;
         expected := expectedResponseCount;
         responses := localSockets |} in
    let w2 :=
      with_self (λ a, set_requests (<[requestId := storedRequest]> (requests a))
                        (setTimeout requestId t a)) w1 in
    (FetchPending requestId,
     (publish now io (FetchSocketsData (serializeOptions opts) requestId) w2).2).

Definition serverSideEmitWithAck (now : Z) (requestId : string) (io : InsertOutcome)
    (packet : list JsValue) (ack : Callback) (w : World) : World :=
  let '(expectedResponseCount, a1) := getExpectedResponseCount now (self w) in
  let w1 := with_self (λ _, a1) w in
  if (expectedResponseCount <=? 0)%nat then
    emit_effect (Call ack [JsNull; JsArray []]) w1
  else
    let t := {| deadline := now + requestsTimeout a1;
                callback := ServerSideEmitTimeout ack |} in
    let storedRequest :=
      {| req_type := FETCH_SOCKETS;
         resolve := ack;
         req_timeout := requestId;
         current := 0;
         expected := expectedResponseCount;
         responses := [] |} in
    let w2 :=
      with_self (λ a, set_requests (<[requestId := storedRequest]> (requests a))
                        (setTimeout requestId t a)) w1 in
    (publish now io (ServerSideEmitData (Some requestId) packet) w2).2.

Definition serverSideEmit (now : Z) (requestId : string) (io : InsertOutcome)
    (packet : list JsValue) (w : World) : World :=
  match last packet with
  | Some (JsFunction ack) =>
      serverSideEmitWithAck now requestId io (removelast packet) ack w
  | _ => (publish now io (ServerSideEmitData None packet) w).2
  end.

(** A timer set by [setTimeout] comes due: its closure runs. *)
Definition onTimeout (now : Z) (requestId : string) (w : World) : World :=
  match timers (self w) !! requestId with
  | None => w
  | Some t =>
      if bool_decide (deadline t ≤ now) then
        let w1 := with_self (clearTimeout requestId) w in
        match callback t with
        | FetchSocketsTimeout =>
            match requests (self w1) !! requestId with
            | Some storedRequest =>
                with_self (λ a, set_requests (delete requestId (requests a)) a)
                  (emit_effect
                     (Call (PromiseReject requestId)
                        [JsError (timeout_message storedRequest)]) w1)
            | None => w1
            end
        | ServerSideEmitTimeout ack =>
            match requests (self w1) !! requestId with
            | Some storedRequest =>
                with_self (λ a, set_requests (delete requestId (requests a)) a)
                  (emit_effect
                     (Call ack [JsError (timeout_message storedRequest);
                                JsArray (responses storedRequest)]) w1)
            | None => w1
            end
        | AckRequestCleanup =>
            with_self (λ a, set_ackRequests (delete requestId (ackRequests a)) a) w1
        end
      else w
  end.

(** What a FETCH_SOCKETS response carries for one local socket. *)
Definition serializeSocket (socket : JsValue) : JsValue :=
  JsObject [("id", js_get "id" socket); ("handshake", js_get "handshake" socket);
            ("rooms", js_get "rooms" socket); ("data", js_get "data" socket)].

(** [request.current++] and the push of the new responses. *)
Definition add_response (items : list JsValue) (request : Request) : Request :=
  {| req_type := req_type request; resolve := resolve request;
     req_timeout := req_timeout request; expected := expected request;
     current := S (current request); responses := responses request ++ items |}.

(** The end of both response cases: resolve when all the responses are in. *)
Definition settle (requestId : string) (request : Request) (args : list JsValue)
    (w : World) : World :=
  if (current request =? expected request)%nat then
    with_self (λ a, set_requests (delete requestId (requests a)) a)
      (emit_effect (Call (resolve request) args)
         (with_self (clearTimeout (req_timeout request)) w))
  else with_self (λ a, set_requests (<[requestId := request]> (requests a)) a) w.

Definition observe (now : Z) (document : AdapterEvent) (a : MongoAdapter) : MongoAdapter :=
  match ev_uid document with
  | Some u =>
      if bool_decide (u ≠ "" ∧ u ≠ EMITTER_UID) then set_nodesMap (<[u := now]> (nodesMap a)) a
      else a
  | None => a
  end.

(** The calls of the base adapter and of the namespace are recorded in the
    trace with their arguments.  The closures [onEvent] hands to them are
    named by [PublishClientCount], [PublishAck] and [EmitResponse]; what they
    do when they are called is [call_closure], below. *)
Definition onEvent (now : Z) (io : InsertOutcome) (localSockets : list JsValue)
    (document : AdapterEvent) (w : World) : World :=
  let w := with_self (observe now document) w in
  match data document with
  | InitialHeartbeatData => (publish now io HeartbeatData w).2
  | BroadcastData packet (Some requestId) opts =>
      emit_effect
        (SuperBroadcastWithAck packet (deserializeOptions opts)
           (PublishClientCount requestId) (PublishAck requestId)) w
  | BroadcastData packet None opts =>
      let opts := deserializeOptions opts in
      match addOffsetIfNecessary (self w) packet opts (JsObjectId (_id document)) with
      | Some packet => emit_effect (SuperBroadcast packet opts) w
      | None => w
      end
  | BroadcastClientCountData requestId clientCount =>
      match ackRequests (self w) !! requestId with
      | Some request => emit_effect (Call (clientCountCallback request) [JsNumber clientCount]) w
      | None => w
      end
  | BroadcastAckData requestId packet =>
      match ackRequests (self w) !! requestId with
      | Some request => emit_effect (Call (ack request) [packet]) w
      | None => w
      end
  | SocketsJoinData opts rooms =>
      emit_effect (SuperAddSockets (deserializeOptions opts) rooms) w
  | SocketsLeaveData opts rooms =>
      emit_effect (SuperDelSockets (deserializeOptions opts) rooms) w
  | DisconnectSocketsData opts close =>
      emit_effect (SuperDisconnectSockets (deserializeOptions opts) close) w
  | FetchSocketsData opts requestId =>
      let w1 := emit_effect (SuperFetchSockets (deserializeOptions opts)) w in
      (publish now io
         (FetchSocketsResponseData requestId (serializeSocket <$> localSockets)) w1).2
  | FetchSocketsResponseData requestId sockets =>
      match requests (self w) !! requestId with
      | None => w
      | Some request =>
          let request := add_response sockets request in
          settle requestId request [JsArray (responses request)] w
      end
  | ServerSideEmitData None packet => emit_effect (NspOnServerSideEmit packet) w
  | ServerSideEmitData (Some requestId) packet =>
      emit_effect (NspOnServerSideEmit (packet ++ [JsFunction (EmitResponse requestId)])) w
  | ServerSideEmitResponseData requestId packet =>
      match requests (self w) !! requestId with
      | None => w
      | Some request =>
          let request := add_response [packet] request in
          settle requestId request [JsNull; JsArray (responses request)] w
      end
  | HeartbeatData | SessionData _ => w
  end.

(** The closures [onEvent] builds for a record that carries a request id,
    when they are called.  The base adapter calls the first closure of a
    BROADCAST once, with the number of local clients that get the packet,
    before [super.broadcastWithAck] returns, and the second one with each
    acknowledgement of a client; a listener of the namespace calls the
    callback appended to the packet of a SERVER_SIDE_EMIT.  [called] is the
    variable that callback captures, and the result holds its new value.
    [clientCountCallback] has the type [(clientCount: number) => void]. *)
Definition call_closure (now : Z) (io : InsertOutcome) (f : Callback) (arg : JsValue)
    (called : bool) (w : World) : bool * World :=
  match f, arg with
  | PublishClientCount requestId, JsNumber clientCount =>
      (called, (publish now io (BroadcastClientCountData requestId clientCount) w).2)
  | PublishAck requestId, _ =>
      (called, (publish now io (BroadcastAckData requestId arg) w).2)
  | EmitResponse requestId, _ =>
      if called then (called, w)
      else (true, (publish now io (ServerSideEmitResponseData requestId arg) w).2)
  | _, _ => (called, w)
  end.

Definition persistSession (now : Z) (io : InsertOutcome) (session : Session) (w : World)
  : World :=
  (publish now io (SessionData session) w).2.

(** *** Session recovery *)

(** [{ type: EventType.SESSION, "data.pid": pid }] *)
Definition session_query (pid : string) (d : AdapterEvent) : bool :=
  bool_decide (ev_type d = SESSION) && bool_decide (data_pid (data d) = Some pid).

(** [{ type: EventType.BROADCAST, _id: eventOffset }] *)
Definition offset_query (eventOffset : ObjectId) (d : AdapterEvent) : bool :=
  bool_decide (ev_type d = BROADCAST) && bool_decide (_id d = eventOffset).

(** The [$and] query of the missed packets. *)
Definition missed_query (nsp : string) (eventOffset : ObjectId)
    (session_rooms : list Room) (d : AdapterEvent) : bool :=
  bool_decide (ev_type d = BROADCAST)
  && (eventOffset <? _id d)%N
  && bool_decide (ev_nsp d = Some nsp)
  && (field_size0 (ser_rooms <$> data_opts (data d))
      || field_in (ser_rooms <$> data_opts (data d)) session_rooms)
  && (field_size0 (ser_except <$> data_opts (data d))
      || field_nin (ser_except <$> data_opts (data d)) session_rooms).

(** The session a SESSION document holds, [results[0].value.data]. *)
Definition data_session (d : EventData) : option Session :=
  match d with SessionData s => Some s | _ => None end.

Definition restoreSession (io : RestoreIo) (pid : string) (offset : string) (w : World)
  : Promise Session * World :=
  if negb (ObjectId_isValid offset) then (Rejected (JsString "invalid offset"), w)
  else
    let eventOffset := ObjectId_fromString offset in
    (* Promise.all: both commands are sent; the deletion happens whenever the
       first one succeeds *)
    let '(found, c1) :=
      if io_findOneAndDelete io then findOneAndDelete (session_query pid) (mongoCollection w)
      else (None, mongoCollection w) in
    let atOffset := findOne (offset_query eventOffset) (mongoCollection w) in
    let w1 := with_collection (λ _, c1) w in
    if negb (io_findOneAndDelete io && io_findOne io) then
      (Rejected (JsString "error while fetching session"), w1)
    else
      match found, atOffset with
      | Some value, Some _ =>
          match data_session (data value) with
          | None => (Rejected (JsError "TypeError"), w1)
          | Some session =>
              let cursor :=
                find (missed_query (nsp_name (self w)) eventOffset (session_rooms session)) c1 in
              if io_find io then
                (Resolved (set_missedPackets (omap (λ d, data_packet_data (data d)) cursor)
                             session), w1)
              else (Rejected (JsString "error while fetching missed packets"), w1)
          end
      | _, _ => (Rejected (JsString "session or offset not found"), w1)
      end.

(** *** createAdapter: one change stream for all the namespaces of a node *)

Record MongoAdapterOptions := {
  opt_uid : option string;
  opt_requestsTimeout : option Z;
  opt_heartbeatInterval : option Z;
  opt_heartbeatTimeout : option Z;
  opt_addCreatedAtField : option bool;
}.

Inductive OperationType :=
| insert
| other_operation.   (* update, delete, drop, invalidate, ... *)

Record ChangeEvent := {
  operationType : OperationType;
  fullDocument : option AdapterEvent;
  event_token : N;
}.

(** A change stream as opened by [watch]: the uid its [$match] stage excludes
    and the token it resumes after. *)
Record ChangeStream := {
  closed : bool;
  match_ne_uid : option string;
  resumeAfter : option N;
}.

(** The variables the closure returned by [createAdapter] captures. *)
Record Node := {
  opts : MongoAdapterOptions;
  node_isClosed : bool;
  adapters : gmap string MongoAdapter;
  changeStream : option ChangeStream;
  resumeToken : option N;
}.

Record NodeWorld := {
  node : Node;
  node_collection : Collection;
  node_trace : list Effect;
}.

(** [x || d] on an optional number or string. *)
Definition or_default_Z (x : option Z) (d : Z) : Z :=
  match x with Some v => if v =? 0 then d else v | None => d end.

Definition or_default_string (x : option string) (d : string) : string :=
  match x with Some v => if bool_decide (v = "") then d else v | None => d end.

Definition createAdapter (o : MongoAdapterOptions) (randomId : string) : Node :=
  {| opts := {| opt_uid := Some (or_default_string (opt_uid o) randomId);
                opt_requestsTimeout := opt_requestsTimeout o;
                opt_heartbeatInterval := opt_heartbeatInterval o;
                opt_heartbeatTimeout := opt_heartbeatTimeout o;
                opt_addCreatedAtField := opt_addCreatedAtField o |};
     node_isClosed := false;
     adapters := ∅;
     changeStream := None;
     resumeToken := None |}.

Definition stream_is_open (n : Node) : bool :=
  match changeStream n with Some cs => negb (closed cs) | None => false end.

Definition initChangeStream (n : Node) : Node :=
  if node_isClosed n || stream_is_open n then n
  else
    {| opts := opts n; node_isClosed := node_isClosed n; adapters := adapters n;
       changeStream := Some {| closed := false;
                               match_ne_uid := opt_uid (opts n);
                               resumeAfter := resumeToken n |};
       resumeToken := resumeToken n |}.

(** The [$match] stage of the pipeline: ["fullDocument.uid": { $ne: opts.uid }]. *)
Definition pipeline_matches (cs : ChangeStream) (event : ChangeEvent) : bool :=
  bool_decide (fullDocument event ≫= ev_uid ≠ match_ne_uid cs).

(** The constructor of [MongoAdapter], before its first publish. *)
Definition new_MongoAdapter (nsp : string) (recovery : bool) (o : MongoAdapterOptions)
  : MongoAdapter :=
  {| uid := default "" (opt_uid o);
     nsp_name := nsp;
     connectionStateRecovery := recovery;
     requestsTimeout := or_default_Z (opt_requestsTimeout o) 5000;
     heartbeatInterval := or_default_Z (opt_heartbeatInterval o) 5000;
     heartbeatTimeout := or_default_Z (opt_heartbeatTimeout o) 10000;
     addCreatedAtField := default false (opt_addCreatedAtField o);
     nodesMap := ∅;
     heartbeatTimer := None;
     requests := ∅;
     ackRequests := ∅;
     isClosed := false;
     timers := ∅ |}.

(** The function [createAdapter] returns, called once per namespace. *)
Definition adapterFactory (now : Z) (io : InsertOutcome) (nsp : string) (recovery : bool)
    (nw : NodeWorld) : NodeWorld :=
  let n := node nw in
  let n1 :=
    match changeStream n with
    | None =>
        initChangeStream
          {| opts := opts n; node_isClosed := false; adapters := adapters n;
             changeStream := changeStream n; resumeToken := resumeToken n |}
    | Some _ => n
    end in
  let w :=
    (publish now io InitialHeartbeatData
       {| self := new_MongoAdapter nsp recovery (opts n1);
          mongoCollection := node_collection nw;
          trace := node_trace nw |}).2 in
  {| node := {| opts := opts n1; node_isClosed := node_isClosed n1;
                adapters := <[nsp := self w]> (adapters n1);
                changeStream := changeStream n1; resumeToken := resumeToken n1 |};
     node_collection := mongoCollection w;
     node_trace := trace w |}.

(** The [close] installed on each adapter by the factory (the adapter itself
    is closed by [close]). *)
Definition node_close (nsp : string) (n : Node) : Node :=
  let remaining := delete nsp (adapters n) in
  if (size remaining =? 0)%nat then
    {| opts := opts n; node_isClosed := true; adapters := remaining;
       changeStream := None; resumeToken := resumeToken n |}
  else
    {| opts := opts n; node_isClosed := node_isClosed n; adapters := remaining;
       changeStream := changeStream n; resumeToken := resumeToken n |}.

(** The "change" listener. *)
Definition on_change (now : Z) (io : InsertOutcome) (localSockets : list JsValue)
    (event : ChangeEvent) (nw : NodeWorld) : NodeWorld :=
  match operationType event with
  | insert =>
      let n := node nw in
      let n1 := {| opts := opts n; node_isClosed := node_isClosed n;
                   adapters := adapters n; changeStream := changeStream n;
                   resumeToken := Some (event_token event) |} in
      match fullDocument event with
      | Some document =>
          match ev_nsp document ≫= λ nsp, (nsp,.) <$> adapters n !! nsp with
          | Some (nsp, adapter) =>
              let w := onEvent now io localSockets document
                         {| self := adapter; mongoCollection := node_collection nw;
                            trace := node_trace nw |} in
              {| node := {| opts := opts n1; node_isClosed := node_isClosed n1;
                            adapters := <[nsp := self w]> (adapters n1);
                            changeStream := changeStream n1;
                            resumeToken := resumeToken n1 |};
                 node_collection := mongoCollection w;
                 node_trace := trace w |}
          | None => {| node := n1; node_collection := node_collection nw;
                       node_trace := node_trace nw |}
          end
      | None => {| node := n1; node_collection := node_collection nw;
                   node_trace := node_trace nw |}
      end
  | other_operation => nw
  end.

(** The "error" listener; [resumable] is
    [!(err instanceof MongoServerError) || err.hasErrorLabel("ResumableChangeStreamError")]. *)
Definition on_error (resumable : bool) (n : Node) : Node :=
  if resumable then n
  else {| opts := opts n; node_isClosed := node_isClosed n; adapters := adapters n;
          changeStream := changeStream n; resumeToken := None |}.

(** The stream closes; one second later the "close" listener's timer calls
    [initChangeStream]. *)
Definition on_close (n : Node) : Node :=
  {| opts := opts n; node_isClosed := node_isClosed n; adapters := adapters n;
     changeStream := (λ cs, {| closed := true; match_ne_uid := match_ne_uid cs;
                               resumeAfter := resumeAfter cs |}) <$> changeStream n;
     resumeToken := resumeToken n |}.

(** What the node sees of a change of the collection: the server sends the
    event only if the pipeline of the open stream matches it. *)
Definition changeStream_deliver (now : Z) (io : InsertOutcome)
    (localSockets : list JsValue) (event : ChangeEvent) (nw : NodeWorld) : NodeWorld :=
  match changeStream (node nw) with
  | Some cs =>
      if negb (closed cs) && pipeline_matches cs event
      then on_change now io localSockets event nw
      else nw
  | None => nw
  end.

(** *** Runs *)

(** One call of [onEvent] with what the environment supplies to it. *)
Record Delivery := {
  delivered_at : Z;
  delivery_io : InsertOutcome;
  delivery_localSockets : list JsValue;
  delivered : AdapterEvent;
}.

Definition onEvents (deliveries : list Delivery) (w : World) : World :=
  foldl (λ w d, onEvent (delivered_at d) (delivery_io d) (delivery_localSockets d)
                  (delivered d) w) w deliveries.

(** The request a response document answers, with what it adds to the
    accumulated responses. *)
Definition response_to (d : EventData) : option (string * list JsValue) :=
  match d with
  | FetchSocketsResponseData requestId sockets => Some (requestId, sockets)
  | ServerSideEmitResponseData requestId packet => Some (requestId, [packet])
  | _ => None
  end.

Definition answers (requestId : string) (d : Delivery) : option (list JsValue) :=
  match response_to (data (delivered d)) with
  | Some (r, items) => if decide (r = requestId) then Some items else None
  | None => None
  end.

Definition responses_to (requestId : string) (deliveries : list Delivery)
  : list (list JsValue) :=
  omap (answers requestId) deliveries.

(** Every stored request holds the handle of its own timer. *)
Definition requests_wf (a : MongoAdapter) : Prop :=
  ∀ k r, requests a !! k = Some r → req_timeout r = k.

Definition add_responses (rs : list (list JsValue)) (request : Request) : Request :=
  foldl (λ r items, add_response items r) request rs.

(** The methods the server calls on a namespace adapter, and its timers. *)
Inductive ApiCall :=
| CallBroadcast (packet : Packet) (opts : BroadcastOptions)
| CallBroadcastWithAck (requestId : string) (packet : Packet) (opts : BroadcastOptions)
    (clientCountCallback ack : Callback)
| CallAddSockets (opts : BroadcastOptions) (rooms : list Room)
| CallDelSockets (opts : BroadcastOptions) (rooms : list Room)
| CallDisconnectSockets (opts : BroadcastOptions) (close : bool)
| CallFetchSockets (requestId : string) (localSockets : list JsValue)
    (opts : BroadcastOptions)
| CallServerSideEmit (requestId : string) (packet : list JsValue)
| CallPersistSession (session : Session)
| CallRestoreSession (io : RestoreIo) (privateId offset : string)
| TimerFires (requestId : string)
| HeartbeatTimerFires.

Definition api_call (now : Z) (io : InsertOutcome) (c : ApiCall) (w : World) : World :=
  match c with
  | CallBroadcast packet opts => (broadcast now io packet opts w).2
  | CallBroadcastWithAck requestId packet opts clientCountCallback ack =>
      (broadcastWithAck now requestId io packet opts clientCountCallback ack w).2
  | CallAddSockets opts rooms => addSockets now io opts rooms w
  | CallDelSockets opts rooms => delSockets now io opts rooms w
  | CallDisconnectSockets opts close => disconnectSockets now io opts close w
  | CallFetchSockets requestId localSockets opts =>
      (fetchSockets now requestId io localSockets opts w).2
  | CallServerSideEmit requestId packet => serverSideEmit now requestId io packet w
  | CallPersistSession session => persistSession now io session w
  | CallRestoreSession rio privateId offset => (restoreSession rio privateId offset w).2
  | TimerFires requestId => onTimeout now requestId w
  | HeartbeatTimerFires => onHeartbeatTimer now io w
  end.

(** What can happen on a node. *)
Inductive NodeStep :=
| StepFactory (now : Z) (io : InsertOutcome) (nsp : string) (recovery : bool)
| StepApi (now : Z) (io : InsertOutcome) (nsp : string) (call : ApiCall)
| StepDeliver (now : Z) (io : InsertOutcome) (localSockets : list JsValue)
    (event : ChangeEvent)
| StepClose (nsp : string)
| StepStreamError (resumable : bool)
| StepStreamClosed
| StepReconnect.

Definition with_node (f : Node -> Node) (nw : NodeWorld) : NodeWorld :=
  {| node := f (node nw); node_collection := node_collection nw;
     node_trace := node_trace nw |}.

Definition node_step (nw : NodeWorld) (s : NodeStep) : NodeWorld :=
  match s with
  | StepFactory now io nsp recovery => adapterFactory now io nsp recovery nw
  | StepApi now io nsp call =>
      match adapters (node nw) !! nsp with
      | Some adapter =>
          let w := api_call now io call
                     {| self := adapter; mongoCollection := node_collection nw;
                        trace := node_trace nw |} in
          {| node := {| opts := opts (node nw); node_isClosed := node_isClosed (node nw);
                        adapters := <[nsp := self w]> (adapters (node nw));
                        changeStream := changeStream (node nw);
                        resumeToken := resumeToken (node nw) |};
             node_collection := mongoCollection w;
             node_trace := trace w |}
      | None => nw
      end
  | StepDeliver now io localSockets event =>
      changeStream_deliver now io localSockets event nw
  | StepClose nsp => with_node (node_close nsp) nw
  | StepStreamError resumable => with_node (on_error resumable) nw
  | StepStreamClosed => with_node on_close nw
  | StepReconnect => with_node initChangeStream nw
  end.

Definition node_run (steps : list NodeStep) (nw : NodeWorld) : NodeWorld :=
  foldl node_step nw steps.

(** A node right after [createAdapter], on a collection other nodes may
    already have written to. *)
Definition node_start (o : MongoAdapterOptions) (randomId : string) (c : Collection)
  : NodeWorld :=
  {| node := createAdapter o randomId; node_collection := c; node_trace := [] |}.

(** Every adapter and every stream of a node carry the uid of the node. *)
Definition node_wf (n : Node) : Prop :=
  is_Some (opt_uid (opts n))
  ∧ (∀ nsp a, adapters n !! nsp = Some a → Some (uid a) = opt_uid (opts n))
  ∧ (∀ cs, changeStream n = Some cs → match_ne_uid cs = opt_uid (opts n)).

End Adapter.

(** ** The specification's words, and sample states *)

Definition stale_peer_adapter : MongoAdapter :=
  set_nodesMap {[ "peer" := 0 ]}
    (new_MongoAdapter "/" false
       {| opt_uid := Some "self"; opt_requestsTimeout := None;
          opt_heartbeatInterval := None; opt_heartbeatTimeout := Some 200;
          opt_addCreatedAtField := None |}).

Definition sample_options : MongoAdapterOptions :=
  {| opt_uid := Some "self"; opt_requestsTimeout := Some 200;
     opt_heartbeatInterval := None; opt_heartbeatTimeout := None;
     opt_addCreatedAtField := None |}.

Definition sample_world : World :=
  {| self := new_MongoAdapter "/" false sample_options;
     mongoCollection := [];
     trace := [] |}.

Definition everyone : BroadcastOptions :=
  {| rooms := []; except := None;
     flags := Some {| local := false; volatile := None; timeout := Some 500 |} |}.

(** The replay condition in the words of the specification: a BROADCAST
    record of the namespace, after the offset, that targets no room or a room
    of the session, and excludes no room or none of the session's rooms. *)
Definition shares_a_room (l1 l2 : list Room) : Prop := Exists (λ r, r ∈ l2) l1.

Definition replayed (nsp : string) (offset : ObjectId) (session_rooms : list Room)
    (d : AdapterEvent) : Prop :=
  match data d with
  | BroadcastData _ _ opts =>
      ev_nsp d = Some nsp
      ∧ (offset < _id d)%N
      ∧ (ser_rooms opts = [] ∨ shares_a_room (ser_rooms opts) session_rooms)
      ∧ (ser_except opts = [] ∨ ¬ shares_a_room (ser_except opts) session_rooms)
  | _ => False
  end.

#[global] Instance replayed_dec nsp offset session_rooms d :
  Decision (replayed nsp offset session_rooms d).
Proof. unfold replayed, shares_a_room. destruct (data d); apply _. Defined.

(** The four reasons [restoreSession] rejects with. *)
Definition invalid_offset : JsValue := JsString "invalid offset".

Definition session_not_found : JsValue := JsString "session or offset not found".

Definition fetch_error : JsValue := JsString "error while fetching session".

Definition scan_error : JsValue := JsString "error while fetching missed packets".

(** The uid under which [onEvent] records the sender of a document: none for
    a document without uid, with an empty uid, or sent by the emitter. *)
Definition tracked_uid (document : AdapterEvent) : option string :=
  match ev_uid document with
  | Some u => if bool_decide (u ≠ "" ∧ u ≠ EMITTER_UID) then Some u else None
  | None => None
  end.

Definition senders (deliveries : list Delivery) : list string :=
  omap (λ d, tracked_uid (delivered d)) deliveries.

(** The time of the last of the deliveries whose sender is recorded as [u]. *)
Definition last_heard (u : string) (deliveries : list Delivery) : option Z :=
  last (omap (λ d, if decide (tracked_uid (delivered d) = Some u)
                   then Some (delivered_at d) else None) deliveries).

(** The uids an adapter of the node [me] never holds in its [nodesMap]. *)
Definition never_tracked (me : string) (a : MongoAdapter) : Prop :=
  nodesMap a !! me = None ∧ nodesMap a !! EMITTER_UID = None ∧ nodesMap a !! "" = None.

Section Samples.

#[local] Existing Instance hex24.

(** Two peers, last heard of at time 0. *)
Definition world_with_two_peers : World :=
  with_self (set_nodesMap {[ "b" := 0; "c" := 0 ]}) sample_world.

Definition socket (id : string) : JsValue :=
  JsObject [("id", JsString id); ("handshake", JsObject []); ("rooms", JsArray []);
            ("data", JsObject [])].

Definition response_from (peer : string) (d : EventData) : Delivery :=
  {| delivered_at := 10; delivery_io := InsertFailed "unused";
     delivery_localSockets := [];
     delivered := {| _id := 7%N; ev_uid := Some peer; ev_nsp := Some "/";
                     createdAt := None; data := d |} |}.

(** The replay scenario: a session in room "r1", the record at offset 10 and
    four broadcasts after it. *)
Definition broadcast_record (id : ObjectId) (name : string) (to_rooms except_rooms : list Room)
  : AdapterEvent :=
  {| _id := id; ev_uid := Some "other"; ev_nsp := Some "/"; createdAt := None;
     data := BroadcastData
               {| packet_type := 2; packet_id := None;
                  packet_data := Some [JsString "myEvent"; JsString name] |}
               None
               {| ser_rooms := to_rooms; ser_except := except_rooms; ser_flags := None |} |}.

Definition persisted_session : Session :=
  {| sid := "s1"; pid := "p1"; session_rooms := ["r1"]; session_data := JsObject [];
     missedPackets := None |}.

Definition session_record : AdapterEvent :=
  {| _id := 12%N; ev_uid := Some "self"; ev_nsp := Some "/"; createdAt := None;
     data := SessionData persisted_session |}.

Definition replay_log : Collection :=
  [broadcast_record 10%N "init" [] [];
   broadcast_record 11%N "to everyone" [] [];
   session_record;
   broadcast_record 13%N "to r1" ["r1"] [];
   broadcast_record 14%N "to r2" ["r2"] [];
   broadcast_record 15%N "except r1" [] ["r1"]].

Definition replay_world : World :=
  {| self := self sample_world; mongoCollection := replay_log; trace := [] |}.

Definition replay_world_after : World :=
  {| self := self sample_world;
     mongoCollection :=
       [broadcast_record 10%N "init" [] [];
        broadcast_record 11%N "to everyone" [] [];
        broadcast_record 13%N "to r1" ["r1"] [];
        broadcast_record 14%N "to r2" ["r2"] [];
        broadcast_record 15%N "except r1" [] ["r1"]];
     trace := [] |}.

Definition restored_session : Session :=
  set_missedPackets
    [[JsString "myEvent"; JsString "to everyone"]; [JsString "myEvent"; JsString "to r1"]]
    persisted_session.

Definition io_ok : RestoreIo :=
  {| io_findOneAndDelete := true; io_findOne := true; io_find := true |}.

Definition offset_10 : string := "00000000000000000000000a".

Definition event_packet : Packet :=
  {| packet_type := 2; packet_id := None; packet_data := Some [JsString "test"] |}.

Definition only_local : BroadcastOptions :=
  {| rooms := []; except := None;
     flags := Some {| local := true; volatile := None; timeout := None |} |}.

(** Two nodes "A" and "B", each with an adapter for the namespace "/". *)
Definition options_of (name : string) : MongoAdapterOptions :=
  {| opt_uid := Some name; opt_requestsTimeout := None; opt_heartbeatInterval := None;
     opt_heartbeatTimeout := None; opt_addCreatedAtField := None |}.

Definition node_A_steps : list NodeStep := [StepFactory 0 (Inserted 1%N) "/" false].

Definition node_B_steps : list NodeStep := [StepFactory 1 (Inserted 2%N) "/" false].

Definition node_A : NodeWorld :=
  node_run node_A_steps (node_start (options_of "A") "f00d" []).

Definition node_B : NodeWorld :=
  node_run node_B_steps (node_start (options_of "B") "beef" []).

Definition adapter_A : MongoAdapter :=
  scheduleHeartbeat 0 (new_MongoAdapter "/" false (options_of "A")).

Definition broadcast_of_A : ChangeEvent :=
  {| operationType := insert;
     fullDocument :=
       Some (stamp 5 3%N adapter_A
               (BroadcastData event_packet None (serializeOptions everyone)));
     event_token := 3%N |}.

(** One peer, "b", last heard of at time 0, and the adapter of that peer,
    which has connection state recovery switched on. *)
Definition world_with_one_peer : World :=
  with_self (set_nodesMap {[ "b" := 0 ]}) sample_world.

Definition peer_world : World :=
  {| self := new_MongoAdapter "/" true (options_of "b");
     mongoCollection := [];
     trace := [] |}.

(** Three heartbeats: of "b" at 10, of "c" at 20 and of "b" at 30. *)
Definition heartbeat_from (peer : string) (time : Z) : Delivery :=
  {| delivered_at := time; delivery_io := InsertFailed "unused";
     delivery_localSockets := [];
     delivered := {| _id := 7%N; ev_uid := Some peer; ev_nsp := Some "/";
                     createdAt := None; data := HeartbeatData |} |}.

Definition heartbeats_of_b_c_b : list Delivery :=
  [heartbeat_from "b" 10; heartbeat_from "c" 20; heartbeat_from "b" 30].

(** The request [fetchSockets] stores at time 0 when two peers are expected,
    and its timer. *)
Definition pending_fetch : Request :=
  {| req_type := FETCH_SOCKETS; resolve := PromiseResolve "r1"; req_timeout := "r1";
     expected := 2; current := 0; responses := [socket "local"] |}.

Definition pending_fetch_timer : Timer :=
  {| deadline := 200; callback := FetchSocketsTimeout |}.

(** The replay log before the session is persisted. *)
Definition log_without_session : World :=
  {| self := self sample_world;
     mongoCollection := mongoCollection replay_world_after;
     trace := [] |}.

Definition offset_255 : string := "0000000000000000000000ff".

(** The node "B" with adapters for two namespaces, and its change stream. *)
Definition node_B_two_namespaces : NodeWorld :=
  node_run [StepFactory 1 (Inserted 2%N) "/" false;
            StepFactory 2 (Inserted 3%N) "/admin" false]
    (node_start (options_of "B") "beef" []).

Definition stream_of_B : ChangeStream :=
  {| closed := false; match_ne_uid := Some "B"; resumeAfter := None |}.

(** A packet with an attachment, as the driver returns it. *)
Definition binary_document : BsonValue :=
  BsonObject
    [("type", BsonPrimitive (PNumber 2));
     ("data",
      BsonArray
        [BsonPrimitive (PString "file");
         BsonObject [("_bsontype", BsonPrimitive (PString "Binary"));
                     ("sub_type", BsonPrimitive (PNumber 0));
                     ("buffer", BsonBuffer [1; 2; 3])]])].

End Samples.

(** ** Properties *)

Section Properties.

Context {bson : Bson}.

#[local] Set Default Proof Using "Type".

(** Forget the library functions in a proof that does not talk about them. *)
Ltac drop_bson := try clear bson.

(** Case analysis on every [match] and decision of the goal. *)
Ltac case_split_all :=
  repeat (cbn in *; first [done | case_match | case_bool_decide]).

(** *** Peer liveness *)

(** C1 (defect of the code): [serverCount()] should be 1 plus the number of
    live peers, and the changelog of release 0.3.2 lists "exclude offline
    nodes when calling serverCount()"; but [serverCount] counts every entry of
    [nodesMap] and prunes nothing.  With [heartbeatTimeout = 200] and one peer
    last seen 300 ms ago, [serverCount()] is 2, although
    [getExpectedResponseCount()] on the same map is 0. *)
Lemma serverCount_counts_stale_peer :
  serverCount stale_peer_adapter = Resolved 2%nat
  ∧ (getExpectedResponseCount 300 stale_peer_adapter).1 = 0%nat
  ∧ serverCount stale_peer_adapter
    ≠ Resolved (1 + (getExpectedResponseCount 300 stale_peer_adapter).1)%nat.
Proof. vm_compute. repeat split. discriminate. Qed.

(** *** Publishing *)

(** C7: once the adapter is closed, a publish of any document is rejected
    with "adapter is closed" and leaves the collection (and the whole state)
    as it was; the rejection is returned to the caller as the settlement of
    the promise.  On an adapter that is not closed the promise is never
    rejected with that reason. *)
Theorem publish_after_close_is_rejected (now : Z) (io : InsertOutcome)
    (document : EventData) (w : World) :
  publish now io document (close w)
    = (Rejected (JsString "adapter is closed"), close w)
  ∧ mongoCollection (publish now io document (close w)).2 = mongoCollection w
  ∧ (isClosed (self w) = true →
     publish now io document w = (Rejected (JsString "adapter is closed"), w))
  ∧ (isClosed (self w) = false →
     (publish now io document w).1 ≠ Rejected (JsString "adapter is closed")).
Proof.
  repeat split.
  - unfold publish. by intros ->.
  - unfold publish. intros ->. by destruct io.
Qed.

(** C10: when the publish of the BROADCAST document fails, whatever the
    reason, [broadcast] still returns normally and nothing is handed to the
    base adapter: no local delivery, and no document in the collection. *)
Theorem broadcast_failed_publish_skips_local (now : Z) (io : InsertOutcome)
    (packet : Packet) (opts : BroadcastOptions) (w : World) (reason : JsValue) :
  onlyLocal opts = false →
  (publish now io (BroadcastData packet None (serializeOptions opts)) w).1
    = Rejected reason →
  (broadcast now io packet opts w).1 = Resolved tt
  ∧ trace (broadcast now io packet opts w).2 = trace w
  ∧ mongoCollection (broadcast now io packet opts w).2 = mongoCollection w.
Proof.
  intros Hlocal Hfail. unfold broadcast. rewrite Hlocal.
  revert Hfail. unfold publish.
  destruct (isClosed (self w)); [done|]. by destruct io.
Qed.

(** *** Requests without peers *)

Lemma last_snoc_function (packet : list JsValue) (ack : Callback) :
  last (packet ++ [JsFunction ack]) = Some (JsFunction ack)
  ∧ removelast (packet ++ [JsFunction ack]) = packet.
Proof. split; [apply last_snoc | apply removelast_last]. Qed.

(** C6: when no peer is expected to answer, [fetchSockets] returns the local
    sockets and [serverSideEmit] with an acknowledgement calls it with
    [(null, [])]; neither inserts a document nor registers a request. *)
Theorem no_expected_peer_is_local_only (now : Z) (requestId : string)
    (io : InsertOutcome) (localSockets packet : list JsValue) (ack : Callback)
    (opts : BroadcastOptions) (w : World) :
  (getExpectedResponseCount now (self w)).1 = 0%nat →
  let f := fetchSockets now requestId io localSockets opts w in
  let e := serverSideEmit now requestId io (packet ++ [JsFunction ack]) w in
  f.1 = FetchReturned localSockets
  ∧ mongoCollection f.2 = mongoCollection w
  ∧ requests (self f.2) = requests (self w)
  ∧ trace f.2 = trace w ++ [SuperFetchSockets opts]
  ∧ mongoCollection e = mongoCollection w
  ∧ requests (self e) = requests (self w)
  ∧ trace e = trace w ++ [Call ack [JsNull; JsArray []]].
Proof.
  intros Hzero. cbn zeta.
  unfold serverSideEmit, serverSideEmitWithAck, fetchSockets.
  destruct (last_snoc_function packet ack) as [-> ->].
  cbn in *. rewrite Hzero. cbn. rewrite orb_true_r. done.
Qed.

(** *** The local flag *)

(** C8 (amended): with the local flag none of the six calls inserts a
    document, only the call to the base adapter is made.  Without the flag, on
    an open adapter whose insert succeeds, [broadcast], [broadcastWithAck],
    [addSockets], [delSockets] and [disconnectSockets] insert exactly one
    document of their event type; [fetchSockets] inserts exactly one
    FETCH_SOCKETS document when at least one peer is expected to answer and
    none otherwise. *)
Theorem local_flag_decides_replication (now : Z) (requestId : string)
    (io : InsertOutcome) (packet : Packet) (opts : BroadcastOptions)
    (rooms : list Room) (close : bool) (clientCountCallback ack : Callback)
    (localSockets : list JsValue) (w : World) :
  (onlyLocal opts = true →
     (broadcast now io packet opts w).2 = emit_effect (SuperBroadcast packet opts) w
     ∧ (broadcastWithAck now requestId io packet opts clientCountCallback ack w).2
       = emit_effect (SuperBroadcastWithAck packet opts clientCountCallback ack) w
     ∧ addSockets now io opts rooms w = emit_effect (SuperAddSockets opts rooms) w
     ∧ delSockets now io opts rooms w = emit_effect (SuperDelSockets opts rooms) w
     ∧ disconnectSockets now io opts close w
       = emit_effect (SuperDisconnectSockets opts close) w
     ∧ (fetchSockets now requestId io localSockets opts w).1 = FetchReturned localSockets
     ∧ mongoCollection (fetchSockets now requestId io localSockets opts w).2
       = mongoCollection w)
  ∧ (onlyLocal opts = false → isClosed (self w) = false →
     ∀ id, io = Inserted id →
     let inserted document := mongoCollection w ++ [stamp now id (self w) document] in
     mongoCollection (broadcast now io packet opts w).2
       = inserted (BroadcastData packet None (serializeOptions opts))
     ∧ mongoCollection
         (broadcastWithAck now requestId io packet opts clientCountCallback ack w).2
       = inserted (BroadcastData packet (Some requestId) (serializeOptions opts))
     ∧ mongoCollection (addSockets now io opts rooms w)
       = inserted (SocketsJoinData (serializeOptions opts) rooms)
     ∧ mongoCollection (delSockets now io opts rooms w)
       = inserted (SocketsLeaveData (serializeOptions opts) rooms)
     ∧ mongoCollection (disconnectSockets now io opts close w)
       = inserted (DisconnectSocketsData (serializeOptions opts) close)
     ∧ mongoCollection (fetchSockets now requestId io localSockets opts w).2
       = if ((getExpectedResponseCount now (self w)).1 =? 0)%nat
         then mongoCollection w
         else inserted (FetchSocketsData (serializeOptions opts) requestId)).
Proof.
  split.
  - intros Hlocal.
    unfold broadcast, broadcastWithAck, addSockets, delSockets, disconnectSockets,
      fetchSockets.
    cbn. rewrite Hlocal. done.
  - intros Hlocal Hopen id ->.
    unfold broadcast, broadcastWithAck, addSockets, delSockets, disconnectSockets,
      fetchSockets, publish.
    cbn. rewrite Hlocal, Hopen. cbn.
    repeat split.
    + by destruct (addOffsetIfNecessary _ _ _ _).
    + by destruct (flags opts).
    + by destruct (size _ =? 0)%nat.
Qed.

(** *** Requests that time out *)

Lemma add_responses_fields rs request :
  current (add_responses rs request) = (current request + length rs)%nat
  ∧ expected (add_responses rs request) = expected request
  ∧ responses (add_responses rs request) = responses request ++ concat rs
  ∧ resolve (add_responses rs request) = resolve request
  ∧ req_timeout (add_responses rs request) = req_timeout request.
Proof.
  revert request. induction rs as [|items rs IH]; intros request.
  - cbn. rewrite Nat.add_0_r, app_nil_r. done.
  - change (add_responses (items :: rs) request)
      with (add_responses rs (add_response items request)).
    destruct (IH (add_response items request)) as (-> & -> & -> & -> & ->). cbn.
    rewrite <- app_assoc. repeat split. lia.
Qed.

Lemma publish_keeps_requests now io document w :
  requests (self (publish now io document w).2) = requests (self w)
  ∧ timers (self (publish now io document w).2) = timers (self w).
Proof. unfold publish. destruct (isClosed (self w)); [done|]. by destruct io. Qed.

Lemma settle_other requestId rid request args w :
  requests_wf (self w) →
  requests (self w) !! rid = Some request →
  ∀ items, rid ≠ requestId →
  let w' := settle rid (add_response items request) args w in
  requests (self w') !! requestId = requests (self w) !! requestId
  ∧ timers (self w') !! requestId = timers (self w) !! requestId
  ∧ requests_wf (self w').
Proof.
  intros Hwf Hreq items Hne. unfold settle.
  destruct (_ =? _)%nat; cbn.
  - rewrite !lookup_delete_ne by (try rewrite (Hwf _ _ Hreq); done).
    repeat split. intros k r Hk. cbn in Hk.
    apply lookup_delete_Some in Hk as [_ Hk]. by apply Hwf.
  - rewrite lookup_insert_ne by done. repeat split. intros k r Hk. cbn in Hk.
    apply lookup_insert_Some in Hk as [[<- <-]|[_ Hk]]; [|by apply Hwf].
    cbn. by apply Hwf.
Qed.

Lemma settle_same requestId request args items w :
  requests_wf (self w) →
  requests (self w) !! requestId = Some request →
  (S (current request) < expected request)%nat →
  let w' := settle requestId (add_response items request) args w in
  requests (self w') !! requestId = Some (add_response items request)
  ∧ timers (self w') !! requestId = timers (self w) !! requestId
  ∧ requests_wf (self w')
  ∧ trace w' = trace w.
Proof.
  intros Hwf Hreq Hlt. unfold settle.
  destruct (_ =? _)%nat eqn:Heq; [apply Nat.eqb_eq in Heq; cbn in Heq; lia|].
  cbn. rewrite lookup_insert_eq. repeat split. intros k r Hk. cbn in Hk.
  apply lookup_insert_Some in Hk as [[<- <-]|[_ Hk]]; [|by apply Hwf].
  cbn. by apply Hwf.
Qed.

Lemma observe_keeps_requests now document a :
  requests (observe now document a) = requests a
  ∧ timers (observe now document a) = timers a.
Proof.
  unfold observe. destruct (ev_uid document); [|done]. by case_bool_decide.
Qed.

(** One delivery leaves a pending request as it is, or counts one more
    response for it. *)
Lemma onEvent_pending_request requestId d w request t :
  requests_wf (self w) →
  requests (self w) !! requestId = Some request →
  timers (self w) !! requestId = Some t →
  (S (current request) < expected request)%nat ∨ answers requestId d = None →
  let w' := onEvent (delivered_at d) (delivery_io d) (delivery_localSockets d)
              (delivered d) w in
  requests (self w') !! requestId
    = Some (match answers requestId d with
            | Some items => add_response items request
            | None => request
            end)
  ∧ timers (self w') !! requestId = Some t
  ∧ requests_wf (self w').
Proof.
  intros Hwf Hreq Htimer Hroom. cbn zeta. unfold onEvent, answers in *.
  set (w0 := with_self (observe (delivered_at d) (delivered d)) w).
  assert (Hreq0 : requests (self w0) = requests (self w))
    by apply observe_keeps_requests.
  assert (Htimer0 : timers (self w0) = timers (self w))
    by apply observe_keeps_requests.
  assert (Hwf0 : requests_wf (self w0)).
  { unfold requests_wf. rewrite Hreq0. exact Hwf. }
  rewrite <- Hreq0 in Hreq. rewrite <- Htimer0 in Htimer.
  clearbody w0. clear Hreq0 Htimer0 Hwf.
  assert (Hpub : ∀ now io document w1,
    requests (self w1) = requests (self w0) → timers (self w1) = timers (self w0) →
    requests (self (publish now io document w1).2) !! requestId = Some request
    ∧ timers (self (publish now io document w1).2) !! requestId = Some t
    ∧ requests_wf (self (publish now io document w1).2)).
  { intros now io document w1 Hr Ht.
    destruct (publish_keeps_requests now io document w1) as [Hr' Ht'].
    unfold requests_wf. rewrite Hr', Ht', Hr, Ht. done. }
  destruct (data (delivered d)) as
    [| |packet [rid|] opts|opts rs|opts rs|opts c|opts rid|rid sockets
     |[rid|] packet|rid packet|rid n|rid packet|session]; cbn [response_to] in *;
    try (by apply Hpub); try done.
  - destruct (addOffsetIfNecessary _ _ _ _); done.
  - destruct (requests (self w0) !! rid) as [request0|] eqn:Hrid.
    + destruct (decide (rid = requestId)) as [->|Hne].
      * rewrite Hreq in Hrid. injection Hrid as <-.
        destruct Hroom as [Hroom|?]; [|done].
        destruct (settle_same requestId request
                    [JsArray (responses (add_response sockets request))] sockets w0)
          as (? & Ht & ? & _); try done.
        rewrite Ht. done.
      * destruct (settle_other requestId rid request0
                    [JsArray (responses (add_response sockets request0))] w0
                    Hwf0 Hrid sockets Hne) as (Hr & Ht & ?).
        rewrite Hr, Ht. done.
    + destruct (decide (rid = requestId)) as [->|Hne]; [congruence|done].
  - destruct (requests (self w0) !! rid) as [request0|] eqn:Hrid.
    + destruct (decide (rid = requestId)) as [->|Hne].
      * rewrite Hreq in Hrid. injection Hrid as <-.
        destruct Hroom as [Hroom|?]; [|done].
        destruct (settle_same requestId request
                    [JsNull; JsArray (responses (add_response [packet] request))]
                    [packet] w0)
          as (? & Ht & ? & _); try done.
        rewrite Ht. done.
      * destruct (settle_other requestId rid request0
                    [JsNull; JsArray (responses (add_response [packet] request0))] w0
                    Hwf0 Hrid [packet] Hne) as (Hr & Ht & ?).
        rewrite Hr, Ht. done.
    + destruct (decide (rid = requestId)) as [->|Hne]; [congruence|done].
  - destruct (ackRequests (self w0) !! rid); done.
  - destruct (ackRequests (self w0) !! rid); done.
Qed.

Lemma onEvents_pending_request requestId deliveries : ∀ w request t,
  requests_wf (self w) →
  requests (self w) !! requestId = Some request →
  timers (self w) !! requestId = Some t →
  (current request + length (responses_to requestId deliveries) < expected request)%nat →
  requests (self (onEvents deliveries w)) !! requestId
    = Some (add_responses (responses_to requestId deliveries) request)
  ∧ timers (self (onEvents deliveries w)) !! requestId = Some t
  ∧ requests_wf (self (onEvents deliveries w)).
Proof.
  induction deliveries as [|d ds IH]; intros w request t Hwf Hreq Htimer Hlt.
  - done.
  - unfold responses_to in *. cbn [omap list_omap onEvents foldl] in *.
    fold (onEvents ds).
    destruct (onEvent_pending_request requestId d w request t Hwf Hreq Htimer)
      as (Hreq' & Htimer' & Hwf').
    { destruct (answers requestId d); [left; cbn in Hlt; lia | by right]. }
    destruct (answers requestId d) as [items|].
    + apply (IH _ _ _ Hwf' Hreq' Htimer'). cbn in *. lia.
    + by apply (IH _ _ _ Hwf' Hreq' Htimer').
Qed.

(** The deadline of a stored request comes due. *)
Lemma onTimeout_pending_request later requestId w request t :
  requests (self w) !! requestId = Some request →
  timers (self w) !! requestId = Some t →
  deadline t ≤ later →
  let w' := onTimeout later requestId w in
  mongoCollection w' = mongoCollection w
  ∧ match callback t with
    | FetchSocketsTimeout =>
        requests (self w') !! requestId = None
        ∧ trace w' = trace w ++
            [Call (PromiseReject requestId) [JsError (timeout_message request)]]
    | ServerSideEmitTimeout ack =>
        requests (self w') !! requestId = None
        ∧ trace w' = trace w ++
            [Call ack [JsError (timeout_message request); JsArray (responses request)]]
    | AckRequestCleanup => trace w' = trace w
    end.
Proof.
  intros Hreq Htimer Hdue. cbn zeta. unfold onTimeout. rewrite Htimer.
  rewrite bool_decide_true by done.
  destruct (callback t); cbn; rewrite ?Hreq; cbn; rewrite ?lookup_delete_eq; done.
Qed.

(** What [fetchSockets] and [serverSideEmitWithAck] leave behind when they
    wait for peers. *)
Lemma fetchSockets_registers now requestId io localSockets opts w :
  requests_wf (self w) →
  onlyLocal opts = false →
  (getExpectedResponseCount now (self w)).1 ≠ 0%nat →
  let r := fetchSockets now requestId io localSockets opts w in
  r.1 = FetchPending requestId
  ∧ requests (self r.2) !! requestId
    = Some {| req_type := FETCH_SOCKETS; resolve := PromiseResolve requestId;
              req_timeout := requestId; current := 0;
              expected := (getExpectedResponseCount now (self w)).1;
              responses := localSockets |}
  ∧ timers (self r.2) !! requestId
    = Some {| deadline := now + requestsTimeout (self w);
              callback := FetchSocketsTimeout |}
  ∧ requests_wf (self r.2).
Proof.
  intros Hwf Hlocal Hpeers. cbn zeta. unfold fetchSockets.
  cbn in *. rewrite Hlocal.
  destruct (Nat.eqb_spec (size (filter (λ node0 : string * Z,
              ¬ nodeSeemsDown (self w) now node0.2) (nodesMap (self w)))) 0)
    as [?|_]; [done|].
  cbn. split; [done|].
  match goal with |- context [publish ?n ?i ?d ?w1] =>
    destruct (publish_keeps_requests n i d w1) as [Hr Ht] end.
  unfold requests_wf. rewrite Hr, Ht. cbn. rewrite !lookup_insert_eq.
  repeat split. intros k r Hk.
  apply lookup_insert_Some in Hk as [[<- <-]|[_ Hk]]; [done|by apply Hwf].
Qed.

Lemma serverSideEmitWithAck_registers now requestId io packet ack w :
  requests_wf (self w) →
  (getExpectedResponseCount now (self w)).1 ≠ 0%nat →
  let w' := serverSideEmitWithAck now requestId io packet ack w in
  requests (self w') !! requestId
    = Some {| req_type := FETCH_SOCKETS; resolve := ack;
              req_timeout := requestId; current := 0;
              expected := (getExpectedResponseCount now (self w)).1;
              responses := [] |}
  ∧ timers (self w') !! requestId
    = Some {| deadline := now + requestsTimeout (self w);
              callback := ServerSideEmitTimeout ack |}
  ∧ requests_wf (self w').
Proof.
  intros Hwf Hpeers. cbn zeta. unfold serverSideEmitWithAck.
  cbn in *.
  destruct (size (filter (λ node0 : string * Z,
              ¬ nodeSeemsDown (self w) now node0.2) (nodesMap (self w))))
    as [|n] eqn:Hsize; [done|].
  cbn.
  match goal with |- context [publish ?n ?i ?d ?w1] =>
    destruct (publish_keeps_requests n i d w1) as [Hr Ht] end.
  unfold requests_wf. rewrite Hr, Ht. cbn. rewrite !lookup_insert_eq.
  repeat split. intros k r Hk.
  apply lookup_insert_Some in Hk as [[<- <-]|[_ Hk]]; [done|by apply Hwf].
Qed.

(** [requests_wf] is an invariant of the adapter: it holds of a new adapter
    and every event, call and timer keeps it. *)
Lemma requests_wf_same a a' :
  requests a' = requests a → requests_wf a → requests_wf a'.
Proof. unfold requests_wf. by intros ->. Qed.

Lemma requests_wf_insert a a' k r :
  requests a' = <[k := r]> (requests a) → req_timeout r = k →
  requests_wf a → requests_wf a'.
Proof.
  unfold requests_wf. intros -> Hr Hwf k' r' Hk.
  apply lookup_insert_Some in Hk as [[<- <-]|[_ Hk]]; [done|by apply Hwf].
Qed.

Lemma requests_wf_delete a a' k :
  requests a' = delete k (requests a) → requests_wf a → requests_wf a'.
Proof.
  unfold requests_wf. intros -> Hwf k' r' Hk.
  apply lookup_delete_Some in Hk as [_ Hk]. by apply Hwf.
Qed.

Lemma new_MongoAdapter_requests_wf nsp recovery o :
  requests_wf (new_MongoAdapter nsp recovery o).
Proof. intros k r Hk. cbn in Hk. by rewrite lookup_empty in Hk. Qed.

Lemma publish_requests_wf now io document w :
  requests_wf (self w) → requests_wf (self (publish now io document w).2).
Proof. apply requests_wf_same, publish_keeps_requests. Qed.

Lemma onEvent_requests_wf now io localSockets document w :
  requests_wf (self w) → requests_wf (self (onEvent now io localSockets document w)).
Proof.
  intros Hwf. unfold onEvent.
  set (w0 := with_self (observe now document) w).
  assert (Hwf0 : requests_wf (self w0)).
  { revert Hwf. apply requests_wf_same, observe_keeps_requests. }
  clearbody w0. clear Hwf.
  assert (Hsettle : ∀ rid request items args,
    requests (self w0) !! rid = Some request →
    requests_wf (self (settle rid (add_response items request) args w0))).
  { intros rid request items args Hrid. unfold settle.
    destruct (_ =? _)%nat.
    - by apply (requests_wf_delete (self w0) _ rid).
    - apply (requests_wf_insert (self w0) _ rid (add_response items request));
        [done| |done].
      cbn. by apply Hwf0. }
  destruct (data document) as
    [| |packet [rid|] o|o rs|o rs|o c|o rid|rid sockets
     |[rid|] packet|rid packet|rid n|rid packet|session];
    try (by apply publish_requests_wf); try done.
  - by destruct (addOffsetIfNecessary _ _ _ _).
  - destruct (requests (self w0) !! rid) eqn:Hrid; [by apply Hsettle|done].
  - destruct (requests (self w0) !! rid) eqn:Hrid; [by apply Hsettle|done].
  - by destruct (ackRequests (self w0) !! rid).
  - by destruct (ackRequests (self w0) !! rid).
Qed.

Lemma api_call_requests_wf now io call w :
  requests_wf (self w) → requests_wf (self (api_call now io call w)).
Proof.
  intros Hwf.
  destruct call as [packet o|rid packet o ccb ackcb|o rs|o rs|o c|rid ls o|rid packet
                   |session|rio p off|rid|]; cbn [api_call].
  - unfold broadcast. destruct (onlyLocal o); [done|].
    pose proof (publish_requests_wf now io
      (BroadcastData packet None (serializeOptions o)) w Hwf).
    destruct (publish _ _ _ _) as [[?|?] ?]; [|done].
    by destruct (addOffsetIfNecessary _ _ _ _).
  - unfold broadcastWithAck. destruct (onlyLocal o); [done|].
    destruct (flags o); cbn; by apply publish_requests_wf.
  - unfold addSockets. cbv zeta. destruct (onlyLocal o); [done|].
    by apply publish_requests_wf.
  - unfold delSockets. cbv zeta. destruct (onlyLocal o); [done|].
    by apply publish_requests_wf.
  - unfold disconnectSockets. cbv zeta. destruct (onlyLocal o); [done|].
    by apply publish_requests_wf.
  - unfold fetchSockets, getExpectedResponseCount. cbv beta iota zeta.
    destruct (_ || _); [done|]. cbn [snd].
    apply publish_requests_wf. by eapply requests_wf_insert.
  - unfold serverSideEmit, serverSideEmitWithAck.
    destruct (last packet) as [[]|]; try (by apply publish_requests_wf).
    unfold getExpectedResponseCount. cbv beta iota zeta.
    destruct (_ <=? _)%nat; [done|].
    apply publish_requests_wf. by eapply requests_wf_insert.
  - by apply publish_requests_wf.
  - unfold restoreSession.
    destruct (findOneAndDelete _ _). case_split_all.
  - unfold onTimeout.
    destruct (timers (self w) !! rid) as [t|]; [|done].
    case_bool_decide; [|done].
    destruct (callback t); cbn [self with_self emit_effect];
      try destruct (requests _ !! rid); try done;
      by eapply requests_wf_delete.
  - unfold onHeartbeatTimer.
    destruct (heartbeatTimer (self w)); [|done].
    case_bool_decide; [|done]. cbn.
    by apply (publish_requests_wf now io HeartbeatData w).
Qed.

(** C2 (amended): a request registered with an expected count [E >= 1] that
    has received only [R < E] responses when its deadline comes due ends with
    an error whose message is "timeout reached: only R responses received out
    of E".  For [serverSideEmit] with an acknowledgement the responses
    accumulated so far are passed to the callback after the error; for
    [fetchSockets] the promise is rejected with the error alone.  In both
    cases the request is forgotten. *)
Theorem request_timeout_reports_received_count (now later : Z) (requestId : string)
    (io : InsertOutcome) (localSockets packet : list JsValue) (ack : Callback)
    (opts : BroadcastOptions) (deliveries : list Delivery) (w : World) :
  let E := (getExpectedResponseCount now (self w)).1 in
  let R := length (responses_to requestId deliveries) in
  let message :=
    "timeout reached: only " +:+ pretty R +:+ " responses received out of " +:+ pretty E in
  requests_wf (self w) →
  onlyLocal opts = false →
  (1 ≤ E)%nat →
  (R < E)%nat →
  now + requestsTimeout (self w) ≤ later →
  let fetching :=
    onEvents deliveries (fetchSockets now requestId io localSockets opts w).2 in
  let emitting :=
    onEvents deliveries (serverSideEmitWithAck now requestId io packet ack w) in
  trace (onTimeout later requestId fetching)
    = trace fetching ++ [Call (PromiseReject requestId) [JsError message]]
  ∧ requests (self (onTimeout later requestId fetching)) !! requestId = None
  ∧ trace (onTimeout later requestId emitting)
    = trace emitting ++
        [Call ack [JsError message; JsArray (concat (responses_to requestId deliveries))]]
  ∧ requests (self (onTimeout later requestId emitting)) !! requestId = None
  ∧ (Forall (λ items, length items = 1%nat) (responses_to requestId deliveries) →
     length (concat (responses_to requestId deliveries)) = R).
Proof.
  intros E R message Hwf Hlocal HE HR Hdue fetching emitting.
  assert (Hpeers : E ≠ 0%nat) by lia.
  destruct (fetchSockets_registers now requestId io localSockets opts w Hwf Hlocal Hpeers)
    as (_ & Hreq & Htimer & Hwf1).
  destruct (onEvents_pending_request requestId deliveries _ _ _ Hwf1 Hreq Htimer)
    as (Hreq' & Htimer' & _); [exact HR|].
  destruct (onTimeout_pending_request later requestId _ _ _ Hreq' Htimer' Hdue)
    as (_ & Hgone & Htrace).
  destruct (serverSideEmitWithAck_registers now requestId io packet ack w Hwf Hpeers)
    as (Hreq2 & Htimer2 & Hwf2).
  destruct (onEvents_pending_request requestId deliveries _ _ _ Hwf2 Hreq2 Htimer2)
    as (Hreq2' & Htimer2' & _); [exact HR|].
  destruct (onTimeout_pending_request later requestId _ _ _ Hreq2' Htimer2' Hdue)
    as (_ & Hgone2 & Htrace2).
  cbn [callback] in *.
  unfold timeout_message in *.
  match type of Htrace with context [add_responses ?rs ?r] =>
    destruct (add_responses_fields rs r) as (Hc & He & _) end.
  match type of Htrace2 with context [add_responses ?rs ?r] =>
    destruct (add_responses_fields rs r) as (Hc2 & He2 & Hrs2 & _) end.
  rewrite Hc, He in Htrace. rewrite Hc2, He2, Hrs2 in Htrace2.
  split; [exact Htrace|]. split; [exact Hgone|].
  split; [exact Htrace2|]. split; [exact Hgone2|].
  subst R. generalize (responses_to requestId deliveries).
  induction 1 as [|items rs Hone _ IH]; [done|].
  cbn. rewrite length_app, Hone, IH. done.
Qed.

(** *** Session recovery *)

Lemma field_in_spec (l values : list Room) :
  field_in (Some l) values = true ↔ shares_a_room l values.
Proof.
  unfold field_in, shares_a_room.
  rewrite existsb_exists, Exists_exists. split.
  - intros (r & Hin & Hr). exists r. split; [by apply list_elem_of_In|].
    by apply bool_decide_eq_true in Hr.
  - intros (r & Hin & Hr). exists r. split; [by apply list_elem_of_In|].
    by apply bool_decide_eq_true.
Qed.

Lemma field_size0_spec (l : list Room) : field_size0 (Some l) = true ↔ l = [].
Proof. destruct l; cbn; split; congruence. Qed.

(** The query sent to MongoDB selects the records the specification names. *)
Lemma missed_query_spec nsp offset session_rooms d :
  missed_query nsp offset session_rooms d = true ↔ replayed nsp offset session_rooms d.
Proof.
  drop_bson.
  unfold missed_query, replayed, ev_type, field_nin.
  destruct (data d) as
    [| |packet rid opts|opts rs|opts rs|opts c|opts rid|rid sockets
     |rid packet|rid packet|rid n|rid packet|session]; cbn -[field_size0 field_in];
    try (split; [intros H; discriminate H | tauto]).
  rewrite !andb_true_iff, !orb_true_iff, negb_true_iff, N.ltb_lt,
    !bool_decide_eq_true, !field_size0_spec, <- not_true_iff_false, !field_in_spec.
  intuition congruence.
Qed.

Lemma findOneAndDelete_fst (query : AdapterEvent → bool) c : (findOneAndDelete query c).1 = findOne query c.
Proof.
  unfold findOne, find. induction c as [|d c IH]; [done|].
  cbn [findOneAndDelete]. rewrite filter_cons. destruct (query d) eqn:Hq; cbn.
  - done.
  - destruct (findOneAndDelete query c). exact IH.
Qed.

Lemma findOne_Some (query : AdapterEvent → bool) c d : findOne query c = Some d → query d = true ∧ d ∈ c.
Proof.
  unfold findOne, find. intros H. apply head_Some_elem_of in H.
  apply list_elem_of_filter in H as [Hq ?]. split; [|done]. by apply Is_true_true.
Qed.

(** Deleting the first match of a query leaves every selection that avoids
    the query as it was. *)
Lemma findOneAndDelete_filter_disjoint (query : AdapterEvent → bool) (P : AdapterEvent → Prop)
    `{!∀ d, Decision (P d)} c :
  (∀ d, query d = true → ¬ P d) →
  filter P (findOneAndDelete query c).2 = filter P c.
Proof.
  intros Hdisjoint. induction c as [|d c IH]; [done|]. cbn [findOneAndDelete].
  destruct (query d) eqn:Hq.
  - rewrite filter_cons_False by (by apply Hdisjoint). done.
  - destruct (findOneAndDelete query c) as [r c'] eqn:Hrec.
    change ((r, d :: c').2) with (d :: c'). change ((r, c').2) with c' in IH.
    rewrite !filter_cons, IH. done.
Qed.

(** It removes exactly one match when there is one, and nothing otherwise. *)
Lemma findOneAndDelete_matches (query : AdapterEvent → bool) c :
  length (filter (λ d, query d) (findOneAndDelete query c).2)
    = match (findOneAndDelete query c).1 with
      | Some _ => Nat.pred (length (filter (λ d, query d) c))
      | None => length (filter (λ d, query d) c)
      end.
Proof.
  induction c as [|d c IH]; [done|]. cbn [findOneAndDelete].
  destruct (query d) eqn:Hq.
  - rewrite filter_cons_True by (by rewrite Hq). done.
  - destruct (findOneAndDelete query c) as [r c'] eqn:Hrec.
    change ((r, d :: c').2) with (d :: c'). change ((r, d :: c').1) with r.
    change ((r, c').2) with c' in IH. change ((r, c').1) with r in IH.
    rewrite !filter_cons_False by (rewrite Hq; cbn; tauto). exact IH.
Qed.

Lemma session_query_data privateId d :
  session_query privateId d = true → ∃ s, data d = SessionData s ∧ pid s = privateId.
Proof.
  unfold session_query, ev_type. intros H.
  apply andb_true_iff in H as [H1 H2]. apply bool_decide_eq_true in H1, H2.
  destruct (data d); try discriminate H1. cbn in H2. injection H2 as <-. eauto.
Qed.

(** C3: a successful [restoreSession] returns the consumed session with, as
    [missedPackets], the packet data of exactly the records of the store that
    are BROADCAST records of the adapter's namespace, lie strictly after the
    offset, target no room or one of the session's rooms, and exclude no room
    or none of the session's rooms -- in the order of the log.  (A record
    whose packet has no data has nothing to contribute.) *)
Theorem restoreSession_missedPackets (io : RestoreIo) (privateId offset : string)
    (w w' : World) (restored : Session) :
  restoreSession io privateId offset w = (Resolved restored, w') →
  ∃ value session,
    findOne (session_query privateId) (mongoCollection w) = Some value
    ∧ data value = SessionData session
    ∧ pid session = privateId
    ∧ restored =
        set_missedPackets
          (omap (λ d, data_packet_data (data d))
             (filter (replayed (nsp_name (self w)) (ObjectId_fromString offset)
                        (session_rooms session))
                (mongoCollection w)))
          session
    ∧ (∀ d packetData,
         d ∈ mongoCollection w →
         data_packet_data (data d) = Some packetData →
         replayed (nsp_name (self w)) (ObjectId_fromString offset)
           (session_rooms session) d →
         ∃ missed, missedPackets restored = Some missed ∧ packetData ∈ missed)
    ∧ (∀ missed packetData,
         missedPackets restored = Some missed →
         packetData ∈ missed →
         ∃ d, d ∈ mongoCollection w
              ∧ data_packet_data (data d) = Some packetData
              ∧ replayed (nsp_name (self w)) (ObjectId_fromString offset)
                  (session_rooms session) d).
Proof.
  unfold restoreSession.
  destruct (ObjectId_isValid offset); cbn [negb]; [|intros H; discriminate H].
  destruct (io_findOneAndDelete io) eqn:Hio1; cbn [andb negb];
    [|intros H; discriminate H].
  destruct (findOneAndDelete (session_query privateId) (mongoCollection w))
    as [found c1] eqn:Hdel.
  destruct (io_findOne io); cbn [negb]; [|intros H; discriminate H].
  pose proof (findOneAndDelete_fst (session_query privateId) (mongoCollection w))
    as Hfound.
  rewrite Hdel in Hfound. cbn in Hfound.
  destruct found as [value|]; [|intros H; discriminate H].
  destruct (findOne (offset_query _) _); [|intros H; discriminate H].
  symmetry in Hfound.
  destruct (findOne_Some _ _ _ Hfound) as [Hq _].
  destruct (session_query_data _ _ Hq) as (session & Hdata & Hpid).
  rewrite Hdata. cbn [data_session].
  destruct (io_find io); [|intros H; discriminate H].
  intros [= <- <-]. exists value, session.
  assert (Hscan :
    find (missed_query (nsp_name (self w)) (ObjectId_fromString offset)
            (session_rooms session)) c1
    = filter (replayed (nsp_name (self w)) (ObjectId_fromString offset)
                (session_rooms session)) (mongoCollection w)).
  { unfold find.
    rewrite (list_filter_iff _
      (replayed (nsp_name (self w)) (ObjectId_fromString offset)
         (session_rooms session))).
    - replace c1 with (findOneAndDelete (session_query privateId) (mongoCollection w)).2
        by (by rewrite Hdel).
      apply findOneAndDelete_filter_disjoint.
      intros d Hd Hreplayed. apply session_query_data in Hd as (s & Hs & _).
      unfold replayed in Hreplayed. by rewrite Hs in Hreplayed.
    - intros d. rewrite Is_true_true. apply missed_query_spec. }
  rewrite Hscan. repeat split; try done.
  - intros d packetData Hd Hpacket Hreplayed. eexists. split; [reflexivity|].
    apply list_elem_of_omap. exists d. split; [|done].
    by apply list_elem_of_filter.
  - intros missed packetData [= <-] Hin.
    apply list_elem_of_omap in Hin as (d & Hd & Hpacket).
    apply list_elem_of_filter in Hd as [? ?]. eauto.
Qed.

(** C4: [restoreSession] fails in three distinguishable ways.  It rejects
    with "invalid offset" exactly when [ObjectId.isValid(offset)] is false,
    and then the store has not been touched.  Otherwise, when both lookups
    complete, it rejects with "session or offset not found" exactly when the
    session record of the private id or the BROADCAST record at the offset is
    missing.  It rejects with one of the two I/O errors ("error while
    fetching session", "error while fetching missed packets") exactly when a
    driver call of the fetch or of the scan fails.  In every other case it
    resolves. *)
Theorem restoreSession_failure_kinds (io : RestoreIo) (privateId offset : string)
    (w : World) :
  let r := restoreSession io privateId offset w in
  let valid := ObjectId_isValid offset = true in
  let fetched := io_findOneAndDelete io = true ∧ io_findOne io = true in
  let found :=
    is_Some (findOne (session_query privateId) (mongoCollection w))
    ∧ is_Some (findOne (offset_query (ObjectId_fromString offset)) (mongoCollection w)) in
  (r.1 = Rejected invalid_offset ↔ ¬ valid)
  ∧ (¬ valid → r.2 = w)
  ∧ (r.1 = Rejected session_not_found ↔ valid ∧ fetched ∧ ¬ found)
  ∧ (r.1 = Rejected fetch_error ∨ r.1 = Rejected scan_error
     ↔ valid ∧ (¬ fetched ∨ (found ∧ io_find io = false)))
  ∧ ((∃ session, r.1 = Resolved session)
     ↔ valid ∧ fetched ∧ found ∧ io_find io = true)
  ∧ (∀ reason, r.1 = Rejected reason →
       reason = invalid_offset ∨ reason = session_not_found
       ∨ reason = fetch_error ∨ reason = scan_error).
Proof.
  drop_bson.
  cbn zeta. unfold restoreSession.
  pose proof (findOneAndDelete_fst (session_query privateId) (mongoCollection w))
    as Hfound.
  destruct (findOneAndDelete (session_query privateId) (mongoCollection w))
    as [found c1] eqn:Hdel.
  cbn in Hfound. rewrite <- Hfound. clear Hfound.
  assert (Hsession : ∀ value, found = Some value → is_Some (data_session (data value))).
  { intros value ->.
    pose proof (findOneAndDelete_fst (session_query privateId) (mongoCollection w)) as H.
    rewrite Hdel in H. symmetry in H. apply findOne_Some in H as [H _].
    apply session_query_data in H as (s & -> & _). by eexists. }
  unfold invalid_offset, session_not_found, fetch_error, scan_error.
  destruct (ObjectId_isValid offset), (io_findOneAndDelete io), (io_findOne io),
    found as [value|],
    (findOne (offset_query (ObjectId_fromString offset)) (mongoCollection w)) as [o|],
    (io_find io); cbn;
    try (destruct (Hsession value eq_refl) as [s ->]; cbn);
    unfold is_Some;
    (repeat split; try (intros; congruence); try (by naive_solver)).
Qed.

Lemma restoreSession_success io privateId offset w w' restored :
  restoreSession io privateId offset w = (Resolved restored, w') →
  ObjectId_isValid offset = true
  ∧ w' = with_collection
           (λ _, (findOneAndDelete (session_query privateId) (mongoCollection w)).2) w
  ∧ is_Some (findOneAndDelete (session_query privateId) (mongoCollection w)).1.
Proof.
  unfold restoreSession.
  destruct (ObjectId_isValid offset); cbn [negb]; [|intros H; discriminate H].
  destruct (io_findOneAndDelete io); cbn [andb negb]; [|intros H; discriminate H].
  destruct (findOneAndDelete (session_query privateId) (mongoCollection w))
    as [found c1].
  destruct (io_findOne io); cbn [negb]; [|intros H; discriminate H].
  destruct found as [value|]; [|intros H; discriminate H].
  destruct (findOne (offset_query _) _); [|intros H; discriminate H].
  destruct (data_session (data value)); [|intros H; discriminate H].
  destruct (io_find io); [|intros H; discriminate H].
  intros [= _ <-]. by eauto.
Qed.

(** C5: a successful [restoreSession] deletes the session record it returns:
    one record of the private id less in the store.  When the session had
    been persisted once, a second [restoreSession] with the same private id
    and offset, whose lookups complete, is rejected with "session or offset
    not found". *)
Theorem restoreSession_consumes_the_session (io io' : RestoreIo)
    (privateId offset : string) (w w' : World) (restored : Session) :
  restoreSession io privateId offset w = (Resolved restored, w') →
  length (filter (λ d, session_query privateId d) (mongoCollection w')) =
    Nat.pred (length (filter (λ d, session_query privateId d) (mongoCollection w)))
  ∧ (length (filter (λ d, session_query privateId d) (mongoCollection w)) = 1%nat →
     io_findOneAndDelete io' = true → io_findOne io' = true →
     findOne (session_query privateId) (mongoCollection w') = None
     ∧ (restoreSession io' privateId offset w').1 = Rejected session_not_found).
Proof.
  intros Hfirst.
  destruct (restoreSession_success _ _ _ _ _ _ Hfirst) as (Hvalid & -> & Hfound).
  cbn [mongoCollection with_collection].
  pose proof (findOneAndDelete_matches (session_query privateId) (mongoCollection w))
    as Hcount.
  destruct Hfound as [value Hvalue]. rewrite Hvalue in Hcount.
  split; [exact Hcount|].
  intros Honce Hio1 Hio2. rewrite Honce in Hcount. cbn in Hcount.
  assert (Hnone : findOne (session_query privateId)
                    (findOneAndDelete (session_query privateId) (mongoCollection w)).2
                  = None).
  { unfold findOne, find. apply length_zero_iff_nil in Hcount. by rewrite Hcount. }
  split; [exact Hnone|].
  unfold restoreSession. rewrite Hvalid, Hio1, Hio2. cbn [negb andb].
  cbn [mongoCollection with_collection].
  pose proof (findOneAndDelete_fst (session_query privateId)
    (findOneAndDelete (session_query privateId) (mongoCollection w)).2) as Hsecond.
  rewrite Hnone in Hsecond.
  destruct (findOneAndDelete (session_query privateId)
    (findOneAndDelete (session_query privateId) (mongoCollection w)).2) as [found c2].
  cbn in Hsecond. subst found. done.
Qed.

(** *** The change stream of a node *)

Lemma publish_uid now io document w :
  uid (self (publish now io document w).2) = uid (self w).
Proof. unfold publish. case_split_all. Qed.

Lemma onEvent_uid now io localSockets document w :
  uid (self (onEvent now io localSockets document w)) = uid (self w).
Proof.
  unfold onEvent.
  assert (Hobs : uid (observe now document (self w)) = uid (self w)).
  { unfold observe. case_split_all. }
  set (w0 := with_self (observe now document) w).
  change (uid (observe now document (self w))) with (uid (self w0)) in Hobs.
  rewrite <- Hobs. clearbody w0.
  destruct (data document); cbn; rewrite ?publish_uid; try done.
  all: unfold settle; case_split_all.
Qed.

Lemma api_call_uid now io call w :
  uid (self (api_call now io call w)) = uid (self w).
Proof.
  destruct call as [packet o|rid packet o ccb ackcb|o rs|o rs|o c|rid ls o|rid packet
                   |session|rio p off|rid|]; cbn [api_call].
  - unfold broadcast.
    pose proof (publish_uid now io
      (BroadcastData packet None (serializeOptions o)) w).
    destruct (publish _ _ _ _) as [[?|?] ?]; case_split_all.
  - unfold broadcastWithAck. destruct (onlyLocal o); [done|].
    destruct (flags o); cbn; apply publish_uid.
  - unfold addSockets. cbv zeta. destruct (onlyLocal o); [done|]. by rewrite publish_uid.
  - unfold delSockets. cbv zeta. destruct (onlyLocal o); [done|]. by rewrite publish_uid.
  - unfold disconnectSockets. cbv zeta. destruct (onlyLocal o); [done|]. by rewrite publish_uid.
  - unfold fetchSockets, getExpectedResponseCount. cbv beta iota zeta.
    destruct (_ || _); [done|]. cbn [snd]. by rewrite publish_uid.
  - unfold serverSideEmit, serverSideEmitWithAck.
    destruct (last packet) as [[]|]; rewrite ?publish_uid; try done.
    unfold getExpectedResponseCount. cbv beta iota zeta.
    destruct (_ <=? _)%nat; [done|]. by rewrite publish_uid.
  - unfold persistSession. apply publish_uid.
  - unfold restoreSession.
    destruct (findOneAndDelete _ _). case_split_all.
  - unfold onTimeout. case_split_all.
  - unfold onHeartbeatTimer.
    destruct (heartbeatTimer (self w)); [|done].
    case_bool_decide; [|done]. cbn. apply publish_uid.
Qed.

Lemma initChangeStream_wf n : node_wf n → node_wf (initChangeStream n).
Proof.
  intros (Huid & Hadapters & Hstream). unfold initChangeStream.
  destruct (_ || _); [done|]. repeat split; try done.
  cbn. by intros cs [= <-].
Qed.

Lemma insert_adapter_wf n nsp a :
  node_wf n → Some (uid a) = opt_uid (opts n) →
  node_wf {| opts := opts n; node_isClosed := node_isClosed n;
             adapters := <[nsp := a]> (adapters n);
             changeStream := changeStream n; resumeToken := resumeToken n |}.
Proof.
  intros (Huid & Hadapters & Hstream) Ha. repeat split; try done.
  cbn. intros nsp' a' Hlookup.
  apply lookup_insert_Some in Hlookup as [[_ <-]|[_ Hlookup]]; [done|].
  by apply (Hadapters nsp').
Qed.

Lemma node_step_wf nw s : node_wf (node nw) → node_wf (node (node_step nw s)).
Proof.
  intros Hwf. pose proof Hwf as (Huid & Hadapters & Hstream).
  destruct s as [now io nsp recovery|now io nsp call|now io ls event|nsp|resumable| |];
    cbn [node_step].
  - unfold adapterFactory. cbn [node].
    set (n1 := match changeStream (node nw) with Some _ => _ | None => _ end).
    assert (Hn1 : node_wf n1 ∧ opts n1 = opts (node nw)).
    { subst n1. destruct (changeStream (node nw)) eqn:Hcs; [done|].
      split.
      - apply initChangeStream_wf. repeat split; try done.
      - unfold initChangeStream. by destruct (_ || _). }
    destruct Hn1 as [Hwf1 Hopts].
    apply (insert_adapter_wf n1); [done|].
    rewrite publish_uid. cbn. rewrite Hopts. by destruct Huid as [u ->].
  - destruct (adapters (node nw) !! nsp) as [adapter|] eqn:Hlookup; [|done].
    cbn [node]. apply (insert_adapter_wf (node nw)); [done|].
    rewrite api_call_uid. by apply (Hadapters nsp).
  - unfold changeStream_deliver. destruct (changeStream (node nw)); [|done].
    destruct (_ && _); [|done]. unfold on_change.
    destruct (operationType event); [|done].
    destruct (fullDocument event) as [document|]; [|done].
    destruct (ev_nsp document) as [nsp|]; [|done]. cbn [mbind option_bind].
    destruct (adapters (node nw) !! nsp) as [adapter|] eqn:Hlookup; [|done].
    cbn [fmap option_fmap option_map node opts node_isClosed changeStream resumeToken
         adapters].
    apply (insert_adapter_wf
             {| opts := opts (node nw); node_isClosed := node_isClosed (node nw);
                adapters := adapters (node nw); changeStream := changeStream (node nw);
                resumeToken := Some (event_token event) |}); [done|].
    rewrite onEvent_uid. by apply (Hadapters nsp).
  - cbn. unfold node_close. destruct (_ =? _)%nat; repeat split; try done; cbn.
    + intros nsp' a Hlookup. apply lookup_delete_Some in Hlookup as [_ Hlookup].
      by apply (Hadapters nsp').
    + intros nsp' a Hlookup. apply lookup_delete_Some in Hlookup as [_ Hlookup].
      by apply (Hadapters nsp').
  - cbn. unfold on_error. by destruct resumable.
  - cbn. repeat split; try done. cbn. intros cs Hcs.
    destruct (changeStream (node nw)) as [cs0|]; [|done].
    injection Hcs as <-. cbn. by apply Hstream.
  - cbn. by apply initChangeStream_wf.
Qed.

Lemma node_run_wf steps : ∀ nw, node_wf (node nw) → node_wf (node (node_run steps nw)).
Proof.
  induction steps as [|s steps IH]; intros nw Hwf; [done|].
  cbn. apply IH. by apply node_step_wf.
Qed.

Lemma node_start_wf o randomId c : node_wf (node (node_start o randomId c)).
Proof. repeat split; try done. Qed.

Lemma onEvent_remote_broadcast now io localSockets d packet o w :
  data d = BroadcastData packet None o →
  connectionStateRecovery (self w) = false →
  trace (onEvent now io localSockets d w)
    = trace w ++ [SuperBroadcast packet (deserializeOptions o)].
Proof.
  intros Hdata Hrecovery. unfold onEvent. rewrite Hdata.
  assert (Hobs : connectionStateRecovery (observe now d (self w)) = false).
  { rewrite <- Hrecovery. unfold observe. case_split_all. }
  unfold addOffsetIfNecessary. cbn [self with_self]. by rewrite Hobs.
Qed.

(** Every adapter of a reachable node satisfies [requests_wf]. *)
Lemma node_step_requests_wf nw s :
  (∀ nsp a, adapters (node nw) !! nsp = Some a → requests_wf a) →
  ∀ nsp a, adapters (node (node_step nw s)) !! nsp = Some a → requests_wf a.
Proof.
  intros Hall.
  assert (Hinsert : ∀ n nsp0 a0, requests_wf a0 →
    (∀ nsp a, adapters n !! nsp = Some a → requests_wf a) →
    ∀ nsp a, <[nsp0 := a0]> (adapters n) !! nsp = Some a → requests_wf a).
  { intros n nsp0 a0 Ha0 Hn nsp a Hlookup.
    apply lookup_insert_Some in Hlookup as [[_ <-]|[_ Hlookup]]; [done|].
    by apply (Hn nsp). }
  destruct s as [now io nsp0 recovery|now io nsp0 call|now io ls event|nsp0|resumable| |];
    cbn [node_step].
  - unfold adapterFactory. cbn [node adapters].
    apply Hinsert.
    + apply publish_requests_wf, new_MongoAdapter_requests_wf.
    + destruct (changeStream (node nw)); [done|].
      unfold initChangeStream. by destruct (_ || _).
  - destruct (adapters (node nw) !! nsp0) as [adapter|] eqn:Hlookup; [|done].
    cbn [node adapters]. apply Hinsert; [|done].
    apply api_call_requests_wf. by apply (Hall nsp0).
  - unfold changeStream_deliver. destruct (changeStream (node nw)); [|done].
    destruct (_ && _); [|done]. unfold on_change.
    destruct (operationType event); [|done].
    destruct (fullDocument event) as [document|]; [|done].
    destruct (ev_nsp document) as [nsp1|]; [|done]. cbn [mbind option_bind].
    destruct (adapters (node nw) !! nsp1) as [adapter|] eqn:Hlookup; [|done].
    cbn [fmap option_fmap option_map node adapters]. apply Hinsert; [|done].
    apply onEvent_requests_wf. by apply (Hall nsp1).
  - cbn. unfold node_close. intros nsp a.
    destruct (_ =? _)%nat; cbn; intros Hlookup;
      apply lookup_delete_Some in Hlookup as [_ Hlookup]; by apply (Hall nsp).
  - cbn. unfold on_error. by destruct resumable.
  - done.
  - cbn. unfold initChangeStream. by destruct (_ || _).
Qed.

Lemma node_run_requests_wf steps : ∀ nw,
  (∀ nsp a, adapters (node nw) !! nsp = Some a → requests_wf a) →
  ∀ nsp a, adapters (node (node_run steps nw)) !! nsp = Some a → requests_wf a.
Proof.
  induction steps as [|s steps IH]; intros nw Hall; [done|].
  change (node_run (s :: steps) nw) with (node_run steps (node_step nw s)).
  apply IH. by apply node_step_requests_wf.
Qed.

Lemma node_step_opts nw s : opts (node (node_step nw s)) = opts (node nw).
Proof.
  destruct s as [now io nsp recovery|now io nsp call|now io ls event|nsp|resumable| |];
    cbn [node_step].
  - unfold adapterFactory. cbn [node opts].
    destruct (changeStream (node nw)); [done|].
    unfold initChangeStream. by destruct (_ || _).
  - by destruct (adapters (node nw) !! nsp).
  - unfold changeStream_deliver. destruct (changeStream (node nw)); [|done].
    destruct (_ && _); [|done]. unfold on_change.
    destruct (operationType event); [|done].
    destruct (fullDocument event) as [document|]; [|done].
    by destruct (ev_nsp document ≫= _) as [[]|].
  - cbn. unfold node_close. by destruct (_ =? _)%nat.
  - cbn. unfold on_error. by destruct resumable.
  - done.
  - cbn. unfold initChangeStream. by destruct (_ || _).
Qed.

Lemma node_run_opts steps : ∀ nw, opts (node (node_run steps nw)) = opts (node nw).
Proof.
  induction steps as [|s steps IH]; intros nw; [done|].
  change (node_run (s :: steps) nw) with (node_run steps (node_step nw s)).
  by rewrite IH, node_step_opts.
Qed.

(** The uid of a reachable node is the one [createAdapter] chose, and it is
    the uid of all its adapters and of its change stream. *)
Lemma node_run_uid o randomId c steps :
  let nw := node_run steps (node_start o randomId c) in
  let me := or_default_string (opt_uid o) randomId in
  (∀ nsp a, adapters (node nw) !! nsp = Some a → uid a = me)
  ∧ (∀ cs, changeStream (node nw) = Some cs → match_ne_uid cs = Some me).
Proof.
  intros nw me.
  assert (Hwf : node_wf (node nw)) by apply node_run_wf, node_start_wf.
  destruct Hwf as (_ & Hadapters & Hstream).
  assert (Hopts : opt_uid (opts (node nw)) = Some me).
  { subst nw. by rewrite node_run_opts. }
  rewrite Hopts in Hadapters, Hstream. split; [|done].
  intros nsp a Ha. specialize (Hadapters nsp a Ha). congruence.
Qed.

(** C9: every adapter of a node publishes under the uid of the node, and in
    every state the node can reach a record published under that uid does not
    pass the [$match] stage of the node's change stream, so delivering it
    changes nothing on the node: no adapter sees it.  On a node with another
    uid whose stream is open the same record reaches the "change" listener,
    which hands it to [onEvent] of the adapter of its namespace; a broadcast
    is then passed to the base adapter there. *)
Theorem own_records_are_never_dispatched
    (o : MongoAdapterOptions) (randomId : string) (c : Collection)
    (steps : list NodeStep) (publisher : MongoAdapter)
    (now : Z) (id : ObjectId) (document : EventData) (event : ChangeEvent) :
  let nw := node_run steps (node_start o randomId c) in
  let me := or_default_string (opt_uid o) randomId in
  uid publisher = me →
  fullDocument event = Some (stamp now id publisher document) →
  (∀ nsp a, adapters (node nw) !! nsp = Some a → uid a = me)
  ∧ (∀ w, self w = publisher → isClosed publisher = false →
       mongoCollection (publish now (Inserted id) document w).2
         = mongoCollection w ++ [stamp now id publisher document])
  ∧ (∀ cs, changeStream (node nw) = Some cs → pipeline_matches cs event = false)
  ∧ (∀ now' io' localSockets,
       changeStream_deliver now' io' localSockets event nw = nw)
  ∧ (∀ o2 randomId2 c2 steps2 now' io' localSockets,
       let other := node_run steps2 (node_start o2 randomId2 c2) in
       or_default_string (opt_uid o2) randomId2 ≠ me →
       stream_is_open (node other) = true →
       operationType event = insert →
       changeStream_deliver now' io' localSockets event other
         = on_change now' io' localSockets event other
       ∧ ∀ b, adapters (node other) !! nsp_name publisher = Some b →
           let w := onEvent now' io' localSockets (stamp now id publisher document)
                      {| self := b; mongoCollection := node_collection other;
                         trace := node_trace other |} in
           adapters (node (changeStream_deliver now' io' localSockets event other))
             !! nsp_name publisher = Some (self w)
           ∧ node_trace (changeStream_deliver now' io' localSockets event other)
             = trace w
           ∧ ∀ packet opts,
               document = BroadcastData packet None opts →
               connectionStateRecovery b = false →
               trace w = node_trace other
                           ++ [SuperBroadcast packet (deserializeOptions opts)]).
Proof.
  intros nw me Hpublisher Hevent.
  destruct (node_run_uid o randomId c steps) as [Hadapters Hstream].
  fold nw me in Hadapters, Hstream.
  assert (Hfiltered : ∀ cs, changeStream (node nw) = Some cs →
                            pipeline_matches cs event = false).
  { intros cs Hcs. unfold pipeline_matches. rewrite Hevent. cbn.
    apply bool_decide_eq_false. intros Hne. apply Hne.
    rewrite (Hstream cs Hcs). by rewrite Hpublisher. }
  split; [done|]. split; [|split; [done|split]].
  - intros w <- Hopen. unfold publish. by rewrite Hopen.
  - intros now' io' localSockets. unfold changeStream_deliver.
    destruct (changeStream (node nw)) as [cs|] eqn:Hcs; [|done].
    by rewrite (Hfiltered cs eq_refl), andb_false_r.
  - intros o2 randomId2 c2 steps2 now' io' localSockets other Hother Hopen Hinsert.
    destruct (node_run_uid o2 randomId2 c2 steps2) as [_ Hstream2].
    fold other in Hstream2.
    unfold changeStream_deliver, stream_is_open in *.
    destruct (changeStream (node other)) as [cs|] eqn:Hcs; [|done].
    rewrite Hopen. cbn [andb].
    assert (Hpasses : pipeline_matches cs event = true).
    { unfold pipeline_matches. rewrite Hevent. cbn.
      apply bool_decide_eq_true. rewrite (Hstream2 cs eq_refl). congruence. }
    rewrite Hpasses. split; [done|].
    intros b Hb. unfold on_change. rewrite Hinsert, Hevent. cbn. rewrite Hb. cbn.
    rewrite lookup_insert_eq. repeat split.
    intros packet opts0 -> Hrecovery.
    by apply onEvent_remote_broadcast.
Qed.

End Properties.

(** ** Further properties of the adapter *)

Section MoreProperties.

Context {bson : Bson}.

#[local] Set Default Proof Using "Type".

Ltac split_cases :=
  repeat (cbn in *; first [done | case_match | case_bool_decide]).

(** *** The log is append-only *)

Lemma publish_cases now io document w :
  (isClosed (self w) = true
   ∧ publish now io document w = (Rejected (JsString "adapter is closed"), w))
  ∨ (isClosed (self w) = false
     ∧ ∃ id, io = Inserted id
       ∧ publish now io document w
         = (Resolved (ObjectId_toHex id),
            with_collection (insertOne (stamp now id (self w) document))
              (with_self (scheduleHeartbeat now) w)))
  ∨ (isClosed (self w) = false
     ∧ ∃ m, io = InsertFailed m
       ∧ publish now io document w
         = (Rejected (JsError m), with_self (scheduleHeartbeat now) w)).
Proof.
  unfold publish. destruct (isClosed (self w)); [by left|].
  destruct io as [id|m]; [right; left|right; right]; eauto.
Qed.

(** What one call can do to the collection: nothing, or append one document
    stamped by the adapter, which re-arms the heartbeat timer. *)
Lemma publish_appends now io document w0 w :
  uid (self w) = uid (self w0) → nsp_name (self w) = nsp_name (self w0) →
  addCreatedAtField (self w) = addCreatedAtField (self w0) →
  isClosed (self w) = isClosed (self w0) →
  heartbeatInterval (self w) = heartbeatInterval (self w0) →
  let w' := (publish now io document w).2 in
  mongoCollection w' = mongoCollection w
  ∨ ∃ id, io = Inserted id ∧ isClosed (self w0) = false
      ∧ mongoCollection w' = mongoCollection w ++ [stamp now id (self w0) document]
      ∧ heartbeatTimer (self w') = Some (now + heartbeatInterval (self w0)).
Proof.
  intros Huid Hnsp Hcreated Hclosed Hinterval. cbn zeta.
  destruct (publish_cases now io document w)
    as [[_ ->]|[(Hopen & id & -> & ->)|(_ & m & -> & ->)]]; [by left| |by left].
  right. exists id. rewrite <- Hclosed. repeat split; try done.
  - cbn. unfold insertOne, stamp. by rewrite Huid, Hnsp, Hcreated.
  - cbn. by rewrite Hinterval.
Qed.

Ltac use_publish_appends w1 :=
  match goal with
  | |- context [publish ?now ?io ?d w1] =>
      let H := fresh "Hpub" in
      let i := fresh "inserted" in
      let Hopen := fresh "Hopen" in
      let Htimer := fresh "Htimer" in
      pose proof (publish_appends now io d _ w1 eq_refl eq_refl eq_refl eq_refl eq_refl)
        as H;
      cbn in H |- *;
      destruct H as [H|(i & -> & Hopen & H & Htimer)];
      [left; exact H | right; exists i, d; repeat split; assumption]
  end.

(** X1: apart from [restoreSession], no call on an adapter and no timer
    removes or rewrites a document: the collection is left as it was or grows
    by exactly one document stamped with the adapter's uid and namespace, and
    in that case the heartbeat timer is re-armed one interval ahead. *)
Theorem adapter_calls_only_append (now : Z) (io : InsertOutcome) (call : ApiCall)
    (w : World) :
  (∀ rio privateId offset, call ≠ CallRestoreSession rio privateId offset) →
  let w' := api_call now io call w in
  mongoCollection w' = mongoCollection w
  ∨ ∃ id payload,
      io = Inserted id ∧ isClosed (self w) = false
      ∧ mongoCollection w' = mongoCollection w ++ [stamp now id (self w) payload]
      ∧ heartbeatTimer (self w') = Some (now + heartbeatInterval (self w)).
Proof.
  intros Hcall. cbn zeta.
  destruct call as [packet o|rid packet o ccb ackcb|o rs|o rs|o c|rid ls o|rid packet
                   |session|rio p off|rid|]; cbn [api_call].
  - unfold broadcast. destruct (onlyLocal o); [by left|].
    pose proof (publish_appends now io (BroadcastData packet None (serializeOptions o))
                  w w eq_refl eq_refl eq_refl eq_refl eq_refl) as Hpub.
    cbn zeta in Hpub.
    destruct (publish now io _ w) as [[offset|err] w1]; cbn [snd] in *.
    + destruct (addOffsetIfNecessary _ _ _ _); cbn;
        (destruct Hpub as [H|(id & -> & Hopen & H & Htimer)];
         [left; exact H | right; exists id; eexists; repeat split; eassumption]).
    + destruct Hpub as [H|(id & -> & Hopen & H & Htimer)];
        [left; exact H | right; exists id; eexists; repeat split; eassumption].
  - unfold broadcastWithAck. destruct (onlyLocal o); [by left|].
    destruct (flags o); cbn [snd]; use_publish_appends w.
  - unfold addSockets. cbv zeta. destruct (onlyLocal o); [by left|].
    match goal with |- context [publish _ _ _ ?w1] => use_publish_appends w1 end.
  - unfold delSockets. cbv zeta. destruct (onlyLocal o); [by left|].
    match goal with |- context [publish _ _ _ ?w1] => use_publish_appends w1 end.
  - unfold disconnectSockets. cbv zeta. destruct (onlyLocal o); [by left|].
    match goal with |- context [publish _ _ _ ?w1] => use_publish_appends w1 end.
  - unfold fetchSockets, getExpectedResponseCount. cbv beta iota zeta.
    destruct (_ || _); [by left|]. cbn [snd].
    match goal with |- context [publish _ _ _ ?w1] => use_publish_appends w1 end.
  - unfold serverSideEmit, serverSideEmitWithAck.
    destruct (last packet) as [[]|];
      try (match goal with |- context [publish _ _ _ ?w1] => use_publish_appends w1 end).
    unfold getExpectedResponseCount. cbv beta iota zeta.
    destruct (_ <=? _)%nat; [by left|].
    match goal with |- context [publish _ _ _ ?w1] => use_publish_appends w1 end.
  - unfold persistSession. use_publish_appends w.
  - by destruct (Hcall rio p off).
  - left. unfold onTimeout. split_cases.
  - unfold onHeartbeatTimer.
    destruct (heartbeatTimer (self w)); [|by left].
    case_bool_decide; [|by left].
    destruct (publish_cases now io HeartbeatData w)
      as [[_ ->]|[(Hopen & id & -> & ->)|(_ & m & -> & ->)]]; [by left| |by left].
    right. exists id, HeartbeatData. done.
Qed.

(** *** What an event makes an adapter publish *)

(** X2: what a received record makes an adapter publish.  A HEARTBEAT, a
    BROADCAST or SERVER_SIDE_EMIT without request id, a membership change, a
    response, a client count, an acknowledgement or a session: nothing, and
    the heartbeat timer is left alone.  On an open adapter whose insert
    succeeds, an INITIAL_HEARTBEAT is answered with one HEARTBEAT and a
    FETCH_SOCKETS request with one FETCH_SOCKETS_RESPONSE carrying the request
    id and the local sockets.  A BROADCAST with a request id hands two
    closures to the base adapter: the call of the first, which the base
    adapter makes with the number of clients before it returns, stores one
    BROADCAST_CLIENT_COUNT record, and each call of the second stores one
    BROADCAST_ACK record.  A SERVER_SIDE_EMIT with a request id hands the
    namespace a callback that stores one SERVER_SIDE_EMIT_RESPONSE record at
    its first call and does nothing afterwards. *)
Theorem onEvent_publishes_only_replies (now : Z) (io : InsertOutcome)
    (localSockets : list JsValue) (document : AdapterEvent) (w : World) :
  let w' := onEvent now io localSockets document w in
  (ev_type document ≠ INITIAL_HEARTBEAT → ev_type document ≠ FETCH_SOCKETS →
   (∀ packet requestId o, data document ≠ BroadcastData packet (Some requestId) o) →
   (∀ requestId packet, data document ≠ ServerSideEmitData (Some requestId) packet) →
     mongoCollection w' = mongoCollection w
     ∧ heartbeatTimer (self w') = heartbeatTimer (self w))
  ∧ (isClosed (self w) = false → ∀ id, io = Inserted id →
       (data document = InitialHeartbeatData →
          mongoCollection w' = mongoCollection w ++ [stamp now id (self w) HeartbeatData]
          ∧ trace w' = trace w)
       ∧ (∀ o requestId, data document = FetchSocketsData o requestId →
            mongoCollection w'
              = mongoCollection w
                  ++ [stamp now id (self w)
                        (FetchSocketsResponseData requestId
                           (serializeSocket <$> localSockets))]
            ∧ trace w' = trace w ++ [SuperFetchSockets (deserializeOptions o)]))
  ∧ (∀ packet requestId o, data document = BroadcastData packet (Some requestId) o →
       trace w'
         = trace w ++ [SuperBroadcastWithAck packet (deserializeOptions o)
                         (PublishClientCount requestId) (PublishAck requestId)]
       ∧ (isClosed (self w) = false → ∀ now' id' called clientCount,
            mongoCollection
              (call_closure now' (Inserted id') (PublishClientCount requestId)
                 (JsNumber clientCount) called w').2
            = mongoCollection w
                ++ [stamp now' id' (self w)
                      (BroadcastClientCountData requestId clientCount)]))
  ∧ (∀ requestId packet, data document = ServerSideEmitData (Some requestId) packet →
       trace w'
         = trace w ++ [NspOnServerSideEmit (packet ++ [JsFunction (EmitResponse requestId)])]
       ∧ (isClosed (self w) = false → ∀ now' id' arg,
            let answered :=
              call_closure now' (Inserted id') (EmitResponse requestId) arg false w' in
            answered.1 = true
            ∧ mongoCollection answered.2
              = mongoCollection w
                  ++ [stamp now' id' (self w) (ServerSideEmitResponseData requestId arg)]))
  ∧ (∀ now' io' id' requestId arg clientCount called w1,
       call_closure now' io' (EmitResponse requestId) arg true w1 = (true, w1)
       ∧ (isClosed (self w1) = false →
          mongoCollection
            (call_closure now' (Inserted id') (PublishClientCount requestId)
               (JsNumber clientCount) called w1).2
          = mongoCollection w1
              ++ [stamp now' id' (self w1) (BroadcastClientCountData requestId clientCount)]
          ∧ mongoCollection
              (call_closure now' (Inserted id') (PublishAck requestId) arg called w1).2
            = mongoCollection w1
                ++ [stamp now' id' (self w1) (BroadcastAckData requestId arg)]
          ∧ call_closure now' (Inserted id') (EmitResponse requestId) arg false w1
            = (true,
               (publish now' (Inserted id') (ServerSideEmitResponseData requestId arg)
                  w1).2)
          ∧ mongoCollection
              (publish now' (Inserted id') (ServerSideEmitResponseData requestId arg)
                 w1).2
            = mongoCollection w1
                ++ [stamp now' id' (self w1) (ServerSideEmitResponseData requestId arg)])).
Proof.
  cbn zeta. unfold onEvent, ev_type.
  assert (Hobs : ∀ a, uid (observe now document a) = uid a
                      ∧ nsp_name (observe now document a) = nsp_name a
                      ∧ addCreatedAtField (observe now document a) = addCreatedAtField a
                      ∧ isClosed (observe now document a) = isClosed a
                      ∧ heartbeatTimer (observe now document a) = heartbeatTimer a).
  { intros a. unfold observe. split_cases. }
  destruct (Hobs (self w)) as (Huid & Hnsp & Hcreated & Hclosed & Htimer).
  split; [|split; [|split; [|split]]].
  - intros Hinit Hfetch Hack Hemit.
    destruct (data document) as
      [| |packet [rid|] o|o rs|o rs|o c|o rid|rid sockets
       |[rid|] packet|rid packet|rid n|rid packet|session]; cbn in Hinit, Hfetch;
      try done; try (exfalso; by eapply Hack); try (exfalso; by eapply Hemit);
      cbn [self with_self mongoCollection emit_effect].
    + by destruct (addOffsetIfNecessary _ _ _ _).
    + destruct (requests _ !! rid); [|done]. unfold settle.
      by destruct (_ =? _)%nat.
    + destruct (requests _ !! rid); [|done]. unfold settle.
      by destruct (_ =? _)%nat.
    + by destruct (ackRequests _ !! rid).
    + by destruct (ackRequests _ !! rid).
  - intros Hopen id ->. split.
    + intros ->. unfold publish. cbn. rewrite Hclosed, Hopen. cbn.
      unfold insertOne, stamp. by rewrite Huid, Hnsp, Hcreated.
    + intros o requestId ->. unfold publish. cbn. rewrite Hclosed, Hopen. cbn.
      unfold insertOne, stamp. by rewrite Huid, Hnsp, Hcreated.
  - intros packet requestId o ->. split; [done|].
    intros Hopen now' id' called clientCount.
    unfold call_closure, publish. cbn. rewrite Hclosed, Hopen. cbn.
    unfold insertOne, stamp. by rewrite Huid, Hnsp, Hcreated.
  - intros requestId packet ->. split; [done|].
    intros Hopen now' id' arg.
    unfold call_closure, publish. cbn. rewrite Hclosed, Hopen. cbn.
    unfold insertOne, stamp. by rewrite Huid, Hnsp, Hcreated.
  - intros now' io' id' requestId arg clientCount called w1.
    split; [by destruct arg|]. intros Hopen.
    unfold call_closure, publish. rewrite Hopen. by destruct arg.
Qed.

(** *** A closed adapter *)

Lemma publish_closed now io document w :
  isClosed (self w) = true →
  publish now io document w = (Rejected (JsString "adapter is closed"), w).
Proof. unfold publish. by intros ->. Qed.

Lemma publish_isClosed now io document w :
  isClosed (self (publish now io document w).2) = isClosed (self w).
Proof. unfold publish. split_cases. Qed.

Lemma onEvent_isClosed now io localSockets document w :
  isClosed (self (onEvent now io localSockets document w)) = isClosed (self w).
Proof.
  unfold onEvent.
  assert (Hobs : isClosed (observe now document (self w)) = isClosed (self w)).
  { unfold observe. split_cases. }
  set (w0 := with_self (observe now document) w).
  change (isClosed (observe now document (self w))) with (isClosed (self w0)) in Hobs.
  rewrite <- Hobs. clearbody w0.
  destruct (data document); cbn; rewrite ?publish_isClosed; try done.
  all: unfold settle; split_cases.
Qed.

Lemma api_call_isClosed now io call w :
  isClosed (self (api_call now io call w)) = isClosed (self w).
Proof.
  destruct call as [packet o|rid packet o ccb ackcb|o rs|o rs|o c|rid ls o|rid packet
                   |session|rio p off|rid|]; cbn [api_call].
  - unfold broadcast.
    pose proof (publish_isClosed now io
      (BroadcastData packet None (serializeOptions o)) w).
    destruct (publish _ _ _ _) as [[?|?] ?]; split_cases.
  - unfold broadcastWithAck. destruct (onlyLocal o); [done|].
    destruct (flags o); cbn; apply publish_isClosed.
  - unfold addSockets. cbv zeta. destruct (onlyLocal o); [done|].
    by rewrite publish_isClosed.
  - unfold delSockets. cbv zeta. destruct (onlyLocal o); [done|].
    by rewrite publish_isClosed.
  - unfold disconnectSockets. cbv zeta. destruct (onlyLocal o); [done|].
    by rewrite publish_isClosed.
  - unfold fetchSockets, getExpectedResponseCount. cbv beta iota zeta.
    destruct (_ || _); [done|]. cbn [snd]. by rewrite publish_isClosed.
  - unfold serverSideEmit, serverSideEmitWithAck.
    destruct (last packet) as [[]|]; rewrite ?publish_isClosed; try done.
    unfold getExpectedResponseCount. cbv beta iota zeta.
    destruct (_ <=? _)%nat; [done|]. by rewrite publish_isClosed.
  - unfold persistSession. apply publish_isClosed.
  - unfold restoreSession.
    destruct (findOneAndDelete _ _). split_cases.
  - unfold onTimeout. split_cases.
  - unfold onHeartbeatTimer.
    destruct (heartbeatTimer (self w)); [|done].
    case_bool_decide; [|done]. cbn. apply publish_isClosed.
Qed.

(** X3: [close] is final.  No call, timer or event reopens a closed adapter,
    and none of them (apart from the deletion done by [restoreSession]) changes
    the collection any more; events are still applied locally.  The heartbeat
    timer is cancelled by [close], so no heartbeat is sent either. *)
Theorem closed_adapter_stays_silent (now : Z) (io : InsertOutcome) (call : ApiCall)
    (localSockets : list JsValue) (document : AdapterEvent) (w : World) :
  isClosed (self w) = true →
  isClosed (self (api_call now io call w)) = true
  ∧ isClosed (self (onEvent now io localSockets document w)) = true
  ∧ ((∀ rio privateId offset, call ≠ CallRestoreSession rio privateId offset) →
     mongoCollection (api_call now io call w) = mongoCollection w)
  ∧ mongoCollection (onEvent now io localSockets document w) = mongoCollection w
  ∧ (∀ w0, isClosed (self (close w0)) = true
           ∧ onHeartbeatTimer now io (close w0) = close w0).
Proof.
  intros Hclosed.
  split; [by rewrite api_call_isClosed|]. split; [by rewrite onEvent_isClosed|].
  split; [|split; [|done]].
  - intros Hcall.
    assert (Hpub : ∀ d w1, isClosed (self w1) = true →
              mongoCollection (publish now io d w1).2 = mongoCollection w1).
    { intros d w1 H1. by rewrite publish_closed. }
    destruct call as [packet o|rid packet o ccb ackcb|o rs|o rs|o c|rid ls o|rid packet
                     |session|rio p off|rid|]; cbn [api_call].
    + unfold broadcast. destruct (onlyLocal o); [done|]. by rewrite publish_closed.
    + unfold broadcastWithAck. destruct (onlyLocal o); [done|].
      destruct (flags o); cbn; by rewrite Hpub.
    + unfold addSockets. cbv zeta. destruct (onlyLocal o); [done|]. by rewrite Hpub.
    + unfold delSockets. cbv zeta. destruct (onlyLocal o); [done|]. by rewrite Hpub.
    + unfold disconnectSockets. cbv zeta. destruct (onlyLocal o); [done|].
      by rewrite Hpub.
    + unfold fetchSockets, getExpectedResponseCount. cbv beta iota zeta.
      destruct (_ || _); [done|]. cbn [snd]. by rewrite Hpub.
    + unfold serverSideEmit, serverSideEmitWithAck.
      destruct (last packet) as [[]|]; rewrite ?Hpub; try done.
      unfold getExpectedResponseCount. cbv beta iota zeta.
      destruct (_ <=? _)%nat; [done|]. by rewrite Hpub.
    + unfold persistSession. by rewrite Hpub.
    + by destruct (Hcall rio p off).
    + unfold onTimeout. split_cases.
    + unfold onHeartbeatTimer.
      destruct (heartbeatTimer (self w)); [|done].
      case_bool_decide; [|done]. cbn. by rewrite Hpub.
  - unfold onEvent.
    assert (Hobs : isClosed (observe now document (self w)) = true).
    { rewrite <- Hclosed. unfold observe. split_cases. }
    destruct (data document) as
      [| |packet [rid|] o|o rs|o rs|o c|o rid|rid sockets
       |[rid|] packet|rid packet|rid n|rid packet|session];
      rewrite ?publish_closed by done; try done;
      cbn [self with_self mongoCollection emit_effect].
    + by destruct (addOffsetIfNecessary _ _ _ _).
    + destruct (requests _ !! rid); [|done]. unfold settle. by destruct (_ =? _)%nat.
    + destruct (requests _ !! rid); [|done]. unfold settle. by destruct (_ =? _)%nat.
    + by destruct (ackRequests _ !! rid).
    + by destruct (ackRequests _ !! rid).
Qed.

(** *** Peers *)

Lemma observe_nodesMap now document a :
  nodesMap (observe now document a)
    = match tracked_uid document with
      | Some u => <[u := now]> (nodesMap a)
      | None => nodesMap a
      end.
Proof.
  unfold observe, tracked_uid. destruct (ev_uid document); [|done].
  by case_bool_decide.
Qed.

Lemma publish_nodesMap now io document w :
  nodesMap (self (publish now io document w).2) = nodesMap (self w).
Proof. unfold publish. split_cases. Qed.

Lemma onEvent_nodesMap now io localSockets document w :
  nodesMap (self (onEvent now io localSockets document w))
    = nodesMap (observe now document (self w)).
Proof.
  unfold onEvent.
  set (w0 := with_self (observe now document) w).
  change (nodesMap (observe now document (self w))) with (nodesMap (self w0)).
  clearbody w0.
  destruct (data document); cbn; rewrite ?publish_nodesMap; try done.
  all: unfold settle; split_cases.
Qed.

Lemma tracked_uid_valid document u :
  tracked_uid document = Some u →
  ev_uid document = Some u ∧ u ≠ "" ∧ u ≠ EMITTER_UID.
Proof.
  unfold tracked_uid. destruct (ev_uid document); [|done].
  case_bool_decide; [|done]. intros [= ->]. tauto.
Qed.

Lemma last_heard_snoc u deliveries d :
  last_heard u (deliveries ++ [d])
  = if decide (tracked_uid (delivered d) = Some u) then Some (delivered_at d)
    else last_heard u deliveries.
Proof.
  unfold last_heard. rewrite omap_app. cbn.
  destruct (decide (tracked_uid (delivered d) = Some u)); cbn.
  - apply last_snoc.
  - by rewrite app_nil_r.
Qed.

Lemma onEvents_nodesMap deliveries w u :
  nodesMap (self (onEvents deliveries w)) !! u
  = match last_heard u deliveries with
    | Some t => Some t
    | None => nodesMap (self w) !! u
    end.
Proof.
  induction deliveries as [|d deliveries IH] using rev_ind; [done|].
  unfold onEvents. rewrite foldl_app. cbn. fold (onEvents deliveries w).
  rewrite onEvent_nodesMap, observe_nodesMap, last_heard_snoc.
  destruct (tracked_uid (delivered d)) as [u'|] eqn:Hu.
  - destruct (decide (Some u' = Some u)) as [[= ->]|Hne].
    + apply lookup_insert_eq.
    + rewrite lookup_insert_ne by congruence. apply IH.
  - destruct (decide (None = Some u)); [done|]. apply IH.
Qed.

(** X4: the peers an adapter knows are those it knew before and the senders
    of the documents it has received (a document without uid or from the
    emitter adds none).  Each sender is held with the time of the last
    document received from it, and a peer that sent none keeps the time it
    had.  Starting from no peer, after documents from [k] distinct senders
    [serverCount()] is [1 + k]. *)
Theorem peers_are_the_senders (deliveries : list Delivery) (w : World) :
  (∀ u, nodesMap (self (onEvents deliveries w)) !! u
        = match last_heard u deliveries with
          | Some t => Some t
          | None => nodesMap (self w) !! u
          end)
  ∧ dom (nodesMap (self (onEvents deliveries w)))
    = (dom (nodesMap (self w)) ∪ list_to_set (senders deliveries))
  ∧ (EMITTER_UID ∉ senders deliveries)
  ∧ (∀ d u, tracked_uid (delivered d) = Some u →
       nodesMap (self (onEvents (deliveries ++ [d]) w)) !! u = Some (delivered_at d))
  ∧ (nodesMap (self w) = ∅ → NoDup (senders deliveries) →
     serverCount (self (onEvents deliveries w))
       = Resolved (1 + length (senders deliveries))%nat).
Proof.
  assert (Hdom : ∀ ds w0, dom (nodesMap (self (onEvents ds w0)))
                   = dom (nodesMap (self w0)) ∪ list_to_set (senders ds)).
  { induction ds as [|d ds IH]; intros w0.
    - cbn. set_solver.
    - change (onEvents (d :: ds) w0)
        with (onEvents ds (onEvent (delivered_at d) (delivery_io d)
                             (delivery_localSockets d) (delivered d) w0)).
      rewrite IH, onEvent_nodesMap, observe_nodesMap. unfold senders. cbn.
      destruct (tracked_uid (delivered d)); cbn; [|done].
      rewrite dom_insert_L. set_solver. }
  split; [intros u; apply onEvents_nodesMap|].
  split; [apply Hdom|]. split; [|split].
  - unfold senders. intros Hin. apply list_elem_of_omap in Hin as (d & _ & Hd).
    apply tracked_uid_valid in Hd. tauto.
  - intros d u Hu. unfold onEvents. rewrite foldl_app. cbn.
    rewrite onEvent_nodesMap, observe_nodesMap, Hu. apply lookup_insert_eq.
  - intros Hempty Hnodup. unfold serverCount. do 2 f_equal.
    rewrite <- size_dom, Hdom, Hempty, dom_empty_L, union_empty_l_L.
    by apply size_list_to_set.
Qed.

(** *** A node does not count itself *)

Lemma api_call_keeps_untracked now io call w u :
  nodesMap (self w) !! u = None →
  nodesMap (self (api_call now io call w)) !! u = None.
Proof.
  intros Hu.
  assert (Hpruned : ∀ a, nodesMap a = nodesMap (self w) →
            nodesMap (getExpectedResponseCount now a).2 !! u = None).
  { intros a Ha. cbn. apply map_lookup_filter_None. left. by rewrite Ha. }
  destruct call as [packet o|rid packet o ccb ackcb|o rs|o rs|o c|rid ls o|rid packet
                   |session|rio p off|rid|]; cbn [api_call].
  - unfold broadcast. destruct (onlyLocal o); [done|].
    pose proof (publish_nodesMap now io
      (BroadcastData packet None (serializeOptions o)) w) as Hpub.
    destruct (publish _ _ _ _) as [[?|?] w1]; cbn [snd] in Hpub;
      [destruct (addOffsetIfNecessary _ _ _ _)|]; cbn; by rewrite Hpub.
  - unfold broadcastWithAck. destruct (onlyLocal o); [done|].
    destruct (flags o); cbn; by rewrite publish_nodesMap.
  - unfold addSockets. cbv zeta. destruct (onlyLocal o); [done|].
    by rewrite publish_nodesMap.
  - unfold delSockets. cbv zeta. destruct (onlyLocal o); [done|].
    by rewrite publish_nodesMap.
  - unfold disconnectSockets. cbv zeta. destruct (onlyLocal o); [done|].
    by rewrite publish_nodesMap.
  - unfold fetchSockets.
    pose proof (Hpruned (self (emit_effect (SuperFetchSockets o) w)) eq_refl) as Hp.
    destruct (getExpectedResponseCount now _) as [n a1]. cbn [snd] in Hp.
    destruct (_ || _); [done|]. cbn [snd]. by rewrite publish_nodesMap.
  - unfold serverSideEmit, serverSideEmitWithAck.
    destruct (last packet) as [[]|]; rewrite ?publish_nodesMap; try done.
    pose proof (Hpruned (self w) eq_refl) as Hp.
    destruct (getExpectedResponseCount now _) as [n a1]. cbn [snd] in Hp.
    destruct (_ <=? _)%nat; [done|]. by rewrite publish_nodesMap.
  - unfold persistSession. by rewrite publish_nodesMap.
  - unfold restoreSession.
    destruct (findOneAndDelete _ _). split_cases.
  - unfold onTimeout. split_cases.
  - unfold onHeartbeatTimer.
    destruct (heartbeatTimer (self w)); [|done].
    case_bool_decide; [|done]. cbn. by rewrite publish_nodesMap.
Qed.

Lemma node_step_never_tracked nw s me :
  node_wf (node nw) → opt_uid (opts (node nw)) = Some me →
  (∀ nsp a, adapters (node nw) !! nsp = Some a → never_tracked me a) →
  ∀ nsp a, adapters (node (node_step nw s)) !! nsp = Some a → never_tracked me a.
Proof.
  intros (_ & _ & Hstream) Hme Hall.
  assert (Hinsert : ∀ n nsp0 a0, never_tracked me a0 →
    (∀ nsp a, adapters n !! nsp = Some a → never_tracked me a) →
    ∀ nsp a, <[nsp0 := a0]> (adapters n) !! nsp = Some a → never_tracked me a).
  { intros n nsp0 a0 Ha0 Hn nsp a Hlookup.
    apply lookup_insert_Some in Hlookup as [[_ <-]|[_ Hlookup]]; [done|].
    by apply (Hn nsp). }
  destruct s as [now io nsp0 recovery|now io nsp0 call|now io ls event|nsp0|resumable| |];
    cbn [node_step].
  - unfold adapterFactory. cbn [node adapters].
    apply Hinsert.
    + unfold never_tracked. by rewrite publish_nodesMap.
    + destruct (changeStream (node nw)); [done|].
      unfold initChangeStream. by destruct (_ || _).
  - destruct (adapters (node nw) !! nsp0) as [adapter|] eqn:Hlookup; [|done].
    cbn [node adapters]. apply Hinsert; [|done].
    destruct (Hall nsp0 adapter Hlookup) as (? & ? & ?).
    repeat split; by apply api_call_keeps_untracked.
  - unfold changeStream_deliver.
    destruct (changeStream (node nw)) as [cs|] eqn:Hcs; [|done].
    destruct (negb (closed cs)); [|done]. cbn [andb].
    destruct (pipeline_matches cs event) eqn:Hpasses; [|done].
    unfold on_change. destruct (operationType event); [|done].
    destruct (fullDocument event) as [document|] eqn:Hdoc; [|done].
    destruct (ev_nsp document) as [nsp1|]; [|done]. cbn [mbind option_bind].
    destruct (adapters (node nw) !! nsp1) as [adapter|] eqn:Hlookup; [|done].
    cbn [fmap option_fmap option_map node adapters]. apply Hinsert; [|done].
    destruct (Hall nsp1 adapter Hlookup) as (Hself & Hemitter & Hempty).
    unfold never_tracked. rewrite onEvent_nodesMap, observe_nodesMap. cbn [self].
    destruct (tracked_uid document) as [u|] eqn:Hu; [|done].
    apply tracked_uid_valid in Hu as (Huid & ? & ?).
    assert (u ≠ me).
    { intros ->. unfold pipeline_matches in Hpasses.
      apply bool_decide_eq_true in Hpasses. apply Hpasses.
      rewrite Hdoc. cbn. rewrite Huid, (Hstream cs eq_refl). done. }
    by rewrite !lookup_insert_ne.
  - cbn. unfold node_close. intros nsp a.
    destruct (_ =? _)%nat; cbn; intros Hlookup;
      apply lookup_delete_Some in Hlookup as [_ Hlookup]; by apply (Hall nsp).
  - cbn. unfold on_error. by destruct resumable.
  - done.
  - cbn. unfold initChangeStream. by destruct (_ || _).
Qed.

(** X5: in every state a node can reach, no adapter of the node holds the
    node's own uid, the emitter's uid or the empty uid in its [nodesMap]: the
    change stream never delivers the node's own documents, and [onEvent] skips
    the other two.  So the 1 of [serverCount()] stands for the node and every
    counted peer is another process. *)
Theorem node_never_counts_itself (o : MongoAdapterOptions) (randomId : string)
    (c : Collection) (steps : list NodeStep) (nsp : string) (a : MongoAdapter) :
  adapters (node (node_run steps (node_start o randomId c))) !! nsp = Some a →
  nodesMap a !! or_default_string (opt_uid o) randomId = None
  ∧ nodesMap a !! EMITTER_UID = None
  ∧ nodesMap a !! "" = None.
Proof.
  set (me := or_default_string (opt_uid o) randomId).
  assert (Hinv : ∀ steps nw,
    node_wf (node nw) → opt_uid (opts (node nw)) = Some me →
    (∀ nsp a, adapters (node nw) !! nsp = Some a → never_tracked me a) →
    ∀ nsp a, adapters (node (node_run steps nw)) !! nsp = Some a → never_tracked me a).
  { clear. induction steps as [|s steps IH]; intros nw Hwf Hme Hall; [done|].
    change (node_run (s :: steps) nw) with (node_run steps (node_step nw s)).
    apply IH.
    - by apply node_step_wf.
    - by rewrite node_step_opts.
    - by apply node_step_never_tracked. }
  apply (Hinv steps (node_start o randomId c)).
  - apply node_start_wf.
  - done.
  - intros nsp0 a0 Hlookup. cbn in Hlookup. by rewrite lookup_empty in Hlookup.
Qed.

(** *** Requests that complete *)

Lemma settle_complete requestId request args items w :
  requests_wf (self w) →
  requests (self w) !! requestId = Some request →
  S (current request) = expected request →
  let w' := settle requestId (add_response items request) args w in
  trace w' = trace w ++ [Call (resolve request) args]
  ∧ requests (self w') !! requestId = None
  ∧ timers (self w') !! requestId = None
  ∧ mongoCollection w' = mongoCollection w.
Proof.
  intros Hwf Hreq Hlast. unfold settle.
  destruct (_ =? _)%nat eqn:Heq; [|apply Nat.eqb_neq in Heq; cbn in Heq; lia].
  cbn. rewrite (Hwf _ _ Hreq), !lookup_delete_eq. done.
Qed.

Lemma onEvent_last_response now io localSockets document requestId request w :
  requests_wf (self w) →
  requests (self w) !! requestId = Some request →
  S (current request) = expected request →
  let w' := onEvent now io localSockets document w in
  (∀ sockets, data document = FetchSocketsResponseData requestId sockets →
     trace w' = trace w ++ [Call (resolve request) [JsArray (responses request ++ sockets)]]
     ∧ requests (self w') !! requestId = None
     ∧ timers (self w') !! requestId = None)
  ∧ (∀ value, data document = ServerSideEmitResponseData requestId value →
       trace w' = trace w ++
         [Call (resolve request) [JsNull; JsArray (responses request ++ [value])]]
       ∧ requests (self w') !! requestId = None
       ∧ timers (self w') !! requestId = None).
Proof.
  intros Hwf Hreq Hlast. cbn zeta. unfold onEvent.
  set (w0 := with_self (observe now document) w).
  assert (Hreq0 : requests (self w0) !! requestId = Some request).
  { subst w0. cbn. by rewrite (proj1 (observe_keeps_requests now document (self w))). }
  assert (Hwf0 : requests_wf (self w0)).
  { revert Hwf. apply requests_wf_same, observe_keeps_requests. }
  assert (Htrace : trace w0 = trace w) by done.
  clearbody w0. split.
  - intros sockets ->. rewrite Hreq0.
    destruct (settle_complete requestId request
                [JsArray (responses (add_response sockets request))] sockets w0)
      as (Ht & Hr & Htm & _); try done.
    rewrite Ht, Htrace. done.
  - intros value ->. rewrite Hreq0.
    destruct (settle_complete requestId request
                [JsNull; JsArray (responses (add_response [value] request))] [value] w0)
      as (Ht & Hr & Htm & _); try done.
    rewrite Ht, Htrace. done.
Qed.

(** X6: when the last of the expected responses arrives, the request ends
    successfully: the promise of [fetchSockets] is resolved with the local
    sockets followed by the sockets of all the responses in arrival order, the
    callback of [serverSideEmit] is called with [null] and all the response
    values; the deadline timer is cancelled and the request forgotten, so the
    deadline passing later does nothing. *)
Theorem last_response_completes_request (now now' later : Z) (requestId : string)
    (io io' : InsertOutcome) (localSockets packet localSockets' : list JsValue)
    (ack : Callback) (opts : BroadcastOptions) (deliveries : list Delivery)
    (fetched emitted : AdapterEvent) (sockets : list JsValue) (value : JsValue)
    (w : World) :
  requests_wf (self w) →
  onlyLocal opts = false →
  S (length (responses_to requestId deliveries))
    = (getExpectedResponseCount now (self w)).1 →
  data fetched = FetchSocketsResponseData requestId sockets →
  data emitted = ServerSideEmitResponseData requestId value →
  let fetching :=
    onEvents deliveries (fetchSockets now requestId io localSockets opts w).2 in
  let fetch_done := onEvent now' io' localSockets' fetched fetching in
  let emitting :=
    onEvents deliveries (serverSideEmitWithAck now requestId io packet ack w) in
  let emit_done := onEvent now' io' localSockets' emitted emitting in
  trace fetch_done
    = trace fetching ++
        [Call (PromiseResolve requestId)
           [JsArray (localSockets ++ concat (responses_to requestId deliveries)
                       ++ sockets)]]
  ∧ requests (self fetch_done) !! requestId = None
  ∧ onTimeout later requestId fetch_done = fetch_done
  ∧ trace emit_done
    = trace emitting ++
        [Call ack [JsNull;
                   JsArray (concat (responses_to requestId deliveries) ++ [value])]]
  ∧ requests (self emit_done) !! requestId = None
  ∧ onTimeout later requestId emit_done = emit_done.
Proof.
  intros Hwf Hlocal Hcount Hfetched Hemitted fetching fetch_done emitting emit_done.
  assert (Hpeers : (getExpectedResponseCount now (self w)).1 ≠ 0%nat) by lia.
  destruct (fetchSockets_registers now requestId io localSockets opts w Hwf Hlocal Hpeers)
    as (_ & Hreq & Htimer & Hwf1).
  destruct (onEvents_pending_request requestId deliveries _ _ _ Hwf1 Hreq Htimer)
    as (Hreq' & _ & Hwf1'); [cbn [current expected]; lia|].
  destruct (serverSideEmitWithAck_registers now requestId io packet ack w Hwf Hpeers)
    as (Hreq2 & Htimer2 & Hwf2).
  destruct (onEvents_pending_request requestId deliveries _ _ _ Hwf2 Hreq2 Htimer2)
    as (Hreq2' & _ & Hwf2'); [cbn [current expected]; lia|].
  match type of Hreq' with _ = Some (add_responses ?rs ?r) =>
    destruct (add_responses_fields rs r) as (Hc & He & Hrs & Hres & _) end.
  match type of Hreq2' with _ = Some (add_responses ?rs ?r) =>
    destruct (add_responses_fields rs r) as (Hc2 & He2 & Hrs2 & Hres2 & _) end.
  destruct (onEvent_last_response now' io' localSockets' fetched requestId _ fetching
              Hwf1' Hreq') as [Hdone _]; [rewrite Hc, He; cbn [current expected]; lia|].
  destruct (Hdone sockets Hfetched) as (Ht & Hr & Htm).
  destruct (onEvent_last_response now' io' localSockets' emitted requestId _ emitting
              Hwf2' Hreq2') as [_ Hdone2]; [rewrite Hc2, He2; cbn [current expected]; lia|].
  destruct (Hdone2 value Hemitted) as (Ht2 & Hr2 & Htm2).
  rewrite Hrs, Hres in Ht. rewrite Hrs2, Hres2 in Ht2. cbn in Ht, Ht2.
  rewrite <- app_assoc in Ht.
  repeat split; try done.
  - unfold onTimeout. subst fetch_done. by rewrite Htm.
  - unfold onTimeout. subst emit_done. by rewrite Htm2.
Qed.

(** *** Records nobody waits for *)

Lemma onEvent_unmatched_response now io localSockets document requestId items w :
  response_to (data document) = Some (requestId, items) →
  requests (self w) !! requestId = None →
  onEvent now io localSockets document w = with_self (observe now document) w.
Proof.
  intros Hresponse Hnone. unfold onEvent.
  assert (Hnone' : requests (self (with_self (observe now document) w)) !! requestId
                   = None).
  { cbn. by rewrite (proj1 (observe_keeps_requests now document (self w))). }
  destruct (data document); try discriminate Hresponse;
    cbn in Hresponse; injection Hresponse as -> _; by rewrite Hnone'.
Qed.

(** X7: a response that arrives after its request has timed out, or for a
    request this adapter never made, is dropped: the adapter only notes that
    the sender is alive, no callback runs and nothing is published. *)
Theorem late_response_is_dropped (now later : Z) (io : InsertOutcome)
    (localSockets items : list JsValue) (document : AdapterEvent)
    (requestId : string) (request : Request) (t : Timer) (w : World) :
  response_to (data document) = Some (requestId, items) →
  (requests (self w) !! requestId = None →
   onEvent now io localSockets document w = with_self (observe now document) w)
  ∧ (requests (self w) !! requestId = Some request →
     timers (self w) !! requestId = Some t →
     callback t ≠ AckRequestCleanup →
     deadline t ≤ later →
     onEvent now io localSockets document (onTimeout later requestId w)
       = with_self (observe now document) (onTimeout later requestId w)).
Proof.
  intros Hresponse. split.
  - by apply (onEvent_unmatched_response _ _ _ _ requestId items).
  - intros Hreq Htimer Hkind Hdue.
    apply (onEvent_unmatched_response _ _ _ _ requestId items); [done|].
    destruct (onTimeout_pending_request later requestId w request t Hreq Htimer Hdue)
      as [_ Hgone].
    destruct (callback t); [apply Hgone|apply Hgone|done].
Qed.

(** *** Acknowledged broadcasts *)

Lemma onEvent_ackRequests now io localSockets document w :
  ackRequests (self (onEvent now io localSockets document w)) = ackRequests (self w).
Proof.
  unfold onEvent.
  assert (Hobs : ackRequests (observe now document (self w)) = ackRequests (self w)).
  { unfold observe. split_cases. }
  set (w0 := with_self (observe now document) w).
  change (ackRequests (observe now document (self w))) with (ackRequests (self w0))
    in Hobs.
  rewrite <- Hobs. clearbody w0.
  assert (Hpub : ∀ d w1, ackRequests (self (publish now io d w1).2)
                         = ackRequests (self w1)).
  { intros d w1. unfold publish. split_cases. }
  destruct (data document); cbn; rewrite ?Hpub; try done.
  all: unfold settle; split_cases.
Qed.

Lemma onEvents_ackRequests deliveries : ∀ w,
  ackRequests (self (onEvents deliveries w)) = ackRequests (self w).
Proof.
  induction deliveries as [|d ds IH]; intros w; [done|].
  change (onEvents (d :: ds) w)
    with (onEvents ds (onEvent (delivered_at d) (delivery_io d)
                         (delivery_localSockets d) (delivered d) w)).
  by rewrite IH, onEvent_ackRequests.
Qed.

Lemma onEvent_ack_records now io localSockets document requestId w :
  let w' := onEvent now io localSockets document w in
  (∀ count, data document = BroadcastClientCountData requestId count →
     trace w' = trace w ++
       match ackRequests (self w) !! requestId with
       | Some r => [Call (clientCountCallback r) [JsNumber count]]
       | None => []
       end)
  ∧ (∀ value, data document = BroadcastAckData requestId value →
       trace w' = trace w ++
         match ackRequests (self w) !! requestId with
         | Some r => [Call (ack r) [value]]
         | None => []
         end).
Proof.
  cbn zeta. unfold onEvent.
  assert (Hobs : ackRequests (observe now document (self w)) = ackRequests (self w)).
  { unfold observe. split_cases. }
  split.
  - intros count ->. cbn. rewrite Hobs.
    destruct (ackRequests (self w) !! requestId); cbn; by rewrite ?app_nil_r.
  - intros value ->. cbn. rewrite Hobs.
    destruct (ackRequests (self w) !! requestId); cbn; by rewrite ?app_nil_r.
Qed.

(** X8: after [broadcastWithAck] on the cluster, every BROADCAST_CLIENT_COUNT
    record carrying the request id calls the client-count callback and every
    BROADCAST_ACK record calls the acknowledgement callback, whatever other
    events come in between, until the timeout of the broadcast flags has
    passed.  From then on the request is forgotten and such records call
    nothing. *)
Theorem acknowledgements_until_timeout (now now' later : Z) (requestId : string)
    (io io' : InsertOutcome) (packet : Packet) (opts : BroadcastOptions)
    (f : BroadcastFlags) (clientCountCallback ack : Callback)
    (deliveries : list Delivery) (localSockets : list JsValue)
    (counted acked : AdapterEvent) (count : Z) (value : JsValue) (w : World) :
  onlyLocal opts = false →
  flags opts = Some f →
  data counted = BroadcastClientCountData requestId count →
  data acked = BroadcastAckData requestId value →
  let waiting :=
    onEvents deliveries
      (broadcastWithAck now requestId io packet opts clientCountCallback ack w).2 in
  trace (onEvent now' io' localSockets counted waiting)
    = trace waiting ++ [Call clientCountCallback [JsNumber count]]
  ∧ trace (onEvent now' io' localSockets acked waiting)
    = trace waiting ++ [Call ack [value]]
  ∧ (now + default 0 (timeout f) ≤ later →
     let forgotten :=
       onTimeout later requestId
         (broadcastWithAck now requestId io packet opts clientCountCallback ack w).2 in
     ackRequests (self forgotten) !! requestId = None
     ∧ trace (onEvent now' io' localSockets counted forgotten) = trace forgotten
     ∧ trace (onEvent now' io' localSockets acked forgotten) = trace forgotten)
  ∧ (later < now + default 0 (timeout f) →
     onTimeout later requestId
       (broadcastWithAck now requestId io packet opts clientCountCallback ack w).2
     = (broadcastWithAck now requestId io packet opts clientCountCallback ack w).2).
Proof.
  intros Hlocal Hflags Hcounted Hacked waiting.
  set (w1 := (broadcastWithAck now requestId io packet opts clientCountCallback ack w).2).
  assert (Hack : ackRequests (self w1) !! requestId
                 = Some {| ack_type := BROADCAST;
                           clientCountCallback := clientCountCallback; ack := ack |}).
  { subst w1. unfold broadcastWithAck. rewrite Hlocal, Hflags. cbn.
    apply lookup_insert_eq. }
  assert (Htimer : timers (self w1) !! requestId
                   = Some {| deadline := now + default 0 (timeout f);
                             callback := AckRequestCleanup |}).
  { subst w1. unfold broadcastWithAck. rewrite Hlocal, Hflags. cbn.
    apply lookup_insert_eq. }
  assert (Hwaiting : ackRequests (self waiting) !! requestId
                     = Some {| ack_type := BROADCAST;
                               clientCountCallback := clientCountCallback;
                               ack := ack |}).
  { subst waiting. fold w1. by rewrite onEvents_ackRequests. }
  destruct (onEvent_ack_records now' io' localSockets counted requestId waiting)
    as [Hc _].
  destruct (onEvent_ack_records now' io' localSockets acked requestId waiting)
    as [_ Ha].
  rewrite (Hc count Hcounted), (Ha value Hacked), Hwaiting.
  split; [done|]. split; [done|]. split.
  - intros Hdue forgotten.
    assert (Hgone : ackRequests (self forgotten) !! requestId = None).
    { subst forgotten. unfold onTimeout. rewrite Htimer. cbn [deadline callback].
      rewrite bool_decide_true by done. cbn. apply lookup_delete_eq. }
    destruct (onEvent_ack_records now' io' localSockets counted requestId forgotten)
      as [Hc' _].
    destruct (onEvent_ack_records now' io' localSockets acked requestId forgotten)
      as [_ Ha'].
    rewrite (Hc' count Hcounted), (Ha' value Hacked), Hgone, app_nil_r. done.
  - intros Hearly. unfold onTimeout. rewrite Htimer. cbn [deadline].
    rewrite bool_decide_false by lia. done.
Qed.

(** *** Offsets for connection state recovery *)

Lemma addOffsetIfNecessary_cases a packet opts offset :
  let recoverable :=
    connectionStateRecovery a
    && (packet_type packet =? 2) && bool_decide (packet_id packet = None)
    && match flags opts with
       | Some f => bool_decide (volatile f = None)
       | None => true
       end in
  addOffsetIfNecessary a packet opts offset
    = if recoverable then
        match packet_data packet with
        | Some d => Some {| packet_type := packet_type packet;
                            packet_id := packet_id packet;
                            packet_data := Some (d ++ [offset]) |}
        | None => None
        end
      else Some packet.
Proof.
  cbn zeta. unfold addOffsetIfNecessary.
  destruct (connectionStateRecovery a); [|done]. cbn [negb andb].
  by destruct (_ && _ && _).
Qed.

(** X9: a broadcast is stored as it was given; the offset is added only to
    what is delivered.  With connection state recovery enabled, an event
    packet (type 2) without acknowledgement id and not volatile is delivered
    with the id of its record appended to its data, on the node that sent it
    (as a hexadecimal string) and on every peer (as the ObjectId); any
    other packet, and every packet when recovery is disabled, is delivered
    unchanged. *)
Theorem offset_is_added_on_delivery (now now' : Z) (id : ObjectId)
    (io' : InsertOutcome) (localSockets : list JsValue) (packet : Packet)
    (opts : BroadcastOptions) (w peer : World) :
  onlyLocal opts = false →
  isClosed (self w) = false →
  let record :=
    stamp now id (self w) (BroadcastData packet None (serializeOptions opts)) in
  let sent := (broadcast now (Inserted id) packet opts w).2 in
  let received := onEvent now' io' localSockets record peer in
  let eligible :=
    (packet_type packet =? 2) && bool_decide (packet_id packet = None)
    && match flags opts with
       | Some f => bool_decide (volatile f = None)
       | None => true
       end in
  let with_offset offset d :=
    {| packet_type := packet_type packet; packet_id := packet_id packet;
       packet_data := Some (d ++ [offset]) |} in
  mongoCollection sent = mongoCollection w ++ [record]
  ∧ (connectionStateRecovery (self w) && eligible = false →
     trace sent = trace w ++ [SuperBroadcast packet opts])
  ∧ (connectionStateRecovery (self peer) && eligible = false →
     trace received
       = trace peer ++ [SuperBroadcast packet (deserializeOptions (serializeOptions opts))])
  ∧ (∀ d, packet_data packet = Some d →
       (connectionStateRecovery (self w) && eligible = true →
        trace sent
          = trace w ++ [SuperBroadcast (with_offset (JsString (ObjectId_toHex id)) d) opts])
       ∧ (connectionStateRecovery (self peer) && eligible = true →
          trace received
            = trace peer ++
                [SuperBroadcast (with_offset (JsObjectId id) d)
                   (deserializeOptions (serializeOptions opts))])).
Proof.
  intros Hlocal Hopen record sent received eligible with_offset.
  assert (Hsent : sent =
    match addOffsetIfNecessary (self w) packet opts (JsString (ObjectId_toHex id)) with
    | Some packet' =>
        emit_effect (SuperBroadcast packet' opts)
          (with_collection (insertOne record) (with_self (scheduleHeartbeat now) w))
    | None => with_collection (insertOne record) (with_self (scheduleHeartbeat now) w)
    end).
  { subst sent. unfold broadcast, publish. rewrite Hlocal, Hopen.
    cbn [snd self with_self with_collection].
    rewrite !addOffsetIfNecessary_cases. cbn [connectionStateRecovery scheduleHeartbeat
      set_heartbeatTimer].
    destruct (_ && _ && _ && _); [destruct (packet_data packet)|]; try done. }
  assert (Hreceived : received =
    match addOffsetIfNecessary (self peer) packet
            (deserializeOptions (serializeOptions opts)) (JsObjectId id) with
    | Some packet' =>
        emit_effect
          (SuperBroadcast packet' (deserializeOptions (serializeOptions opts)))
          (with_self (observe now' record) peer)
    | None => with_self (observe now' record) peer
    end).
  { subst received. unfold onEvent. cbn [data record stamp].
    rewrite !addOffsetIfNecessary_cases.
    assert (Hobs : connectionStateRecovery (self (with_self (observe now' record) peer))
                   = connectionStateRecovery (self peer)).
    { cbn. unfold observe. split_cases. }
    rewrite Hobs. done. }
  clearbody sent received. subst sent received eligible with_offset.
  rewrite !addOffsetIfNecessary_cases.
  change (flags (deserializeOptions (serializeOptions opts))) with (flags opts).
  rewrite <- !andb_assoc.
  destruct (connectionStateRecovery (self w)), (connectionStateRecovery (self peer)),
    (packet_type packet =? 2), (bool_decide (packet_id packet = None)),
    (match flags opts with Some f => bool_decide (volatile f = None) | None => true end),
    (packet_data packet);
    cbn; repeat split; try done; try (intros ? [= <-]; split; done);
    try (intros ? ?; split; done).
  all: match goal with H : Some _ = Some _ |- _ => by injection H as -> end.
Qed.

(** *** Sessions *)

Lemma findOne_None (query : AdapterEvent → bool) c :
  findOne query c = None ↔ ∀ d, d ∈ c → query d = false.
Proof.
  unfold findOne, find. rewrite head_None. split.
  - intros Hnil d Hd. destruct (query d) eqn:Hq; [|done].
    assert (Hin : d ∈ filter (λ d, query d) c).
    { apply list_elem_of_filter. by rewrite Hq. }
    rewrite Hnil in Hin. by apply not_elem_of_nil in Hin.
  - intros Hall. induction c as [|x c IH]; [done|].
    rewrite filter_cons_False.
    + apply IH. intros d Hd. apply Hall. by right.
    + rewrite (Hall x) by left. cbn. tauto.
Qed.

Lemma findOneAndDelete_app_last (query : AdapterEvent → bool) c d :
  findOne query c = None → query d = true →
  findOneAndDelete query (c ++ [d]) = (Some d, c).
Proof.
  rewrite findOne_None. intros Hnone Hd.
  induction c as [|x c IH]; cbn.
  - by rewrite Hd.
  - rewrite (Hnone x) by left. rewrite IH; [done|].
    intros y Hy. apply Hnone. by right.
Qed.

Lemma findOne_app_l (query : AdapterEvent → bool) c l x :
  findOne query c = Some x → findOne query (c ++ l) = Some x.
Proof.
  unfold findOne, find. rewrite filter_app.
  destruct (filter (λ d, query d) c); [done|]. done.
Qed.

(** X10: a session persisted on an open adapter, when the store held no
    record for its private id, is given back by [restoreSession] with its
    sid, rooms and data as they were persisted and with the packets missed
    since the offset; the store is then back to what it was before the
    session was persisted. *)
Theorem persisted_session_is_restored (now : Z) (id : ObjectId) (io : RestoreIo)
    (session : Session) (offset : string) (w : World) :
  isClosed (self w) = false →
  findOne (session_query (pid session)) (mongoCollection w) = None →
  ObjectId_isValid offset = true →
  is_Some (findOne (offset_query (ObjectId_fromString offset)) (mongoCollection w)) →
  io_findOneAndDelete io = true → io_findOne io = true → io_find io = true →
  let persisted := persistSession now (Inserted id) session w in
  mongoCollection persisted
    = mongoCollection w ++ [stamp now id (self w) (SessionData session)]
  ∧ restoreSession io (pid session) offset persisted
    = (Resolved
         (set_missedPackets
            (omap (λ d, data_packet_data (data d))
               (filter (replayed (nsp_name (self w)) (ObjectId_fromString offset)
                          (session_rooms session))
                  (mongoCollection w)))
            session),
       with_collection (λ _, mongoCollection w) persisted).
Proof.
  intros Hopen Hfresh Hvalid [o Ho] Hio1 Hio2 Hio3 persisted.
  assert (Hpersisted : persisted =
    with_collection (insertOne (stamp now id (self w) (SessionData session)))
      (with_self (scheduleHeartbeat now) w)).
  { subst persisted. unfold persistSession, publish. by rewrite Hopen. }
  clearbody persisted. subst persisted. split; [done|].
  unfold restoreSession. rewrite Hvalid, Hio1, Hio2, Hio3.
  cbn [negb andb mongoCollection with_collection with_self insertOne].
  unfold insertOne. rewrite (findOneAndDelete_app_last _ _ _ Hfresh).
  2:{ unfold session_query, ev_type. cbn. by rewrite !bool_decide_true. }
  rewrite (findOne_app_l _ _ _ _ Ho). cbn [data stamp data_session].
  do 2 f_equal. f_equal. f_equal. unfold find.
  apply list_filter_iff. intros d. rewrite Is_true_true. apply missed_query_spec.
Qed.

(** X11: [restoreSession] changes nothing but the store, and in the store
    nothing but one session record of the private id: the adapter and its
    outside calls are as before and every other record stays in place.  The
    session record is deleted as soon as the offset is well formed and the
    delete command succeeds, whatever the outcome: when the record at the
    offset is missing the call is rejected with "session or offset not found"
    and the session is lost all the same. *)
Theorem restoreSession_only_consumes (io : RestoreIo) (privateId offset : string)
    (w : World) :
  let r := restoreSession io privateId offset w in
  let deleted := (findOneAndDelete (session_query privateId) (mongoCollection w)).2 in
  self r.2 = self w
  ∧ trace r.2 = trace w
  ∧ filter (λ d, ¬ session_query privateId d) (mongoCollection r.2)
    = filter (λ d, ¬ session_query privateId d) (mongoCollection w)
  ∧ mongoCollection r.2
    = (if ObjectId_isValid offset && io_findOneAndDelete io
       then deleted else mongoCollection w)
  ∧ (ObjectId_isValid offset = true →
     io_findOneAndDelete io = true → io_findOne io = true →
     is_Some (findOne (session_query privateId) (mongoCollection w)) →
     findOne (offset_query (ObjectId_fromString offset)) (mongoCollection w) = None →
     r.1 = Rejected session_not_found
     ∧ length (filter (λ d, session_query privateId d) (mongoCollection r.2))
       = Nat.pred (length (filter (λ d, session_query privateId d) (mongoCollection w)))).
Proof.
  cbn zeta.
  assert (Hshape : ∃ outcome,
    restoreSession io privateId offset w
    = (outcome,
       with_collection
         (λ _, if ObjectId_isValid offset && io_findOneAndDelete io
               then (findOneAndDelete (session_query privateId) (mongoCollection w)).2
               else mongoCollection w) w)).
  { unfold restoreSession.
    destruct (ObjectId_isValid offset); cbn [negb andb].
    - destruct (io_findOneAndDelete io); cbn [andb negb].
      + destruct (findOneAndDelete _ _) as [found c1]. cbn [snd].
        destruct (io_findOne io); cbn [negb]; [|by eexists].
        destruct found as [value|]; [|by eexists].
        destruct (findOne (offset_query _) _); [|by eexists].
        destruct (data_session (data value)); [|by eexists].
        destruct (io_find io); by eexists.
      + destruct w. by eexists.
    - destruct w. by eexists. }
  destruct Hshape as [outcome Hshape]. rewrite Hshape. cbn [fst snd].
  split; [done|]. split; [done|]. split; [|split; [done|]].
  - cbn [mongoCollection with_collection].
    destruct (_ && _); [|done].
    apply findOneAndDelete_filter_disjoint. intros d Hd Hnot. apply Hnot.
    by rewrite Hd.
  - intros Hvalid Hio1 Hio2 [value Hvalue] Hmissing.
    pose proof (findOneAndDelete_matches (session_query privateId) (mongoCollection w))
      as Hcount.
    pose proof (findOneAndDelete_fst (session_query privateId) (mongoCollection w))
      as Hfst.
    rewrite Hvalue in Hfst. rewrite Hfst in Hcount.
    rewrite Hvalid, Hio1. cbn [andb mongoCollection with_collection].
    split; [|exact Hcount].
    assert (Hout : outcome = (restoreSession io privateId offset w).1)
      by (by rewrite Hshape).
    rewrite Hout. unfold restoreSession.
    rewrite Hvalid, Hio1, Hio2, Hmissing. cbn [negb andb].
    destruct (findOneAndDelete _ _) as [found c1]. by destruct found.
Qed.

(** *** The change stream of a node: cursor, shutdown, dispatch *)

Lemma on_change_insert now io localSockets event nw :
  operationType event = insert →
  let nw' := on_change now io localSockets event nw in
  resumeToken (node nw') = Some (event_token event)
  ∧ changeStream (node nw') = changeStream (node nw)
  ∧ node_isClosed (node nw') = node_isClosed (node nw)
  ∧ opts (node nw') = opts (node nw).
Proof.
  intros Hinsert. cbn zeta. unfold on_change. rewrite Hinsert.
  destruct (fullDocument event) as [document|]; [|done].
  by destruct (ev_nsp document ≫= _) as [[]|].
Qed.

(** X12: the node remembers the position of the last insert it was sent.
    When the stream closes and is opened again, the new stream excludes
    the node's own uid as before and resumes after that position; after an
    error that is not resumable it starts from now instead.  A change that is
    not an insert neither moves the position nor reaches an adapter, and
    while the stream is open [initChangeStream] does nothing. *)
Theorem reconnection_resumes_after_last_insert (now : Z) (io : InsertOutcome)
    (localSockets : list JsValue) (event : ChangeEvent) (nw : NodeWorld)
    (cs : ChangeStream) :
  node_isClosed (node nw) = false →
  changeStream (node nw) = Some cs →
  closed cs = false →
  pipeline_matches cs event = true →
  let delivered := node (changeStream_deliver now io localSockets event nw) in
  let reopened_after resumeAfter :=
    Some {| closed := false; match_ne_uid := opt_uid (opts (node nw));
            resumeAfter := resumeAfter |} in
  initChangeStream (node nw) = node nw
  ∧ (operationType event = other_operation →
     changeStream_deliver now io localSockets event nw = nw)
  ∧ (operationType event = insert →
     changeStream (initChangeStream (on_close delivered))
       = reopened_after (Some (event_token event))
     ∧ changeStream (initChangeStream (on_close (on_error true delivered)))
       = reopened_after (Some (event_token event))
     ∧ changeStream (initChangeStream (on_close (on_error false delivered)))
       = reopened_after None).
Proof.
  intros Hopen Hcs Hnotclosed Hpasses delivered reopened_after.
  split; [|split].
  - unfold initChangeStream, stream_is_open. by rewrite Hcs, Hnotclosed, orb_true_r.
  - intros Hother. unfold changeStream_deliver.
    rewrite Hcs, Hnotclosed, Hpasses. cbn. unfold on_change. by rewrite Hother.
  - intros Hinsert.
    assert (Hdelivered : delivered = node (on_change now io localSockets event nw)).
    { subst delivered. unfold changeStream_deliver.
      by rewrite Hcs, Hnotclosed, Hpasses. }
    destruct (on_change_insert now io localSockets event nw Hinsert)
      as (Htoken & Hstream & Hclosed & Hopts).
    rewrite <- Hdelivered in Htoken, Hstream, Hclosed, Hopts.
    clearbody delivered.
    unfold initChangeStream, on_close, on_error, stream_is_open. cbn.
    by rewrite Hstream, Hcs, Hclosed, Hopen, Htoken, Hopts.
Qed.

(** X13: closing the adapter of the last namespace closes the change stream
    for good: a reconnection attempt that was still scheduled does nothing and
    no change is dispatched any more.  Closing one adapter out of several
    leaves the stream alone.  When an adapter is created again afterwards, a
    new stream is opened that resumes after the last position seen. *)
Theorem closing_the_last_adapter_stops_the_stream (now now' : Z)
    (io io' : InsertOutcome) (localSockets : list JsValue) (event : ChangeEvent)
    (nsp nsp' : string) (recovery : bool) (nw : NodeWorld) :
  let stopped := with_node (node_close nsp) nw in
  (size (delete nsp (adapters (node nw))) ≠ 0%nat →
     changeStream (node stopped) = changeStream (node nw)
     ∧ node_isClosed (node stopped) = node_isClosed (node nw))
  ∧ (size (delete nsp (adapters (node nw))) = 0%nat →
     changeStream (node stopped) = None
     ∧ node_isClosed (node stopped) = true
     ∧ initChangeStream (node stopped) = node stopped
     ∧ changeStream_deliver now io localSockets event stopped = stopped
     ∧ changeStream (node (adapterFactory now' io' nsp' recovery stopped))
       = Some {| closed := false; match_ne_uid := opt_uid (opts (node nw));
                 resumeAfter := resumeToken (node nw) |}
     ∧ node_isClosed (node (adapterFactory now' io' nsp' recovery stopped)) = false
     ∧ is_Some (adapters (node (adapterFactory now' io' nsp' recovery stopped)) !! nsp')).
Proof.
  cbn zeta. unfold with_node, node_close. cbn [node]. split.
  - intros Hmore. apply Nat.eqb_neq in Hmore. by rewrite Hmore.
  - intros Hlast. apply Nat.eqb_eq in Hlast. rewrite Hlast. cbn.
    repeat split; try done.
    rewrite lookup_insert_eq. by eexists.
Qed.

(** X14: a change is handed to the adapter registered for the namespace of
    its document and to no other: the adapters of the other namespaces are
    left as they were, and a document for a namespace without adapter only
    moves the resume position. *)
Theorem delivery_reaches_one_namespace (now : Z) (io : InsertOutcome)
    (localSockets : list JsValue) (event : ChangeEvent) (nw : NodeWorld)
    (other : string) :
  let nw' := changeStream_deliver now io localSockets event nw in
  (fullDocument event ≫= ev_nsp ≠ Some other →
   adapters (node nw') !! other = adapters (node nw) !! other)
  ∧ (fullDocument event ≫= ev_nsp = Some other →
     adapters (node nw) !! other = None →
     adapters (node nw') = adapters (node nw)
     ∧ node_collection nw' = node_collection nw
     ∧ node_trace nw' = node_trace nw)
  ∧ (fullDocument event ≫= ev_nsp = None →
     adapters (node nw') = adapters (node nw)
     ∧ node_collection nw' = node_collection nw
     ∧ node_trace nw' = node_trace nw).
Proof.
  cbn zeta. unfold changeStream_deliver.
  destruct (changeStream (node nw)) as [cs|]; [|done].
  destruct (_ && _); [|done]. unfold on_change.
  destruct (operationType event); [|done].
  destruct (fullDocument event) as [document|]; [|done]. cbn [mbind option_bind].
  destruct (ev_nsp document) as [nsp|]; [|done]. cbn [mbind option_bind].
  destruct (adapters (node nw) !! nsp) as [adapter|] eqn:Hlookup; cbn.
  - split; [|split].
    + intros Hne. rewrite lookup_insert_ne; [done|congruence].
    + intros [= ->] Hnone. congruence.
    + done.
  - done.
Qed.

(** *** Binary values of a received document *)

Lemma bson_get_replaced k fields :
  bson_get k (map (λ kv, (kv.1, replaceBinaryObjectsByBuffers kv.2)) fields)
  = replaceBinaryObjectsByBuffers <$> bson_get k fields.
Proof.
  induction fields as [|[k' v] fields IH]; [done|]. cbn.
  by destruct (bool_decide (k' = k)).
Qed.

Lemma replaced_string obj t :
  replaceBinaryObjectsByBuffers obj = BsonPrimitive (PString t) →
  obj = BsonPrimitive (PString t).
Proof.
  destruct obj as [v|bytes|items|fields]; cbn; try done.
  by destruct (binary_buffer fields).
Qed.

Lemma binary_buffer_replaced fields :
  bson_get "_bsontype" fields ≠ Some (BsonPrimitive (PString "Binary")) →
  binary_buffer (map (λ kv, (kv.1, replaceBinaryObjectsByBuffers kv.2)) fields) = None.
Proof.
  intros Htag. unfold binary_buffer. rewrite !bson_get_replaced.
  destruct (bson_get "_bsontype" fields) as [tag|]; [|done]. cbn.
  destruct (replaceBinaryObjectsByBuffers tag) as [[| | | |t]| | |] eqn:Htagged; try done.
  apply replaced_string in Htagged as ->.
  destruct (replaceBinaryObjectsByBuffers <$> bson_get "buffer" fields) as [[]|]; try done.
  case_bool_decide; [|done]. congruence.
Qed.

Lemma replaceBinaryObjectsByBuffers_binary_free obj :
  binary_free obj → replaceBinaryObjectsByBuffers obj = obj.
Proof.
  induction obj as [v|bytes|items IH|fields IH] using BsonValue_nested_ind; try done.
  - intros Hfree. cbn. f_equal.
    induction IH as [|v items Hv _ IHitems]; [done|].
    destruct Hfree as [Hfree Hrest]. cbn. by rewrite Hv, IHitems.
  - intros [Hnone Hfree]. cbn. rewrite Hnone. f_equal. clear Hnone.
    induction IH as [|[k v] fields Hv _ IHfields]; [done|].
    destruct Hfree as [Hfree Hrest]. cbn in *. by rewrite Hv, IHfields.
Qed.

Lemma replaceBinaryObjectsByBuffers_makes_binary_free obj :
  binaries_hold_buffers obj → binary_free (replaceBinaryObjectsByBuffers obj).
Proof.
  induction obj as [v|bytes|items IH|fields IH] using BsonValue_nested_ind; try done.
  - intros Hheld. cbn.
    induction IH as [|v items Hv _ IHitems]; [done|].
    destruct Hheld as [Hheld Hrest]. cbn. split; [by apply Hv|by apply IHitems].
  - cbn. destruct (binary_buffer fields) as [bytes|] eqn:Hbinary; [done|].
    intros [Htag Hheld]. cbn. split; [by apply binary_buffer_replaced|].
    clear Htag Hbinary.
    induction IH as [|[k v] fields Hv _ IHfields]; [done|].
    destruct Hheld as [Hheld Hrest]. cbn in *. split; [by apply Hv|by apply IHfields].
Qed.

(** X15: [replaceBinaryObjectsByBuffers] returns a value that holds no
    [Binary] as it was given, and when every object tagged as a [Binary] holds a
    [Buffer] its result holds no [Binary] any more, so that replacing twice is
    replacing once.  A [Binary] itself is replaced by its buffer, whatever
    else it holds. *)
Theorem replaceBinaryObjectsByBuffers_removes_binaries (obj : BsonValue) :
  (binary_free obj → replaceBinaryObjectsByBuffers obj = obj)
  ∧ (binaries_hold_buffers obj →
     binary_free (replaceBinaryObjectsByBuffers obj)
     ∧ replaceBinaryObjectsByBuffers (replaceBinaryObjectsByBuffers obj)
       = replaceBinaryObjectsByBuffers obj)
  ∧ (∀ fields bytes,
       obj = BsonObject fields →
       bson_get "_bsontype" fields = Some (BsonPrimitive (PString "Binary")) →
       bson_get "buffer" fields = Some (BsonBuffer bytes) →
       replaceBinaryObjectsByBuffers obj = BsonBuffer bytes).
Proof.
  split; [apply replaceBinaryObjectsByBuffers_binary_free|split].
  - intros Hheld.
    pose proof (replaceBinaryObjectsByBuffers_makes_binary_free obj Hheld) as Hfree.
    split; [done|]. by apply replaceBinaryObjectsByBuffers_binary_free.
  - intros fields bytes -> Htag Hbuffer. cbn. unfold binary_buffer.
    by rewrite Htag, Hbuffer.
Qed.

(** *** From one adapter to another *)

Lemma options_round_trip (o : BroadcastOptions) :
  deserializeOptions (serializeOptions o)
  = {| rooms := rooms o; except := Some (default [] (except o)); flags := flags o |}.
Proof. unfold deserializeOptions, serializeOptions. cbn. by destruct (except o). Qed.

(** X16: a change of room membership or a disconnection requested on an open
    adapter without the [local] flag is applied to the local sockets with the
    caller's options and stored as one record; the adapter that receives the
    record applies the same operation with the same rooms and flags (a
    missing [except] arrives as the empty set), records the sender as a peer,
    and publishes nothing itself. *)
Theorem membership_changes_reach_the_peers (now now' : Z) (id : ObjectId)
    (io' : InsertOutcome) (localSockets : list JsValue) (o : BroadcastOptions)
    (rs : list Room) (close_connection : bool) (w peer : World) :
  onlyLocal o = false →
  isClosed (self w) = false →
  let received :=
    {| rooms := rooms o; except := Some (default [] (except o)); flags := flags o |} in
  let replicated (caller : World) (here there : Effect) (payload : EventData) :=
    let document := stamp now id (self w) payload in
    trace caller = trace w ++ [here]
    ∧ mongoCollection caller = mongoCollection w ++ [document]
    ∧ onEvent now' io' localSockets document peer
      = emit_effect there (with_self (observe now' document) peer) in
  replicated (addSockets now (Inserted id) o rs w)
    (SuperAddSockets o rs) (SuperAddSockets received rs)
    (SocketsJoinData (serializeOptions o) rs)
  ∧ replicated (delSockets now (Inserted id) o rs w)
      (SuperDelSockets o rs) (SuperDelSockets received rs)
      (SocketsLeaveData (serializeOptions o) rs)
  ∧ replicated (disconnectSockets now (Inserted id) o close_connection w)
      (SuperDisconnectSockets o close_connection)
      (SuperDisconnectSockets received close_connection)
      (DisconnectSocketsData (serializeOptions o) close_connection).
Proof.
  intros Hlocal Hopen. cbn zeta.
  unfold addSockets, delSockets, disconnectSockets, publish, onEvent.
  rewrite Hlocal. cbn. rewrite Hopen. cbn [snd mongoCollection trace with_collection
    with_self emit_effect insertOne].
  rewrite options_round_trip. done.
Qed.

(** X17: with exactly one live peer, [fetchSockets] stores one request
    record; the peer that receives it stores one response holding its local
    sockets in serialized form; and when that response comes back, the
    promise of [fetchSockets] is resolved with the caller's local sockets
    followed by the peer's, and the request is forgotten. *)
Theorem fetchSockets_round_trip (now now' now'' : Z) (requestId : string)
    (id id' : ObjectId) (io'' : InsertOutcome)
    (localSockets peerSockets localSockets'' : list JsValue)
    (o : BroadcastOptions) (w peer : World) :
  requests_wf (self w) →
  onlyLocal o = false →
  (getExpectedResponseCount now (self w)).1 = 1%nat →
  isClosed (self w) = false →
  isClosed (self peer) = false →
  let asked := (fetchSockets now requestId (Inserted id) localSockets o w).2 in
  let request := stamp now id (self w) (FetchSocketsData (serializeOptions o) requestId) in
  let answered := onEvent now' (Inserted id') peerSockets request peer in
  let response :=
    stamp now' id' (self peer)
      (FetchSocketsResponseData requestId (serializeSocket <$> peerSockets)) in
  let resolved := onEvent now'' io'' localSockets'' response asked in
  mongoCollection asked = mongoCollection w ++ [request]
  ∧ mongoCollection answered = mongoCollection peer ++ [response]
  ∧ trace resolved
    = trace asked ++
      [Call (PromiseResolve requestId)
         [JsArray (localSockets ++ (serializeSocket <$> peerSockets))]]
  ∧ requests (self resolved) !! requestId = None
  ∧ mongoCollection resolved = mongoCollection asked.
Proof.
  intros Hwf Hlocal Hone Hopen Hpeer. cbn zeta.
  destruct (fetchSockets_registers now requestId (Inserted id) localSockets o w)
    as (_ & Hrequest & _ & Hwf'); [done|done|by rewrite Hone|].
  rewrite Hone in Hrequest.
  split; [|split].
  - unfold fetchSockets. cbn in *. rewrite Hlocal, Hone. cbn.
    unfold publish. cbn. by rewrite Hopen.
  - unfold onEvent. cbn [data stamp].
    match goal with |- context [with_self ?f peer] => set (w0 := with_self f peer) end.
    assert (Hobserved : isClosed (self w0) = false ∧ uid (self w0) = uid (self peer)
              ∧ nsp_name (self w0) = nsp_name (self peer)
              ∧ addCreatedAtField (self w0) = addCreatedAtField (self peer)
              ∧ mongoCollection w0 = mongoCollection peer).
    { subst w0. cbn. unfold observe. cbn. by case_bool_decide. }
    destruct Hobserved as (Hopen0 & Huid & Hnsp & Hcreated & Hcollection).
    clearbody w0. unfold publish. cbn. rewrite Hopen0. cbn.
    unfold stamp. by rewrite Huid, Hnsp, Hcreated, Hcollection.
  - match goal with |- context [onEvent _ _ _ ?d ?a] =>
      destruct (onEvent_last_response now'' io'' localSockets'' d requestId _ a
                  Hwf' Hrequest eq_refl) as [Hfetch _];
      destruct (Hfetch (serializeSocket <$> peerSockets) eq_refl) as (Htrace & Hgone & _)
    end.
    split; [done|split; [done|]].
    unfold onEvent. cbn [data stamp].
    match goal with |- context [with_self ?f ?a] => set (w0 := with_self f a) end.
    assert (Hsame : mongoCollection w0
              = mongoCollection (fetchSockets now requestId (Inserted id) localSockets o w).2)
      by done.
    rewrite <- Hsame. clearbody w0.
    destruct (requests (self w0) !! requestId) as [request|]; [|done].
    unfold settle. by destruct (_ =? _)%nat.
Qed.

(** X18: a new adapter announces itself with an INITIAL_HEARTBEAT record.
    An open adapter that receives it starts to count the newcomer and answers
    with one HEARTBEAT record; the newcomer that receives the answer starts to
    count the sender and does not answer in turn, so that the exchange ends
    there and both report two servers. *)
Theorem initial_heartbeat_introduces_the_nodes (now now' now'' : Z)
    (id id' : ObjectId) (io'' : InsertOutcome)
    (localSockets localSockets'' : list JsValue) (nsp : string) (recovery : bool)
    (o : MongoAdapterOptions) (c : Collection) (peer : World) :
  isClosed (self peer) = false →
  default "" (opt_uid o) ≠ "" ∧ default "" (opt_uid o) ≠ EMITTER_UID →
  uid (self peer) ≠ "" ∧ uid (self peer) ≠ EMITTER_UID →
  let newcomer :=
    (publish now (Inserted id) InitialHeartbeatData
       {| self := new_MongoAdapter nsp recovery o; mongoCollection := c; trace := [] |}).2 in
  let hello := stamp now id (new_MongoAdapter nsp recovery o) InitialHeartbeatData in
  let greeted := onEvent now' (Inserted id') localSockets hello peer in
  let answer := stamp now' id' (self peer) HeartbeatData in
  let introduced := onEvent now'' io'' localSockets'' answer newcomer in
  mongoCollection newcomer = c ++ [hello]
  ∧ mongoCollection greeted = mongoCollection peer ++ [answer]
  ∧ nodesMap (self greeted) = <[default "" (opt_uid o) := now']> (nodesMap (self peer))
  ∧ trace greeted = trace peer
  ∧ nodesMap (self introduced) = {[ uid (self peer) := now'' ]}
  ∧ mongoCollection introduced = mongoCollection newcomer
  ∧ trace introduced = []
  ∧ serverCount (self introduced) = Resolved 2%nat.
Proof.
  intros Hpeer Hnew Hold. cbn zeta.
  unfold onEvent, publish, observe, serverCount. cbn.
  rewrite !bool_decide_eq_true_2 by done. cbn. rewrite Hpeer. cbn.
  repeat split; try done.
  by rewrite insert_empty, map_size_singleton.
Qed.

End MoreProperties.

(** ** Concrete runs, with 24-digit hexadecimal ObjectIds *)

Section Runs.

#[local] Existing Instance hex24.

Example hex24_roundtrip :
  hex24_toHex 10%N = "00000000000000000000000a"
  ∧ hex24_isValid "00000000000000000000000a" = true
  ∧ hex24_fromString "00000000000000000000000a" = 10%N
  ∧ hex24_isValid "abc" = false.
Proof. vm_compute. done. Qed.

(** C2, as stated, fails for [fetchSockets]: two peers expected, one answers
    with a socket, the deadline passes.  The promise is rejected with the
    error alone; the local socket and the remote one that had been
    accumulated in the request are dropped with it. *)
Lemma fetchSockets_timeout_drops_partial_results :
  let registered :=
    (fetchSockets  0 "r1" (Inserted 1%N) [socket "local"] everyone
       world_with_two_peers).2 in
  let answered :=
    onEvents 
      [response_from "b" (FetchSocketsResponseData "r1" [socket "remote"])] registered in
  (responses <$> requests (self answered) !! "r1")
    = Some [socket "local"; socket "remote"]
  ∧ trace (onTimeout 200 "r1" answered)
    = [SuperFetchSockets everyone;
       Call (PromiseReject "r1")
         [JsError "timeout reached: only 1 responses received out of 2"]]
  ∧ requests (self (onTimeout 200 "r1" answered)) = ∅.
Proof. vm_compute. done. Qed.

(** [serverSideEmit] with an acknowledgement, two peers expected, one answers
    with 2: the callback gets the error and [[2]]. *)
Lemma request_timeout_reports_received_count_witness :
  let emitting :=
    onEvents 
      [response_from "b" (ServerSideEmitResponseData "r1" (JsNumber 2))]
      (serverSideEmitWithAck  0 "r1" (Inserted 1%N) [JsString "hello"]
         (UserFunction "ack") world_with_two_peers) in
  trace (onTimeout 200 "r1" emitting)
    = trace emitting ++
        [Call (UserFunction "ack")
           [JsError "timeout reached: only 1 responses received out of 2";
            JsArray [JsNumber 2]]].
Proof.
  refine (proj1 (proj2 (proj2
    (request_timeout_reports_received_count  0 200 "r1" (Inserted 1%N)
       [socket "local"] [JsString "hello"] (UserFunction "ack") everyone
       [response_from "b" (ServerSideEmitResponseData "r1" (JsNumber 2))]
       world_with_two_peers _ _ _ _ _)))).
  - intros k r Hk. vm_compute in Hk. discriminate.
  - reflexivity.
  - vm_compute. lia.
  - vm_compute. lia.
  - vm_compute. discriminate.
Defined.

Example replay_restores :
  restoreSession io_ok "p1" offset_10 replay_world
    = (Resolved restored_session, replay_world_after).
Proof. vm_compute. reflexivity. Qed.

(** The replay scenario: the broadcasts to everyone and to "r1" are replayed,
    in this order. *)
Lemma restoreSession_missedPackets_witness :
  ∃ value session,
    findOne (session_query "p1") (mongoCollection replay_world) = Some value
    ∧ data value = SessionData session
    ∧ pid session = "p1"
    ∧ restored_session =
        set_missedPackets
          (omap (λ d, data_packet_data (data d))
             (filter (replayed (nsp_name (self replay_world)) (hex24_fromString offset_10)
                        (session_rooms session))
                (mongoCollection replay_world)))
          session.
Proof.
  destruct (restoreSession_missedPackets io_ok "p1"
              offset_10 replay_world replay_world_after restored_session)
    as (value & session & H1 & H2 & H3 & H4 & _).
  - vm_compute. reflexivity.
  - exists value, session. repeat split; assumption.
Defined.

(** The offset "abc" is rejected before the store is touched. *)
Lemma restoreSession_failure_kinds_witness :
  (restoreSession io_ok "p1" "abc" replay_world).1
    = Rejected invalid_offset
  ∧ (restoreSession io_ok "p1" "abc" replay_world).2
    = replay_world.
Proof.
  destruct (restoreSession_failure_kinds io_ok "p1" "abc"
              replay_world) as (Hinvalid & Huntouched & _).
  split.
  - apply Hinvalid. vm_compute. discriminate.
  - apply Huntouched. vm_compute. discriminate.
Defined.

(** Restoring the session of the replay scenario a second time. *)
Lemma restoreSession_consumes_the_session_witness :
  findOne (session_query "p1") (mongoCollection replay_world_after) = None
  ∧ (restoreSession io_ok "p1" offset_10
       replay_world_after).1 = Rejected session_not_found.
Proof.
  refine (proj2 (restoreSession_consumes_the_session
            io_ok io_ok "p1" offset_10 replay_world replay_world_after restored_session _)
          _ _ _).
  - vm_compute. reflexivity.
  - vm_compute. reflexivity.
  - reflexivity.
  - reflexivity.
Defined.

(** An adapter that has not heard of any peer. *)
Lemma no_expected_peer_is_local_only_witness :
  (fetchSockets  0 "r1" (Inserted 1%N) [socket "local"] everyone sample_world).1
    = FetchReturned [socket "local"]
  ∧ trace (serverSideEmit  0 "r1" (Inserted 1%N)
             ([JsString "hello"] ++ [JsFunction (UserFunction "ack")]) sample_world)
    = trace sample_world ++ [Call (UserFunction "ack") [JsNull; JsArray []]].
Proof.
  destruct (no_expected_peer_is_local_only  0 "r1" (Inserted 1%N)
              [socket "local"] [JsString "hello"] (UserFunction "ack") everyone
              sample_world) as (H1 & _ & _ & _ & _ & _ & H7).
  - vm_compute. reflexivity.
  - split; assumption.
Defined.

(** A heartbeat published before and after [close]. *)
Lemma publish_after_close_is_rejected_witness :
  (publish  0 (Inserted 1%N) HeartbeatData sample_world).1
    ≠ Rejected (JsString "adapter is closed")
  ∧ publish  0 (Inserted 1%N) HeartbeatData (close sample_world)
    = (Rejected (JsString "adapter is closed"), close sample_world).
Proof.
  destruct (publish_after_close_is_rejected  0 (Inserted 1%N) HeartbeatData
              sample_world) as (_ & _ & _ & Hopen).
  destruct (publish_after_close_is_rejected  0 (Inserted 1%N) HeartbeatData
              (close sample_world)) as (_ & _ & Hclosed & _).
  split.
  - apply Hopen. reflexivity.
  - apply Hclosed. reflexivity.
Defined.

(** A broadcast on a closed adapter. *)
Lemma broadcast_failed_publish_skips_local_witness :
  (broadcast  0 (Inserted 1%N) event_packet everyone (close sample_world)).1
    = Resolved tt
  ∧ trace (broadcast  0 (Inserted 1%N) event_packet everyone
             (close sample_world)).2 = trace (close sample_world)
  ∧ mongoCollection (broadcast  0 (Inserted 1%N) event_packet everyone
                       (close sample_world)).2 = mongoCollection (close sample_world).
Proof.
  apply (broadcast_failed_publish_skips_local  0 (Inserted 1%N) event_packet
           everyone (close sample_world) (JsString "adapter is closed")).
  - reflexivity.
  - reflexivity.
Defined.

(** C8, as stated, fails: [fetchSockets] without the local flag on an open
    adapter that knows no peer inserts no document, although the insert would
    have succeeded. *)
Lemma fetchSockets_without_peers_publishes_nothing :
  onlyLocal everyone = false
  ∧ isClosed (self sample_world) = false
  ∧ mongoCollection
      (fetchSockets  0 "r1" (Inserted 1%N) [] everyone sample_world).2
    = mongoCollection sample_world.
Proof. vm_compute. done. Qed.

(** [addSockets] with and without the local flag. *)
Lemma local_flag_decides_replication_witness :
  mongoCollection (addSockets  0 (Inserted 1%N) only_local ["room1"] sample_world)
    = mongoCollection sample_world
  ∧ mongoCollection (addSockets  0 (Inserted 1%N) everyone ["room1"] sample_world)
    = mongoCollection sample_world
        ++ [stamp 0 1%N (self sample_world)
              (SocketsJoinData (serializeOptions everyone) ["room1"])].
Proof.
  destruct (local_flag_decides_replication  0 "r1" (Inserted 1%N) event_packet
              only_local ["room1"] true (UserFunction "count") (UserFunction "ack") []
              sample_world) as [Hlocal _].
  destruct (local_flag_decides_replication  0 "r1" (Inserted 1%N) event_packet
              everyone ["room1"] true (UserFunction "count") (UserFunction "ack") []
              sample_world) as [_ Hcluster].
  split.
  - destruct Hlocal as (_ & _ & -> & _); reflexivity.
  - destruct (Hcluster eq_refl eq_refl 1%N eq_refl) as (_ & _ & H & _). exact H.
Defined.

(** A broadcast published by node "A" is ignored by "A" and applied by "B". *)
Lemma own_records_are_never_dispatched_witness :
  changeStream_deliver 6 (Inserted 4%N) [] broadcast_of_A node_A = node_A
  ∧ node_trace (changeStream_deliver 6 (Inserted 4%N) [] broadcast_of_A node_B)
    = node_trace node_B
        ++ [SuperBroadcast event_packet (deserializeOptions (serializeOptions everyone))].
Proof.
  destruct (own_records_are_never_dispatched
              (options_of "A") "f00d" [] node_A_steps adapter_A 5 3%N
              (BroadcastData event_packet None (serializeOptions everyone))
              broadcast_of_A) as (_ & _ & _ & Hself & Hother).
  - reflexivity.
  - reflexivity.
  - split; [apply Hself|].
    destruct (Hother (options_of "B") "beef" [] node_B_steps 6 (Inserted 4%N) [])
      as [_ Hdispatch].
    + vm_compute. discriminate.
    + vm_compute. reflexivity.
    + reflexivity.
    + destruct (Hdispatch (scheduleHeartbeat 1 (new_MongoAdapter "/" false (options_of "B"))))
        as (_ & Htrace & Hbroadcast).
      * vm_compute. reflexivity.
      * fold node_B in Htrace. rewrite Htrace.
        apply (Hbroadcast event_packet (serializeOptions everyone)); reflexivity.
Defined.

End Runs.

(** ** Concrete runs of the further properties *)

Section MoreRuns.

#[local] Existing Instance hex24.

(** [addSockets] on an open adapter appends its one record. *)
Lemma adapter_calls_only_append_witness :
  let w' := api_call 0 (Inserted 1%N) (CallAddSockets everyone ["r1"]) sample_world in
  mongoCollection w' = mongoCollection sample_world
  ∨ ∃ id payload,
      Inserted 1%N = Inserted id ∧ isClosed (self sample_world) = false
      ∧ mongoCollection w'
        = mongoCollection sample_world ++ [stamp 0 id (self sample_world) payload]
      ∧ heartbeatTimer (self w') = Some (0 + heartbeatInterval (self sample_world)).
Proof.
  apply (adapter_calls_only_append 0 (Inserted 1%N) (CallAddSockets everyone ["r1"])
           sample_world).
  intros rio privateId offset. discriminate.
Defined.

(** The peer "b" receives a broadcast that waits for acknowledgements and
    reports that none of its clients got it. *)
Lemma onEvent_publishes_only_replies_witness :
  let document :=
    stamp 0 1%N (self sample_world)
      (BroadcastData event_packet (Some "r1") (serializeOptions everyone)) in
  let w' := onEvent 5 (InsertFailed "unused") [] document peer_world in
  mongoCollection
    (call_closure 5 (Inserted 2%N) (PublishClientCount "r1") (JsNumber 0) false w').2
  = mongoCollection peer_world
      ++ [stamp 5 2%N (self peer_world) (BroadcastClientCountData "r1" 0)].
Proof.
  refine (proj2 (proj1 (proj2 (proj2
    (onEvent_publishes_only_replies 5 (InsertFailed "unused") []
       (stamp 0 1%N (self sample_world)
          (BroadcastData event_packet (Some "r1") (serializeOptions everyone)))
       peer_world))) event_packet "r1" (serializeOptions everyone) _) _ 5 2%N false 0);
    reflexivity.
Defined.

(** After [close], [addSockets] stores nothing. *)
Lemma closed_adapter_stays_silent_witness :
  mongoCollection
    (api_call 0 (Inserted 1%N) (CallAddSockets everyone ["r1"]) (close sample_world))
  = mongoCollection (close sample_world).
Proof.
  refine (proj1 (proj2 (proj2
    (closed_adapter_stays_silent 0 (Inserted 1%N) (CallAddSockets everyone ["r1"]) []
       (delivered (response_from "b" HeartbeatData)) (close sample_world) _))) _).
  - reflexivity.
  - intros rio privateId offset. discriminate.
Defined.

(** Heartbeats of "b" at 10 and of "c" at 20, then of "b" again at 30: "c"
    is still held with 20, and there are three servers. *)
Lemma peers_are_the_senders_witness :
  nodesMap (self (onEvents heartbeats_of_b_c_b sample_world)) !! "c"
  = match last_heard "c" heartbeats_of_b_c_b with
    | Some t => Some t
    | None => nodesMap (self sample_world) !! "c"
    end
  ∧ last_heard "c" heartbeats_of_b_c_b = Some 20
  ∧ last_heard "b" heartbeats_of_b_c_b = Some 30
  ∧ serverCount (self (onEvents (take 2 heartbeats_of_b_c_b) sample_world))
    = Resolved (1 + length (senders (take 2 heartbeats_of_b_c_b)))%nat.
Proof.
  split; [|split; [|split]].
  - exact (proj1 (peers_are_the_senders heartbeats_of_b_c_b sample_world) "c").
  - vm_compute. reflexivity.
  - vm_compute. reflexivity.
  - refine (proj2 (proj2 (proj2 (proj2
      (peers_are_the_senders (take 2 heartbeats_of_b_c_b) sample_world)))) _ _).
    + reflexivity.
    + refine (bool_decide_unpack _ _). vm_compute. exact I.
Defined.

(** The adapter of node "A" does not count "A". *)
Lemma node_never_counts_itself_witness :
  nodesMap adapter_A !! or_default_string (opt_uid (options_of "A")) "f00d" = None
  ∧ nodesMap adapter_A !! EMITTER_UID = None
  ∧ nodesMap adapter_A !! "" = None.
Proof.
  apply (node_never_counts_itself (options_of "A") "f00d" [] node_A_steps "/" adapter_A).
  vm_compute. reflexivity.
Defined.

(** Two peers: after the answer of "b", the answer of "c" resolves the
    promise with the three sockets. *)
Lemma last_response_completes_request_witness :
  let deliveries := [response_from "b" (FetchSocketsResponseData "r1" [socket "remote"])] in
  let fetched := delivered (response_from "c" (FetchSocketsResponseData "r1" [socket "far"])) in
  let fetching :=
    onEvents deliveries
      (fetchSockets 0 "r1" (Inserted 1%N) [socket "local"] everyone world_with_two_peers).2 in
  trace (onEvent 20 (InsertFailed "unused") [] fetched fetching)
    = trace fetching ++
        [Call (PromiseResolve "r1")
           [JsArray ([socket "local"] ++ concat (responses_to "r1" deliveries)
                       ++ [socket "far"])]].
Proof.
  refine (proj1
    (last_response_completes_request 0 20 300 "r1" (Inserted 1%N) (InsertFailed "unused")
       [socket "local"] [JsString "hello"] [] (UserFunction "ack") everyone
       [response_from "b" (FetchSocketsResponseData "r1" [socket "remote"])]
       (delivered (response_from "c" (FetchSocketsResponseData "r1" [socket "far"])))
       (delivered (response_from "c" (ServerSideEmitResponseData "r1" (JsNumber 2))))
       [socket "far"] (JsNumber 2) world_with_two_peers _ _ _ _ _)).
  - intros k r Hk. vm_compute in Hk. discriminate.
  - reflexivity.
  - vm_compute. reflexivity.
  - reflexivity.
  - reflexivity.
Defined.

(** The answer of "b" arrives after the deadline of the request. *)
Lemma late_response_is_dropped_witness :
  let document := delivered (response_from "b" (FetchSocketsResponseData "r1" [socket "remote"])) in
  let registered :=
    (fetchSockets 0 "r1" (Inserted 1%N) [socket "local"] everyone world_with_two_peers).2 in
  onEvent 300 (InsertFailed "unused") [] document (onTimeout 250 "r1" registered)
  = with_self (observe 300 document) (onTimeout 250 "r1" registered).
Proof.
  refine (proj2
    (late_response_is_dropped 300 250 (InsertFailed "unused") [] [socket "remote"]
       (delivered (response_from "b" (FetchSocketsResponseData "r1" [socket "remote"])))
       "r1" pending_fetch pending_fetch_timer
       (fetchSockets 0 "r1" (Inserted 1%N) [socket "local"] everyone world_with_two_peers).2
       _) _ _ _ _).
  - reflexivity.
  - vm_compute. reflexivity.
  - vm_compute. reflexivity.
  - discriminate.
  - vm_compute. discriminate.
Defined.

(** A client count arrives for a broadcast that waits for acknowledgements. *)
Lemma acknowledgements_until_timeout_witness :
  let counted := delivered (response_from "b" (BroadcastClientCountData "r1" 3)) in
  let waiting :=
    onEvents []
      (broadcastWithAck 0 "r1" (Inserted 1%N) event_packet everyone
         (UserFunction "count") (UserFunction "ack") sample_world).2 in
  trace (onEvent 10 (InsertFailed "unused") [] counted waiting)
    = trace waiting ++ [Call (UserFunction "count") [JsNumber 3]].
Proof.
  refine (proj1
    (acknowledgements_until_timeout 0 10 600 "r1" (Inserted 1%N) (InsertFailed "unused")
       event_packet everyone {| local := false; volatile := None; timeout := Some 500 |}
       (UserFunction "count") (UserFunction "ack") [] []
       (delivered (response_from "b" (BroadcastClientCountData "r1" 3)))
       (delivered (response_from "b" (BroadcastAckData "r1" (JsString "ok"))))
       3 (JsString "ok") sample_world _ _ _ _)); reflexivity.
Defined.

(** With connection state recovery the local clients get the offset as a
    string. *)
Lemma offset_is_added_on_delivery_witness :
  trace (broadcast 0 (Inserted 1%N) event_packet everyone peer_world).2
  = trace peer_world ++
      [SuperBroadcast
         {| packet_type := packet_type event_packet; packet_id := packet_id event_packet;
            packet_data := Some ([JsString "test"] ++ [JsString (ObjectId_toHex 1%N)]) |}
         everyone].
Proof.
  refine (proj1 (proj2 (proj2 (proj2
    (offset_is_added_on_delivery 0 5 1%N (InsertFailed "unused") [] event_packet everyone
       peer_world sample_world _ _))) [JsString "test"] _) _); reflexivity.
Defined.

(** The session of the replay scenario, persisted and restored. *)
Lemma persisted_session_is_restored_witness :
  (restoreSession io_ok (pid persisted_session) offset_10
     (persistSession 0 (Inserted 12%N) persisted_session log_without_session)).1
  = Resolved restored_session.
Proof.
  refine (eq_trans (f_equal fst (proj2
    (persisted_session_is_restored 0 12%N io_ok persisted_session offset_10
       log_without_session _ _ _ _ _ _ _))) _).
  - reflexivity.
  - vm_compute. reflexivity.
  - vm_compute. reflexivity.
  - vm_compute. by eexists.
  - reflexivity.
  - reflexivity.
  - reflexivity.
  - vm_compute. reflexivity.
Defined.

(** The offset is unknown: the session is consumed all the same. *)
Lemma restoreSession_only_consumes_witness :
  (restoreSession io_ok "p1" offset_255 replay_world).1 = Rejected session_not_found
  ∧ length (filter (λ d, session_query "p1" d)
              (mongoCollection (restoreSession io_ok "p1" offset_255 replay_world).2))
    = Nat.pred (length (filter (λ d, session_query "p1" d) (mongoCollection replay_world))).
Proof.
  refine (proj2 (proj2 (proj2 (proj2
    (restoreSession_only_consumes io_ok "p1" offset_255 replay_world)))) _ _ _ _ _).
  - vm_compute. reflexivity.
  - reflexivity.
  - reflexivity.
  - vm_compute. by eexists.
  - vm_compute. reflexivity.
Defined.

(** Node "B" has seen the broadcast of "A": it resumes after it. *)
Lemma reconnection_resumes_after_last_insert_witness :
  changeStream
    (initChangeStream
       (on_close (node (changeStream_deliver 5 (InsertFailed "unused") [] broadcast_of_A
                          node_B))))
  = Some {| closed := false; match_ne_uid := opt_uid (opts (node node_B));
            resumeAfter := Some (event_token broadcast_of_A) |}.
Proof.
  refine (proj1 (proj2 (proj2
    (reconnection_resumes_after_last_insert 5 (InsertFailed "unused") [] broadcast_of_A
       node_B stream_of_B _ _ _ _)) _)).
  - reflexivity.
  - vm_compute. reflexivity.
  - reflexivity.
  - vm_compute. reflexivity.
  - reflexivity.
Defined.

(** Node "A" closes its only adapter and creates one for "/chat". *)
Lemma closing_the_last_adapter_stops_the_stream_witness :
  changeStream (node (with_node (node_close "/") node_A)) = None
  ∧ node_isClosed (node (with_node (node_close "/") node_A)) = true.
Proof.
  refine ((λ H, conj (proj1 H) (proj1 (proj2 H))) (proj2
    (closing_the_last_adapter_stops_the_stream 5 9 (InsertFailed "unused") (Inserted 4%N) []
       broadcast_of_A "/" "/chat" true node_A) _)).
  vm_compute. reflexivity.
Defined.

(** The broadcast of "A" for "/" leaves the adapter of "/admin" alone. *)
Lemma delivery_reaches_one_namespace_witness :
  adapters (node (changeStream_deliver 5 (InsertFailed "unused") [] broadcast_of_A
                    node_B_two_namespaces)) !! "/admin"
  = adapters (node node_B_two_namespaces) !! "/admin".
Proof.
  refine (proj1
    (delivery_reaches_one_namespace 5 (InsertFailed "unused") [] broadcast_of_A
       node_B_two_namespaces "/admin") _).
  vm_compute. discriminate.
Defined.

(** The attachment of the packet is replaced once and for all. *)
Lemma replaceBinaryObjectsByBuffers_removes_binaries_witness :
  binary_free (replaceBinaryObjectsByBuffers binary_document)
  ∧ replaceBinaryObjectsByBuffers (replaceBinaryObjectsByBuffers binary_document)
    = replaceBinaryObjectsByBuffers binary_document.
Proof.
  refine (proj1 (proj2 (replaceBinaryObjectsByBuffers_removes_binaries binary_document)) _).
  cbn. repeat split; discriminate.
Defined.

(** A join in "r1" reaches the peer "b" with an empty [except]. *)
Lemma membership_changes_reach_the_peers_witness :
  let document :=
    stamp 0 1%N (self sample_world) (SocketsJoinData (serializeOptions everyone) ["r1"]) in
  onEvent 5 (InsertFailed "unused") [] document peer_world
  = emit_effect
      (SuperAddSockets
         {| rooms := rooms everyone; except := Some (default [] (except everyone));
            flags := flags everyone |} ["r1"])
      (with_self (observe 5 document) peer_world).
Proof.
  refine (proj2 (proj2 (proj1
    (membership_changes_reach_the_peers 0 5 1%N (InsertFailed "unused") [] everyone ["r1"]
       true sample_world peer_world _ _)))); reflexivity.
Defined.

(** One peer: its answer resolves [fetchSockets] with both sockets. *)
Lemma fetchSockets_round_trip_witness :
  let asked :=
    (fetchSockets 0 "r1" (Inserted 1%N) [socket "local"] everyone world_with_one_peer).2 in
  let response :=
    stamp 5 2%N (self peer_world)
      (FetchSocketsResponseData "r1" (serializeSocket <$> [socket "remote"])) in
  trace (onEvent 9 (InsertFailed "unused") [] response asked)
  = trace asked ++
      [Call (PromiseResolve "r1")
         [JsArray ([socket "local"] ++ (serializeSocket <$> [socket "remote"]))]].
Proof.
  refine (proj1 (proj2 (proj2
    (fetchSockets_round_trip 0 5 9 "r1" 1%N 2%N (InsertFailed "unused")
       [socket "local"] [socket "remote"] [] everyone world_with_one_peer peer_world
       _ _ _ _ _)))).
  - intros k r Hk. vm_compute in Hk. discriminate.
  - reflexivity.
  - vm_compute. reflexivity.
  - reflexivity.
  - reflexivity.
Defined.

(** The new adapter of "A" and the peer "b" get to know each other. *)
Lemma initial_heartbeat_introduces_the_nodes_witness :
  let newcomer :=
    (publish 0 (Inserted 1%N) InitialHeartbeatData
       {| self := new_MongoAdapter "/" false (options_of "A"); mongoCollection := [];
          trace := [] |}).2 in
  let answer := stamp 5 2%N (self peer_world) HeartbeatData in
  serverCount (self (onEvent 9 (InsertFailed "unused") [] answer newcomer))
  = Resolved 2%nat.
Proof.
  refine (proj2 (proj2 (proj2 (proj2 (proj2 (proj2 (proj2
    (initial_heartbeat_introduces_the_nodes 0 5 9 1%N 2%N (InsertFailed "unused") [] []
       "/" false (options_of "A") [] peer_world _ _ _)))))))).
  - reflexivity.
  - split; discriminate.
  - split; discriminate.
Defined.

End MoreRuns.
